(** * Enhanced Company Intelligence: the enrichment pipeline

    A shallow embedding of [server/routes.ts] (the Companies House client
    [CompaniesHouseService] with its filing history and its cache controls,
    the estimators of [EnhancementService], the bulk route and
    [processBulkCompanies]) and of [server/storage.ts] ([MemStorage], for
    companies and processing jobs), followed by the properties of the
    specification that concern them and by further properties of the code.
    The single-company route, the search and listing routes and the export
    go through the stores in the order of insertion, which the stores of
    this embedding do not keep, and are not embedded.

    Conventions of the embedding.
    - A JavaScript string is a [string] whose characters are the code units
      U+0000..U+00FF.
    - A JavaScript number is a binary64 [float], and the arithmetic of the
      source on numbers is the arithmetic of [PrimFloat].  Quantities that
      the source only ever holds as integers (clock readings in milliseconds,
      counters, durations) are carried in [Z], and a [Date] is an [option Z]:
      its time value, [None] for the invalid date, whose time value is NaN.
    - A value is what [JSON.parse] can build, or a member of
      [Object.prototype], which a lookup in a plain object may find.  An
      object read from JSON holds no function: the conversion of an object
      or an array to a string, a number, a date or a property key throws a
      [TypeError] when it meets an object that has a [toString] property of
      its own, and the conversions are partial accordingly.
    - A thrown exception is an outcome [Throw e]; the state of the process is
      threaded explicitly and survives a throw, as it does in JavaScript.
    - The object [response.json()] builds lives at an address of a heap: the
      cache and the callers hold the address, so that a write through one is
      seen through the other.
    - What the engine and the environment provide (the API key, [Date.parse],
      the time zone, the printing and reading of numbers, the UUIDs) is a
      parameter, the class [Host].
    - The registry is a finite list of round trips to come, each answering
      the request it receives; when the list is used up [fetch] rejects.  A
      registry that answers 429 for ever, on which [makeRequest] does not
      return, is thereby left out.
    - An [await] is sequencing: one run is followed in isolation from the
      other requests the same process serves.  The clock moves at timers
      and round trips only, so that two readings of it between which neither
      comes agree; of the source they are only known to be in order. *)

From Stdlib Require Import ZArith Ascii String List Bool Lia.
From Stdlib Require Import Floats.FloatClass Floats.PrimFloat Floats.FloatOps Floats.SpecFloat
  Floats.FloatAxioms.
From stdpp Require Import gmap strings list.

Local Open Scope string_scope.
Local Open Scope list_scope.
Local Open Scope Z_scope.

Set Warnings "-inexact-float,-register-all".

(** ** Strings *)

Module Str.

Definition code (c : ascii) : Z := Z.of_nat (nat_of_ascii c).

Definition chr (n : Z) : ascii := ascii_of_nat (Z.to_nat n).

Definition single (c : ascii) : string := String c EmptyString.

(** The double quote, as a one-character string. *)
Definition dquote : string := single (chr 34).

Definition is_digit (c : ascii) : bool := (48 <=? code c) && (code c <=? 57).

(** [\s] of a regular expression and the characters [trim] strips: TAB, LF,
    VT, FF, CR, SPACE and NO-BREAK SPACE among the code units below 0x100. *)
Definition is_space (c : ascii) : bool :=
  let n := code c in ((9 <=? n) && (n <=? 13)) || (n =? 32) || (n =? 160).

Fixpoint all_digits (s : string) : bool :=
  match s with
  | EmptyString => true
  | String c r => is_digit c && all_digits r
  end.

(** [/^\d{n}$/]: JavaScript's [$] without the [m] flag matches at the very
    end of the input only. *)
Definition is_digits (n : nat) (s : string) : bool :=
  (String.length s =? n)%nat && all_digits s.

(** [s.replace(/\s+/g, ' ')]: every maximal run of white space becomes one
    space; [in_run] tells that the previous character was white space. *)
Fixpoint collapse (in_run : bool) (s : string) : string :=
  match s with
  | EmptyString => EmptyString
  | String c r =>
      if is_space c
      then (if in_run then collapse true r else String (chr 32) (collapse true r))
      else String c (collapse false r)
  end.

Fixpoint trimStart (s : string) : string :=
  match s with
  | EmptyString => EmptyString
  | String c r => if is_space c then trimStart r else s
  end.

Fixpoint trimEnd (s : string) : string :=
  match s with
  | EmptyString => EmptyString
  | String c r =>
      match trimEnd r with
      | EmptyString => if is_space c then EmptyString else single c
      | r' => String c r'
      end
  end.

Definition trim (s : string) : string := trimEnd (trimStart s).

(** [toLowerCase] on the code units below 0x100: A-Z and the capital
    letters U+00C0..U+00DE (but not the multiplication sign U+00D7). *)
Definition lower_char (c : ascii) : ascii :=
  let n := code c in
  if ((65 <=? n) && (n <=? 90)) || ((192 <=? n) && (n <=? 222) && negb (n =? 215))
  then chr (n + 32) else c.

Fixpoint toLowerCase (s : string) : string :=
  match s with
  | EmptyString => EmptyString
  | String c r => String (lower_char c) (toLowerCase r)
  end.

Definition startsWith (s p : string) : bool := String.prefix p s.

(** [hay.includes(needle)] *)
Fixpoint includes (hay needle : string) : bool :=
  String.prefix needle hay ||
  match hay with
  | EmptyString => false
  | String _ r => includes r needle
  end.

Definition digit (n : Z) : ascii := chr (48 + n mod 10).

(** Decimal rendering, zero-padded on the left to [w] digits (of the [w]
    low digits of [n]). *)
Fixpoint pad (w : nat) (n : Z) : string :=
  match w with
  | O => EmptyString
  | S w' => pad w' (n / 10) +:+ single (digit n)
  end.

Definition hex_digit (n : Z) : ascii :=
  let d := n mod 16 in if d <? 10 then chr (48 + d) else chr (87 + d).

(** One character inside a JSON string literal, as [JSON.stringify] writes
    it. *)
Definition json_char (c : ascii) : string :=
  let n := code c in
  if n =? 34 then single (chr 92) +:+ dquote
  else if n =? 92 then single (chr 92) +:+ single (chr 92)
  else if n =? 8 then single (chr 92) +:+ "b"
  else if n =? 9 then single (chr 92) +:+ "t"
  else if n =? 10 then single (chr 92) +:+ "n"
  else if n =? 12 then single (chr 92) +:+ "f"
  else if n =? 13 then single (chr 92) +:+ "r"
  else if n <? 32
    then single (chr 92) +:+ "u00" +:+ single (hex_digit (n / 16)) +:+ single (hex_digit n)
  else single c.

Fixpoint json_chars (s : string) : string :=
  match s with
  | EmptyString => EmptyString
  | String c r => json_char c +:+ json_chars r
  end.

(** [JSON.stringify(s)] for a string [s]. *)
Definition json_quote (s : string) : string := dquote +:+ json_chars s +:+ dquote.

(** [parseInt(s, 10)]: leading white space, an optional sign, then the
    longest run of digits; [None] is NaN (no digit). *)
Fixpoint digits_value (acc : option Z) (s : string) : option Z :=
  match s with
  | EmptyString => acc
  | String c r =>
      if is_digit c
      then digits_value (Some (10 * default 0 acc + (code c - 48))) r
      else acc
  end.

Definition parseInt (s : string) : option Z :=
  match trimStart s with
  | String c r =>
      if (code c =? 45) then Z.opp <$> digits_value None r
      else if (code c =? 43) then digits_value None r
      else digits_value None (String c r)
  | EmptyString => None
  end.

(** Decimal rendering of an integer, as [String(n)] writes it. *)
Fixpoint decimal_digits (fuel : nat) (n : Z) : string :=
  match fuel with
  | O => EmptyString
  | S fuel' =>
      if n <? 10 then single (digit n)
      else decimal_digits fuel' (n / 10) +:+ single (digit n)
  end.

Definition decimal (n : Z) : string :=
  let digits := decimal_digits (S (Z.to_nat (Z.log2 (Z.abs n)))) (Z.abs n) in
  if n <? 0 then "-" +:+ digits else digits.

(** Insertion of a key into a list sorted by code units, as
    [Array.prototype.sort] orders strings. *)
Fixpoint insert_sorted (k : string) (l : list string) : list string :=
  match l with
  | [] => [k]
  | k' :: r => if String.leb k k' then k :: l else k' :: insert_sorted k r
  end.

Definition sort (l : list string) : list string := fold_right insert_sorted [] l.

End Str.

(** ** Numbers *)

Module Num.

Definition of_Z (z : Z) : float := SF2Prim (binary_normalize prec emax z 0 false).

Definition nan : float := PrimFloat.nan.

Definition is_nan (f : float) : bool := negb (PrimFloat.eqb f f).

(** The integer part towards minus infinity of a finite number. *)
Definition floor_Z (f : float) : option Z :=
  match Prim2SF f with
  | S754_zero _ => Some 0
  | S754_finite s m e =>
      let q := if 0 <=? e then Z.shiftl (Z.pos m) e else Z.shiftr (Z.pos m) (- e) in
      let exact := (0 <=? e) || (Z.shiftl q (- e) =? Z.pos m) in
      Some (if s then (if exact then - q else - q - 1) else q)
  | S754_infinity _ | S754_nan => None
  end.

(** The integer part towards zero of a finite number. *)
Definition trunc_Z (f : float) : option Z :=
  match Prim2SF f with
  | S754_zero _ => Some 0
  | S754_finite s m e =>
      let q := if 0 <=? e then Z.shiftl (Z.pos m) e else Z.shiftr (Z.pos m) (- e) in
      Some (if s then - q else q)
  | S754_infinity _ | S754_nan => None
  end.

(** [Math.floor]: NaN, the infinities and the zeros are returned as they
    are. *)
Definition Math_floor (f : float) : float :=
  match floor_Z f with
  | Some z => if PrimFloat.eqb f 0 then f else of_Z z
  | None => f
  end.

(** A year difference, or NaN, as a number. *)
Definition of_option (o : option Z) : float :=
  match o with Some z => of_Z z | None => nan end.

Definition is_negative_zero (f : float) : bool :=
  match PrimFloat.classify f with NZero => true | _ => false end.

(** [Math.max] and [Math.min] of two numbers: NaN if either is NaN, and
    the negative zero below the positive one. *)
Definition Math_max (a b : float) : float :=
  if is_nan a || is_nan b then nan
  else if PrimFloat.ltb a b then b
  else if PrimFloat.ltb b a then a
  else if is_negative_zero a then b else a.

Definition Math_min (a b : float) : float :=
  if is_nan a || is_nan b then nan
  else if PrimFloat.ltb a b then a
  else if PrimFloat.ltb b a then b
  else if is_negative_zero b then b else a.

End Num.

(** ** JavaScript values *)

(** A value read from a JSON payload, or built by the code from such
    values.  An object read from JSON is a plain object: its prototype is
    [Object.prototype].  [JNative name] is the member [name] of
    [Object.prototype], which a lookup in a plain object finds when the
    object has no property of that name itself: a built-in function, or, for
    [__proto__], [Object.prototype]. *)
Inductive JsValue : Type :=
| JUndefined
| JNull
| JBool (b : bool)
| JNum (f : float)
| JStr (s : string)
| JArr (items : list JsValue)
| JObj (fields : list (string * JsValue))
| JNative (name : string).

(** An [Error] object: its constructor's name and its [message]. *)
Record JsError : Type := mkError { errName : string; message : string }.

Definition Error (msg : string) : JsError := mkError "Error" msg.
Definition TypeError (msg : string) : JsError := mkError "TypeError" msg.

(** What the JavaScript engine and the process environment provide and the
    source relies on without defining it. *)
Class Host : Type := {
  (** [process.env.COMPANIES_HOUSE_API_KEY || ""] *)
  apiKey : string;
  (** [Date.parse]: the time value of a date string, [None] when it is NaN *)
  Date_parse : string -> option Z;
  (** the offset of local time from UTC, in milliseconds, at a UTC time *)
  LocalTZA : Z -> Z;
  (** [Number.prototype.toString] (radix 10) *)
  Number_toString : float -> string;
  (** the numeric value of a string ([Number(s)]) *)
  StringToNumber : string -> float;
  (** [Function.prototype.toString] of the built-in function that is the
      member of [Object.prototype] of the given name *)
  Function_toString : string -> string;
  (** the successive results of [randomUUID()] *)
  randomUUID : nat -> string;
}.

Module Js.

(** Own properties of an object, in insertion order. *)
Fixpoint obj_get (k : string) (fs : list (string * JsValue)) : JsValue :=
  match fs with
  | [] => JUndefined
  | (k', v) :: r => if String.eqb k k' then v else obj_get k r
  end.

(** [o[k] = v]: an existing property keeps its place, a new one goes last. *)
Fixpoint obj_set (k : string) (v : JsValue) (fs : list (string * JsValue))
  : list (string * JsValue) :=
  match fs with
  | [] => [(k, v)]
  | (k', v') :: r => if String.eqb k k' then (k, v) :: r else (k', v') :: obj_set k v r
  end.

(** ToBoolean *)
Definition truthy (v : JsValue) : bool :=
  match v with
  | JUndefined | JNull => false
  | JBool b => b
  | JNum f => negb (PrimFloat.eqb f 0 || Num.is_nan f)
  | JStr s => negb (String.eqb s "")
  | JArr _ | JObj _ | JNative _ => true
  end.

(** [a || b] *)
Definition or_else (a b : JsValue) : JsValue := if truthy a then a else b.

Definition describe (v : JsValue) : string :=
  match v with JNull => "null" | _ => "undefined" end.

(** [v.k] (or [v[k]]) for a property name [k] that is neither an array
    index nor a member of a built-in prototype, which is the case of every
    name the source reads: reading a property of [null] or [undefined]
    throws, an object gives its own property, anything else [undefined]. *)
Definition get (v : JsValue) (k : string) : JsError + JsValue :=
  match v with
  | JUndefined | JNull =>
      inl (TypeError ("Cannot read properties of " +:+ describe v +:+
                      " (reading '" +:+ k +:+ "')"))
  | JObj fs => inr (obj_get k fs)
  | _ => inr JUndefined
  end.

(** The object has a property of that name itself. *)
Definition has_own (k : string) (fs : list (string * JsValue)) : bool :=
  existsb (fun kv => String.eqb k (fst kv)) fs.

(** The members of [Object.prototype], each with the [length] of the
    function it is; [__proto__] gives [Object.prototype] itself, which is no
    function. *)
Definition prototypeMembers : list (string * option Z) :=
  [("constructor", Some 1);
   ("__defineGetter__", Some 2);
   ("__defineSetter__", Some 2);
   ("hasOwnProperty", Some 1);
   ("__lookupGetter__", Some 1);
   ("__lookupSetter__", Some 1);
   ("isPrototypeOf", Some 1);
   ("propertyIsEnumerable", Some 1);
   ("toString", Some 0);
   ("valueOf", Some 0);
   ("__proto__", None);
   ("toLocaleString", Some 0)].

Definition arity (name : string) : option Z :=
  match List.find (fun m => String.eqb name (fst m)) prototypeMembers with
  | Some m => snd m
  | None => None
  end.

Definition inherited (name : string) : bool :=
  existsb (fun m => String.eqb name (fst m)) prototypeMembers.

(** [o[k]] for a plain object [o] of the code's own making whose properties
    are [own]: the property of the object itself, else the member of
    [Object.prototype] of that name, else [undefined]. *)
Definition lookup (own : list (string * JsValue)) (k : string) : JsValue :=
  if has_own k own then obj_get k own
  else if inherited k then JNative k
  else JUndefined.

(** The error of a conversion to a primitive value that finds neither a
    callable [toString] nor a [valueOf] that gives a primitive. *)
Definition notPrimitive : JsError :=
  TypeError "Cannot convert object to primitive value".

Fixpoint join (sep : string) (parts : list string) : string :=
  match parts with
  | [] => ""
  | [p] => p
  | p :: r => p +:+ sep +:+ join sep r
  end.

Section WithHost.
Context `{Host}.

(** ToString, as a template literal, a property key or [join] applies it;
    it is also the string that ToPrimitive gives for an object, whatever the
    hint.  A plain object that has no [toString] of its own is
    ["[object Object]"]; one that has (a value read from JSON is never
    callable) cannot be converted, and the conversion throws.  An array is
    its elements joined with commas, [null] and [undefined] giving the empty
    string; the conversion of an element may throw. *)
Fixpoint ToString (v : JsValue) : JsError + string :=
  match v with
  | JUndefined => inr "undefined"
  | JNull => inr "null"
  | JBool b => inr (if b then "true" else "false")
  | JNum f => inr (Number_toString f)
  | JStr s => inr s
  | JArr l =>
      match
        (fix elements (l : list JsValue) : JsError + list string :=
           match l with
           | [] => inr []
           | x :: r =>
               match match x with
                     | JUndefined | JNull => inr ""
                     | _ => ToString x
                     end with
               | inl e => inl e
               | inr s =>
                   match elements r with
                   | inl e => inl e
                   | inr ss => inr (s :: ss)
                   end
               end
           end) l
      with
      | inl e => inl e
      | inr parts => inr (join "," parts)
      end
  | JObj fs => if has_own "toString" fs then inl notPrimitive else inr "[object Object]"
  | JNative name =>
      inr (match arity name with
           | Some _ => Function_toString name
           | None => "[object Object]"
           end)
  end.

(** ToNumber *)
Definition ToNumber (v : JsValue) : JsError + float :=
  match v with
  | JUndefined => inr Num.nan
  | JNull => inr 0%float
  | JBool b => inr (if b then 1%float else 0%float)
  | JNum f => inr f
  | JStr s => inr (StringToNumber s)
  | JArr _ | JObj _ | JNative _ =>
      match ToString v with
      | inl e => inl e
      | inr s => inr (StringToNumber s)
      end
  end.

(** [x === 0] *)
Definition is_zero (x : JsValue) : bool :=
  match x with JNum f => PrimFloat.eqb f 0 | _ => false end.

(** [x > 0]: the conversion of [x] to a number may throw. *)
Definition is_positive (x : JsValue) : JsError + bool :=
  match ToNumber x with
  | inl e => inl e
  | inr f => inr (PrimFloat.ltb 0 f)
  end.

(** [v.length] for a value [v] that is not [null] or [undefined]: the
    length of an array or a string is its number of elements, that of a
    plain object is its own property of that name, that of a function its
    number of parameters, and anything else has none. *)
Definition length_of (v : JsValue) : JsValue + nat :=
  match v with
  | JArr l => inr (List.length l)
  | JStr s => inr (String.length s)
  | JObj fs => inl (obj_get "length" fs)
  | JNative name => match arity name with
                    | Some n => inr (Z.to_nat n)
                    | None => inl JUndefined
                    end
  | _ => inl JUndefined
  end.

(** [v.length === 0] *)
Definition length_is_zero (v : JsValue) : bool :=
  match length_of v with
  | inr n => (n =? 0)%nat
  | inl x => is_zero x
  end.

(** [v.length > 0], which throws when the length is a value that cannot
    be converted to a number. *)
Definition length_is_positive (v : JsValue) : JsError + bool :=
  match length_of v with
  | inr n => inr (0 <? n)%nat
  | inl x => is_positive x
  end.

(** The largest time value of a [Date], 8.64e15 ms. *)
Definition maxTime : Z := 8640000000000000.

(** [new Date(v)] for one argument: its time value, [None] for the
    invalid date.  A string is parsed, a number is clipped to the valid
    range and truncated, an array or an object is converted to a string
    first, which may throw. *)
Definition Date_new (v : JsValue) : JsError + option Z :=
  match v with
  | JUndefined => inr None
  | JNull => inr (Some 0)
  | JBool b => inr (Some (if b then 1 else 0))
  | JNum f =>
      inr match Num.trunc_Z f with
          | Some t => if Z.abs t <=? maxTime then Some t else None
          | None => None
          end
  | JStr s => inr (Date_parse s)
  | JArr _ | JObj _ | JNative _ =>
      match ToString v with
      | inl e => inl e
      | inr s => inr (Date_parse s)
      end
  end.

(** Days since the epoch to the civil year (proleptic Gregorian). *)
Definition civil (days : Z) : Z * Z * Z :=
  let z := days + 719468 in
  let era := z / 146097 in
  let doe := z - era * 146097 in
  let yoe := (doe - doe / 1460 + doe / 36524 - doe / 146096) / 365 in
  let doy := doe - (365 * yoe + yoe / 4 - yoe / 100) in
  let mp := (5 * doy + 2) / 153 in
  let d := doy - (153 * mp + 2) / 5 + 1 in
  let m := if mp <? 10 then mp + 3 else mp - 9 in
  let y := yoe + era * 400 + (if m <=? 2 then 1 else 0) in
  (y, m, d).

Definition msPerDay : Z := 86400000.

Definition utcYear (t : Z) : Z := fst (fst (civil (t / msPerDay))).

(** [d.getFullYear()]: the year of [d] in local time, [None] (NaN) for the
    invalid date. *)
Definition getFullYear (d : option Z) : option Z :=
  (fun t => utcYear (t + LocalTZA t)) <$> d.

(** [d.toISOString()] of a valid date: [YYYY-MM-DDTHH:mm:ss.sssZ], the
    year with a sign and six digits outside 0..9999. *)
Definition toISOString (t : Z) : string :=
  let '(y, m, d) := civil (t / msPerDay) in
  let ms := t mod msPerDay in
  let year := if (0 <=? y) && (y <=? 9999) then Str.pad 4 y
              else (if y <? 0 then "-" else "+") +:+ Str.pad 6 (Z.abs y) in
  year +:+ "-" +:+ Str.pad 2 m +:+ "-" +:+ Str.pad 2 d +:+ "T" +:+
  Str.pad 2 (ms / 3600000) +:+ ":" +:+ Str.pad 2 (ms / 60000 mod 60) +:+ ":" +:+
  Str.pad 2 (ms / 1000 mod 60) +:+ "." +:+ Str.pad 3 (ms mod 1000) +:+ "Z".

End WithHost.

End Js.

(** ** The process state *)

Module Http.

(** The request [fetch] sends: the path below the base URL, and the query
    parameters in the order they were appended. *)
Record Request : Type := { path : string; query : list (string * string) }.

(** What the code reads of a response.  [json] is the result of
    [response.json()]: the parsed body, or the error it rejects with. *)
Record Response : Type := {
  status : Z;
  statusText : string;
  retryAfter : option string;
  json : JsError + JsValue;
}.

Definition ok (r : Response) : bool := (200 <=? status r) && (status r <=? 299).

(** One round trip to come: how long it takes, and what the registry
    answers to a request (a response, or the error [fetch] rejects with). *)
Record Exchange : Type := {
  latency : nat;
  respond : Request -> JsError + Response;
}.

End Http.

Inductive JobStatus : Type := pending | processing | completed | failed.

(** [processingOptionsSchema] *)
Record ProcessingOptions : Type := {
  useCache : bool;
  filingHistory : bool;
  financialData : bool;
  employeeEstimation : bool;
  revenueEstimation : bool;
  valuationAnalysis : bool;
  industryBenchmark : bool;
  riskAssessment : bool;
  parallelProcessing : bool;
  errorHandling : bool;
  emailNotification : bool;
  priorityQueue : bool;
}.

(** The argument of [createCompany]. *)
Record InsertCompany : Type := {
  companyNumber : JsValue;
  companyName : JsValue;
  status : JsValue;
  incorporationDate : option Z;
  companyType : JsValue;
  jurisdiction : JsValue;
  registeredAddress : JsValue;
  sicCodes : list string;
  employeeCount : float;
  employeeCountSource : string;
  estimatedRevenue : string;
  revenueSource : string;
  estimatedValuation : string;
  valuationSource : string;
}.

(** A stored company: the inserted fields and what [createCompany] adds. *)
Record Company : Type := {
  inserted : InsertCompany;
  companyId : string;
  companyCreatedAt : Z;
  companyUpdatedAt : Z;
  lastProcessed : Z;
  processingStatus : string;
  dataQualityScore : string;
}.

(** An entry of the error log: [{ company, error }]. *)
Record ErrorEntry : Type := { company : string; error : string }.

Record ProcessingJob : Type := {
  id : string;
  jobType : string;
  jobStatus : JobStatus;
  totalItems : Z;
  processedItems : Z;
  failedItems : Z;
  options : option ProcessingOptions;
  results : option (list Company);
  errorLog : option (list ErrorEntry);
  estimatedDuration : option Z;
  actualDuration : option Z;
  createdAt : Z;
  updatedAt : Z;
  completedAt : option Z;
}.

(** The argument of [createProcessingJob], as the bulk route builds it. *)
Record InsertProcessingJob : Type := {
  newJobType : string;
  newTotalItems : Z;
  newOptions : option ProcessingOptions;
}.

(** A [Partial<ProcessingJob>] over the fields the job processor updates;
    [None] is an absent key. *)
Record JobUpdates : Type := {
  setStatus : option JobStatus;
  setProcessedItems : option Z;
  setFailedItems : option Z;
  setResults : option (list Company);
  setErrorLog : option (list ErrorEntry);
  setEstimatedDuration : option Z;
  setActualDuration : option Z;
}.

(** An entry of the cache: when the payload was fetched, and the payload,
    which is a reference to the object [response.json()] built. *)
Record CacheEntry : Type := { timestamp : Z; data : nat }.

(** A completed call of a method of the registry client, with the array the
    search gave ([None] when it threw), or whether the detail lookup
    succeeded. *)
Inductive ServiceCall : Type :=
| Searched (query : string) (found : option JsValue)
| Detailed (number : JsValue) (succeeded : bool).

(** The outcome of a computation: its result, or the exception it threw. *)
Inductive Outcome (A : Type) : Type :=
| Ok (a : A)
| Throw (e : JsError).

Arguments Ok {A} a.
Arguments Throw {A} e.

Record World : Type := {
  (** the environment: the wall clock ([Date.now()], in milliseconds), the
      behaviour of the registry at the round trips to come, and how many
      UUIDs were drawn *)
  clock : Z;
  upstream : list Http.Exchange;
  uuids : nat;
  (** the objects built by [response.json()], by address *)
  heap : list JsValue;
  (** [CompaniesHouseService] *)
  lastRequestTime : Z;
  cache : gmap string CacheEntry;
  (** [MemStorage] *)
  companies : gmap string Company;
  processingJobs : gmap string ProcessingJob;
  (** observers, absent from the source: the requests sent to the registry,
      the completed calls of the client's methods, the outcome of the [try]
      block of each iteration of the bulk loop, and every job record written
      to [processingJobs], each in order *)
  fetched : list Http.Request;
  calls : list ServiceCall;
  attempts : list (string * Outcome Company);
  written : list ProcessingJob;
}.

Definition set_clock (x : Z) (w : World) : World :=
  {| clock := x; upstream := upstream w; uuids := uuids w; heap := heap w;
     lastRequestTime := lastRequestTime w; cache := cache w;
     companies := companies w; processingJobs := processingJobs w;
     fetched := fetched w; calls := calls w; attempts := attempts w;
     written := written w |}.

Definition set_upstream (x : list Http.Exchange) (w : World) : World :=
  {| clock := clock w; upstream := x; uuids := uuids w; heap := heap w;
     lastRequestTime := lastRequestTime w; cache := cache w;
     companies := companies w; processingJobs := processingJobs w;
     fetched := fetched w; calls := calls w; attempts := attempts w;
     written := written w |}.

Definition set_uuids (x : nat) (w : World) : World :=
  {| clock := clock w; upstream := upstream w; uuids := x; heap := heap w;
     lastRequestTime := lastRequestTime w; cache := cache w;
     companies := companies w; processingJobs := processingJobs w;
     fetched := fetched w; calls := calls w; attempts := attempts w;
     written := written w |}.

Definition set_heap (x : list JsValue) (w : World) : World :=
  {| clock := clock w; upstream := upstream w; uuids := uuids w; heap := x;
     lastRequestTime := lastRequestTime w; cache := cache w;
     companies := companies w; processingJobs := processingJobs w;
     fetched := fetched w; calls := calls w; attempts := attempts w;
     written := written w |}.

Definition set_lastRequestTime (x : Z) (w : World) : World :=
  {| clock := clock w; upstream := upstream w; uuids := uuids w;
     heap := heap w; lastRequestTime := x; cache := cache w;
     companies := companies w; processingJobs := processingJobs w;
     fetched := fetched w; calls := calls w; attempts := attempts w;
     written := written w |}.

Definition set_cache (x : gmap string CacheEntry) (w : World) : World :=
  {| clock := clock w; upstream := upstream w; uuids := uuids w;
     heap := heap w; lastRequestTime := lastRequestTime w; cache := x;
     companies := companies w; processingJobs := processingJobs w;
     fetched := fetched w; calls := calls w; attempts := attempts w;
     written := written w |}.

Definition set_companies (x : gmap string Company) (w : World) : World :=
  {| clock := clock w; upstream := upstream w; uuids := uuids w;
     heap := heap w; lastRequestTime := lastRequestTime w; cache := cache w;
     companies := x; processingJobs := processingJobs w;
     fetched := fetched w; calls := calls w; attempts := attempts w;
     written := written w |}.

Definition set_processingJobs (x : gmap string ProcessingJob) (w : World) : World :=
  {| clock := clock w; upstream := upstream w; uuids := uuids w;
     heap := heap w; lastRequestTime := lastRequestTime w; cache := cache w;
     companies := companies w; processingJobs := x; fetched := fetched w;
     calls := calls w; attempts := attempts w; written := written w |}.

Definition set_fetched (x : list Http.Request) (w : World) : World :=
  {| clock := clock w; upstream := upstream w; uuids := uuids w;
     heap := heap w; lastRequestTime := lastRequestTime w; cache := cache w;
     companies := companies w; processingJobs := processingJobs w;
     fetched := x; calls := calls w; attempts := attempts w;
     written := written w |}.

Definition set_calls (x : list ServiceCall) (w : World) : World :=
  {| clock := clock w; upstream := upstream w; uuids := uuids w;
     heap := heap w; lastRequestTime := lastRequestTime w; cache := cache w;
     companies := companies w; processingJobs := processingJobs w;
     fetched := fetched w; calls := x; attempts := attempts w;
     written := written w |}.

Definition set_attempts (x : list (string * Outcome Company)) (w : World) : World :=
  {| clock := clock w; upstream := upstream w; uuids := uuids w;
     heap := heap w; lastRequestTime := lastRequestTime w; cache := cache w;
     companies := companies w; processingJobs := processingJobs w;
     fetched := fetched w; calls := calls w; attempts := x;
     written := written w |}.

Definition set_written (x : list ProcessingJob) (w : World) : World :=
  {| clock := clock w; upstream := upstream w; uuids := uuids w;
     heap := heap w; lastRequestTime := lastRequestTime w; cache := cache w;
     companies := companies w; processingJobs := processingJobs w;
     fetched := fetched w; calls := calls w; attempts := attempts w;
     written := x |}.

(** ** Computations: state and exceptions *)

Definition JS (A : Type) : Type := World -> Outcome A * World.

Definition ret {A} (a : A) : JS A := fun w => (Ok a, w).

Definition throw {A} (e : JsError) : JS A := fun w => (Throw e, w).

Definition bind {A B} (m : JS A) (k : A -> JS B) : JS B :=
  fun w => match m w with
           | (Ok a, w') => k a w'
           | (Throw e, w') => (Throw e, w')
           end.

(** [try { m } catch (e) { handler e }] *)
Definition try_catch {A} (m : JS A) (handler : JsError -> JS A) : JS A :=
  fun w => match m w with
           | (Ok a, w') => (Ok a, w')
           | (Throw e, w') => handler e w'
           end.

Definition reads {A} (f : World -> A) : JS A := fun w => (Ok (f w), w).

Definition modify (f : World -> World) : JS unit := fun w => (Ok tt, f w).

(** A value that may be an exception, as a computation. *)
Definition lift {A} (r : JsError + A) : JS A :=
  match r with inl e => throw e | inr a => ret a end.

Declare Scope js_scope.
Delimit Scope js_scope with js.
Notation "x <- m ;; k" := (bind m (fun x => k))
  (at level 100, m at next level, right associativity) : js_scope.
Notation "m ;; k" := (bind m (fun _ => k))
  (at level 100, right associativity) : js_scope.
Local Open Scope js_scope.

(** [Date.now()] *)
Definition Date_now : JS Z := reads clock.

(** [await new Promise(resolve => setTimeout(resolve, delay))], the timer
    firing on time; [None] is a NaN delay.  A delay below 1 ms or above the
    timer's range is 1 ms. *)
Definition timer_delay (delay : option Z) : Z :=
  match delay with
  | Some d => if (d <? 1) || (2147483647 <? d) then 1 else d
  | None => 1
  end.

Definition sleep (delay : option Z) : JS unit :=
  modify (fun w => set_clock (clock w + timer_delay delay) w).

(** The object at an address.  Every address handed out was allocated. *)
Definition deref (l : nat) : JS JsValue :=
  reads (fun w => default JUndefined (heap w !! l)).

Definition alloc (v : JsValue) : JS nat :=
  fun w => (Ok (List.length (heap w)), set_heap (heap w ++ [v]) w).

(** [data[k] = v] on the object at [l]. *)
Definition set_prop (l : nat) (k : string) (v : JsValue) : JS unit :=
  modify (fun w => match heap w !! l with
                   | Some (JObj fs) => set_heap (<[l := JObj (Js.obj_set k v fs)]> (heap w)) w
                   | _ => w
                   end).

(** [data[k]] of the object at [l]. *)
Definition get_prop (l : nat) (k : string) : JS JsValue :=
  v <- deref l ;; lift (Js.get v k).

(** Runs the [try] block [m] of an iteration and notes its outcome among the
    observers. *)
Definition attempted (companyQuery : string) (m : JS Company) : JS Company :=
  fun w => let '(o, w') := m w in (o, set_attempts (attempts w' ++ [(companyQuery, o)]) w').

(** Runs [m] and notes the completed call among the observers. *)
Definition observed {A} (entry : Outcome A -> ServiceCall) (m : JS A) : JS A :=
  fun w => let '(o, w') := m w in (o, set_calls (calls w' ++ [entry o]) w').

(** ** [CompaniesHouseService] *)

Module CompaniesHouseService.

(** A value of the [params] object of a request. *)
Inductive ParamValue : Type := PStr (s : string) | PNum (n : Z).

Definition Params : Type := list (string * ParamValue).

Definition minRequestInterval : Z := 500.
Definition cacheExpiry : Z := 3600000.

Definition param_string (v : ParamValue) : string :=
  match v with PStr s => s | PNum n => Str.decimal n end.

Definition param_json (v : ParamValue) : string :=
  match v with PStr s => Str.json_quote s | PNum n => Str.decimal n end.

Fixpoint param_get (k : string) (params : Params) : option ParamValue :=
  match params with
  | [] => None
  | (k', v) :: r => if String.eqb k k' then Some v else param_get k r
  end.

(** [JSON.stringify(params, Object.keys(params).sort())]: the listed keys,
    in the order of the list. *)
Definition stringify (params : Params) : string :=
  let member k := match param_get k params with
                  | Some v => Str.json_quote k +:+ ":" +:+ param_json v
                  | None => ""
                  end in
  "{" +:+ Js.join "," (List.map member (Str.sort (List.map fst params))) +:+ "}".

Definition getCacheKey (endpoint : string) (params : option Params) : string :=
  endpoint +:+ "?" +:+ match params with Some p => stringify p | None => "" end.

(** The request for an endpoint: [new URL(endpoint, baseUrl)] with every
    entry of [params] appended to the query. *)
Definition request_for (endpoint : string) (params : option Params) : Http.Request :=
  {| Http.path := endpoint;
     Http.query := List.map (fun kv => (fst kv, param_string (snd kv))) (default [] params) |}.

Definition enforceRateLimit : JS unit :=
  elapsed <- reads (fun w => clock w - lastRequestTime w) ;;
  if elapsed <? minRequestInterval
  then sleep (Some (minRequestInterval - elapsed))
  else ret tt.

Definition isValidCache (cacheKey : string) : JS bool :=
  reads (fun w => match cache w !! cacheKey with
                  | None => false
                  | Some cached => clock w - timestamp cached <? cacheExpiry
                  end).

(** [parseInt(response.headers.get('Retry-After') || '1', 10) * 1000] *)
Definition retryDelay (r : Http.Response) : option Z :=
  let header := match Http.retryAfter r with
                | Some h => if String.eqb h "" then "1" else h
                | None => "1"
                end in
  (fun n => n * 1000) <$> Str.parseInt header.

(** [fetch]: the round trip takes the next exchange of [upstream]; when
    none is left the registry is unreachable and [fetch] rejects. *)
Definition fetch_failed : JsError := TypeError "fetch failed".

Section WithHost.
Context `{Host}.

(** [makeRequest], by recursion on the exchanges to come: [script] is
    [upstream] of the state the call starts in, and the retry after a 429
    goes on with the exchanges that follow the one it consumed.  The
    [catch] of the source logs and rethrows, which is the identity
    here. *)
Fixpoint makeRequest_on (script : list Http.Exchange)
    (endpoint : string) (params : option Params) : JS nat :=
  if String.eqb apiKey "" then throw (Error "Companies House API key not configured")
  else
    let cacheKey := getCacheKey endpoint params in
    hit <- isValidCache cacheKey ;;
    if hit : bool
    then reads (fun w => default 0%nat (data <$> cache w !! cacheKey))
    else
      enforceRateLimit ;;
      match script with
      | [] => throw fetch_failed
      | x :: rest =>
          let req := request_for endpoint params in
          modify (fun w => set_fetched (fetched w ++ [req])
                             (set_upstream rest
                                (set_clock (clock w + Z.of_nat (Http.latency x)) w))) ;;
          response <- lift (Http.respond x req) ;;
          modify (fun w => set_lastRequestTime (clock w) w) ;;
          if Http.status response =? 429
          then sleep (retryDelay response) ;; makeRequest_on rest endpoint params
          else if negb (Http.ok response)
          then
            if Http.status response =? 404
            then throw (Error "Company not found")
            else throw (Error ("Companies House API error: " +:+
                               Str.decimal (Http.status response) +:+ " " +:+
                               Http.statusText response))
          else
            body <- lift (Http.json response) ;;
            l <- alloc body ;;
            modify (fun w => set_cache (<[cacheKey := {| timestamp := clock w; data := l |}]>
                                       (cache w)) w) ;;
            ret l
      end.

Definition makeRequest (endpoint : string) (params : option Params) : JS nat :=
  fun w => makeRequest_on (upstream w) endpoint params w.

Definition requiredFields : list string :=
  ["company_name"; "company_number"; "company_status"].

(** [for (const field of fields) if (!data[field]) throw ...] *)
Fixpoint requireFields (data : nat) (fields : list string) : JS unit :=
  match fields with
  | [] => ret tt
  | field :: rest =>
      x <- get_prop data field ;;
      if Js.truthy x then requireFields data rest
      else throw (Error ("Missing required field: " +:+ field))
  end.

Definition statusInterpretations : list (string * string) :=
  [("active", "Company is actively trading");
   ("dissolved", "Company has been dissolved");
   ("liquidation", "Company is in liquidation");
   ("receivership", "Company is in receivership");
   ("converted-closed", "Company has been converted and closed");
   ("insolvency-proceedings", "Company is undergoing insolvency proceedings")].

(** [statusInterpretations[status] || 'Unknown status']: the status is
    converted to a property key, which may throw; the key finds a message of
    the table, or a member of [Object.prototype], which is truthy, or
    nothing. *)
Definition interpretStatus (status : JsValue) : JsError + JsValue :=
  match Js.ToString status with
  | inl e => inl e
  | inr key =>
      let table := List.map (fun kv => (fst kv, JStr (snd kv))) statusInterpretations in
      inr (Js.or_else (Js.lookup table key) (JStr "Unknown status"))
  end.

Definition msPerYear : float := (365.25 * 24 * 60 * 60 * 1000)%float.

(** [validateAndEnhanceCompanyData]: [data] is the address of the payload
    and the annotations are written into that very object.  The lookup of
    the status may throw, after the retrieval time was written; [new Date]
    of the creation date may throw too, inside the [try] whose [catch]
    stores [null]. *)
Definition validateAndEnhanceCompanyData (data : nat) : JS nat :=
  requireFields data requiredFields ;;
  retrieved <- Date_now ;;
  set_prop data "data_retrieved_at" (JStr (Js.toISOString retrieved)) ;;
  status <- get_prop data "company_status" ;;
  interpretation <- lift (interpretStatus status) ;;
  set_prop data "status_interpretation" interpretation ;;
  created <- get_prop data "date_of_creation" ;;
  (if Js.truthy created
   then
     try_catch
       (creationDate <- lift (Js.Date_new created) ;;
        now <- Date_now ;;
        set_prop data "age_years"
          (JNum ((Num.of_Z now - Num.of_option creationDate) / msPerYear)%float))
       (fun _ => set_prop data "age_years" JNull)
   else ret tt) ;;
  ret data.

Definition searchParams (query : string) : Params :=
  [("q", PStr query); ("items_per_page", PNum 20)].

(** [searchCompany]: [data.items || []]. *)
Definition searchCompany (query : string) : JS JsValue :=
  observed (fun o => Searched query (match o with Ok r => Some r | Throw _ => None end))
    (data <- makeRequest "/search/companies" (Some (searchParams query)) ;;
     items <- get_prop data "items" ;;
     ret (Js.or_else items (JArr []))).

(** [getCompanyDetails] of any value: the template literal of the endpoint
    converts the argument to a string, inside the [try]. *)
Definition getCompanyDetailsOf (companyNumber : JsValue) : JS nat :=
  observed (fun o => Detailed companyNumber (match o with Ok _ => true | Throw _ => false end))
    (number <- lift (Js.ToString companyNumber) ;;
     data <- makeRequest ("/company/" +:+ number) None ;;
     validateAndEnhanceCompanyData data).

(** [getCompanyDetails] of a string, as its signature has it. *)
Definition getCompanyDetails (companyNumber : string) : JS nat :=
  getCompanyDetailsOf (JStr companyNumber).

End WithHost.

End CompaniesHouseService.

(** ** [EnhancementService] *)

Module EnhancementService.

(** [sicCodes.some(code => code.startsWith(prefix))] *)
Definition sector (prefix : string) (sicCodes : list string) : bool :=
  existsb (fun code => Str.startsWith code prefix) sicCodes.

Local Open Scope float_scope.

Section WithHost.
Context `{Host}.

(** [new Date().getFullYear() - incorporationDate.getFullYear()] at the
    clock reading [now]. *)
Definition companyAgeAt (now : Z) (incorporationDate : option Z) : float :=
  Num.of_option (Js.getFullYear (Some now)) -
  Num.of_option (Js.getFullYear incorporationDate).

Definition estimateEmployeeCount (companyData : JsValue) (sicCodes : list string)
  : JS float :=
  (type <- lift (Js.get companyData "type") ;;
   let companyType := Js.or_else type (JStr "") in
   created <- lift (Js.get companyData "date_of_creation") ;;
   incorporationDate <- lift (Js.Date_new created) ;;
   now <- Date_now ;;
   let companyAge := companyAgeAt now incorporationDate in
   let baseEmployees :=
     if sector "43" sicCodes
     then Num.Math_max 1 (Num.Math_min 4 (if 5 <? companyAge then 3 else 2))
     else if sector "41" sicCodes
     then Num.Math_max 2 (Num.Math_min 8 (if 10 <? companyAge then 6 else 3))
     else if sector "42" sicCodes
     then Num.Math_max 5 (Num.Math_min 15 (if 15 <? companyAge then 12 else 7))
     else if sector "81" sicCodes
     then Num.Math_max 1 (Num.Math_min 3 (if 3 <? companyAge then 2 else 1))
     else Num.Math_max 1 (Num.Math_min 5 (if 8 <? companyAge then 4 else 2)) in
   let baseEmployees :=
     if 20 <? companyAge then Num.Math_floor (baseEmployees * 1.5)
     else if 10 <? companyAge then Num.Math_floor (baseEmployees * 1.3)
     else if 5 <? companyAge then Num.Math_floor (baseEmployees * 1.1)
     else baseEmployees in
   ret (Num.Math_max 1 (Num.Math_min baseEmployees 12)))%js.

End WithHost.

Definition estimateRevenue (employeeCount : float) (sicCodes : list string)
    (location : string) : float :=
  let revenuePerEmployee :=
    if sector "43" sicCodes then 48000
    else if sector "41" sicCodes then 62000
    else if sector "42" sicCodes then 75000
    else if sector "81" sicCodes then 35000
    else 55000 in
  let efficiencyFactor :=
    if employeeCount <=? 2 then 0.75
    else if employeeCount <=? 5 then 0.85
    else if employeeCount <=? 10 then 0.95
    else 1.0 in
  let estimatedRevenue := employeeCount * revenuePerEmployee * efficiencyFactor in
  Num.Math_floor estimatedRevenue.

Definition estimateValuation (revenue employeeCount : float) (sicCodes : list string)
    (companyAge : float) : float :=
  let revenueMultiple :=
    if sector "43" sicCodes then 0.6
    else if sector "41" sicCodes then 0.9
    else if sector "42" sicCodes then 1.2
    else if sector "81" sicCodes then 0.5
    else 0.8 in
  let maturityBonus :=
    if 15 <? companyAge then 1.15
    else if 8 <? companyAge then 1.08
    else if 3 <? companyAge then 1.02
    else if companyAge <? 2 then 0.85
    else 1.0 in
  let liquidityDiscount :=
    if employeeCount <=? 2 then 0.75
    else if employeeCount <=? 5 then 0.85
    else 0.9 in
  let estimatedValuation := revenue * revenueMultiple * maturityBonus * liquidityDiscount in
  Num.Math_floor estimatedValuation.

End EnhancementService.

(** ** [MemStorage] *)

Module MemStorage.

Section WithHost.
Context `{Host}.

(** [randomUUID()] *)
Definition newUUID : JS string :=
  fun w => (Ok (randomUUID (uuids w)), set_uuids (S (uuids w)) w).

(** [createCompany]: the date object is truthy even when invalid. *)
Definition createCompany (insertCompany : InsertCompany) : JS Company :=
  id <- newUUID ;;
  now <- Date_now ;;
  let company :=
    {| inserted :=
         {| companyNumber := companyNumber insertCompany;
            companyName := companyName insertCompany;
            status := Js.or_else (status insertCompany) JNull;
            incorporationDate := incorporationDate insertCompany;
            companyType := Js.or_else (companyType insertCompany) JNull;
            jurisdiction := Js.or_else (jurisdiction insertCompany) JNull;
            registeredAddress := Js.or_else (registeredAddress insertCompany) JNull;
            sicCodes := sicCodes insertCompany;
            employeeCount := employeeCount insertCompany;
            employeeCountSource := employeeCountSource insertCompany;
            estimatedRevenue := estimatedRevenue insertCompany;
            revenueSource := revenueSource insertCompany;
            estimatedValuation := estimatedValuation insertCompany;
            valuationSource := valuationSource insertCompany |};
       companyId := id;
       companyCreatedAt := now;
       companyUpdatedAt := now;
       lastProcessed := now;
       processingStatus := "completed";
       dataQualityScore := "0.95" |} in
  modify (fun w => set_companies (<[id := company]> (companies w)) w) ;;
  ret company.

(** [processingJobs.set(id, job)], noted among the observers. *)
Definition storeJob (job : ProcessingJob) : JS unit :=
  modify (fun w => set_written (written w ++ [job])
                     (set_processingJobs (<[id job := job]> (processingJobs w)) w)).

(** [createProcessingJob]: the route passes neither [processedItems] nor
    [failedItems]; [None] stands for the empty options object. *)
Definition createProcessingJob (insertJob : InsertProcessingJob) : JS ProcessingJob :=
  id <- newUUID ;;
  now <- Date_now ;;
  let job :=
    {| id := id;
       jobType := newJobType insertJob;
       jobStatus := pending;
       totalItems := if newTotalItems insertJob =? 0 then 1 else newTotalItems insertJob;
       processedItems := 0;
       failedItems := 0;
       options := newOptions insertJob;
       results := None;
       errorLog := None;
       estimatedDuration := None;
       actualDuration := None;
       createdAt := now;
       updatedAt := now;
       completedAt := None |} in
  storeJob job ;;
  ret job.

Definition getProcessingJob (id : string) : JS (option ProcessingJob) :=
  reads (fun w => processingJobs w !! id).

(** [{ ...job, ...updates, updatedAt: now }] *)
Definition mergeUpdates (job : ProcessingJob) (updates : JobUpdates) (now : Z)
  : ProcessingJob :=
  {| id := id job;
     jobType := jobType job;
     jobStatus := default (jobStatus job) (setStatus updates);
     totalItems := totalItems job;
     processedItems := default (processedItems job) (setProcessedItems updates);
     failedItems := default (failedItems job) (setFailedItems updates);
     options := options job;
     results := match setResults updates with Some r => Some r | None => results job end;
     errorLog := match setErrorLog updates with Some l => Some l | None => errorLog job end;
     estimatedDuration :=
       match setEstimatedDuration updates with
       | Some d => Some d
       | None => estimatedDuration job
       end;
     actualDuration :=
       match setActualDuration updates with
       | Some d => Some d
       | None => actualDuration job
       end;
     createdAt := createdAt job;
     updatedAt := now;
     completedAt := completedAt job |}.

(** [updates.status === "completed" || updates.status === "failed"] *)
Definition namesTerminal (updates : JobUpdates) : bool :=
  match setStatus updates with
  | Some completed | Some failed => true
  | _ => false
  end.

(** [updatedJob.completedAt = now] *)
Definition withCompletedAt (now : Z) (job : ProcessingJob) : ProcessingJob :=
  {| id := id job;
     jobType := jobType job;
     jobStatus := jobStatus job;
     totalItems := totalItems job;
     processedItems := processedItems job;
     failedItems := failedItems job;
     options := options job;
     results := results job;
     errorLog := errorLog job;
     estimatedDuration := estimatedDuration job;
     actualDuration := actualDuration job;
     createdAt := createdAt job;
     updatedAt := updatedAt job;
     completedAt := Some now |}.

(** [updateProcessingJob]: the clock is read for [updatedAt], and again
    for [completedAt] when the update names a terminal status. *)
Definition updateProcessingJob (id : string) (updates : JobUpdates)
  : JS (option ProcessingJob) :=
  found <- reads (fun w => processingJobs w !! id) ;;
  match found with
  | None => ret None
  | Some job =>
      now <- Date_now ;;
      let merged := mergeUpdates job updates now in
      updatedJob <- (if namesTerminal updates
                     then finished <- Date_now ;; ret (withCompletedAt finished merged)
                     else ret merged) ;;
      modify (fun w => set_written (written w ++ [updatedJob])
                         (set_processingJobs (<[id := updatedJob]> (processingJobs w)) w)) ;;
      ret (Some updatedJob)
  end.

End WithHost.

End MemStorage.

(** ** The bulk route and [processBulkCompanies] *)

Module Routes.

Import CompaniesHouseService EnhancementService MemStorage.

(** The local variables of [processBulkCompanies] that the loop updates. *)
Record Tally : Type := {
  processedCount : Z;
  failedCount : Z;
  resultsSoFar : list Company;
  errorsSoFar : list ErrorEntry;
}.

Definition emptyTally : Tally :=
  {| processedCount := 0; failedCount := 0; resultsSoFar := []; errorsSoFar := [] |}.

(** The update that starts the run:
    [{ status: "processing", processedItems: 0, estimatedDuration }]. *)
Definition startUpdates (companies : list string) : JobUpdates :=
  {| setStatus := Some processing;
     setProcessedItems := Some 0;
     setFailedItems := None;
     setResults := None; setErrorLog := None;
     setEstimatedDuration := Some (Z.of_nat (List.length companies) * 2);
     setActualDuration := None |}.

(** The update after each item: [{ processedItems, failedItems }]. *)
Definition progressUpdates (t : Tally) : JobUpdates :=
  {| setStatus := None;
     setProcessedItems := Some (processedCount t);
     setFailedItems := Some (failedCount t);
     setResults := None; setErrorLog := None;
     setEstimatedDuration := None; setActualDuration := None |}.

(** The update that completes the job:
    [{ status, results, errorLog, actualDuration }]. *)
Definition finalUpdates (t : Tally) (actualDuration : Z) : JobUpdates :=
  {| setStatus := Some (if 0 <? processedCount t then completed else failed);
     setProcessedItems := None;
     setFailedItems := None;
     setResults := Some (resultsSoFar t);
     setErrorLog := Some (errorsSoFar t);
     setEstimatedDuration := None;
     setActualDuration := Some actualDuration |}.

(** The tally after the [try] block of an item ended with a saved company,
    and after its [catch] took an exception. *)
Definition tallySaved (savedCompany : Company) (t : Tally) : Tally :=
  {| processedCount := processedCount t + 1;
     failedCount := failedCount t;
     resultsSoFar := resultsSoFar t ++ [savedCompany];
     errorsSoFar := errorsSoFar t |}.

Definition tallyFailed (companyQuery : string) (e : JsError) (t : Tally) : Tally :=
  {| processedCount := processedCount t;
     failedCount := failedCount t + 1;
     resultsSoFar := resultsSoFar t;
     errorsSoFar := errorsSoFar t ++ [{| company := companyQuery; error := message e |}] |}.

(** [/^\d{8}$/] *)
Definition isCompanyNumber (companyQuery : string) : bool := Str.is_digits 8 companyQuery.

Definition variations (companyQuery : string) : list string :=
  [companyQuery +:+ " LIMITED";
   companyQuery +:+ " LTD";
   companyQuery +:+ " SERVICES";
   Str.trim (Str.collapse false companyQuery)].

Definition notFoundMessage (companyQuery : string) : string :=
  "Company " +:+ Str.dquote +:+ companyQuery +:+ Str.dquote +:+
  " not found in Companies House registry. This may be a sole trader, partnership, or inactive business not required to register.".

(** [result.title.toLowerCase()] *)
Definition titleLowerCase (result : JsValue) : JsError + string :=
  match Js.get result "title" with
  | inl e => inl e
  | inr (JStr title) => inr (Str.toLowerCase title)
  | inr JUndefined =>
      inl (TypeError "Cannot read properties of undefined (reading 'toLowerCase')")
  | inr JNull =>
      inl (TypeError "Cannot read properties of null (reading 'toLowerCase')")
  | inr _ => inl (TypeError "result.title.toLowerCase is not a function")
  end.

(** [searchResults.find(result => ...)] over the elements of an array:
    the first element whose name contains the query or is contained in it,
    [undefined] when there is none. *)
Fixpoint findMatch (companyQuery : string) (searchResults : list JsValue)
  : JsError + JsValue :=
  match searchResults with
  | [] => inr JUndefined
  | result :: rest =>
      match titleLowerCase result with
      | inl e => inl e
      | inr resultName =>
          let queryName := Str.toLowerCase companyQuery in
          if Str.includes resultName queryName || Str.includes queryName resultName
          then inr result
          else findMatch companyQuery rest
      end
  end.

(** [searchResults.find(...) || searchResults[0]] *)
Definition bestMatchOf (companyQuery : string) (searchResults : JsValue)
  : JsError + JsValue :=
  match searchResults with
  | JArr l =>
      match findMatch companyQuery l with
      | inl e => inl e
      | inr found => inr (Js.or_else found (nth 0 l JUndefined))
      end
  | _ => inl (TypeError "searchResults.find is not a function")
  end.

(** [sicCodes.filter(code => typeof code === 'string' && code.match(/^\d{5}$/))] *)
Fixpoint validSicCodesOf (sicCodes : list JsValue) : list string :=
  match sicCodes with
  | [] => []
  | JStr code :: rest =>
      if Str.is_digits 5 code then code :: validSicCodesOf rest else validSicCodesOf rest
  | _ :: rest => validSicCodesOf rest
  end.

Section WithHost.
Context `{Host}.

(** [for (const variation of variations) { searchResults = await
    searchCompany(variation); if (searchResults.length > 0) break; }]:
    the value of [searchResults] after the loop. *)
Fixpoint searchVariations (remaining : list string) (searchResults : JsValue)
  : JS JsValue :=
  match remaining with
  | [] => ret searchResults
  | variation :: rest =>
      searchResults <- searchCompany variation ;;
      positive <- lift (Js.length_is_positive searchResults) ;;
      if positive : bool
      then ret searchResults
      else searchVariations rest searchResults
  end.

(** The first part of the [try] block: from the identifier to the
    address of the validated registry record. *)
Definition resolveCompany (companyQuery : string) : JS nat :=
  if isCompanyNumber companyQuery
  then getCompanyDetails companyQuery
  else
    searchResults <- searchCompany companyQuery ;;
    searchResults <-
      (if Js.length_is_zero searchResults
       then searchVariations (variations companyQuery) searchResults
       else ret searchResults) ;;
    positive <- lift (Js.length_is_positive searchResults) ;;
    if positive : bool
    then
      bestMatch <- lift (bestMatchOf companyQuery searchResults) ;;
      number <- lift (Js.get bestMatch "company_number") ;;
      getCompanyDetailsOf number
    else throw (Error (notFoundMessage companyQuery)).

(** The second part of the [try] block: enrichment and persistence. *)
Definition enrichAndSave (companyData : nat) : JS Company :=
  sic <- get_prop companyData "sic_codes" ;;
  let sicCodes := match sic with JArr l => l | _ => [] end in
  created <- get_prop companyData "date_of_creation" ;;
  incorporationDate <- lift (Js.Date_new created) ;;
  now <- Date_now ;;
  let companyAge := companyAgeAt now incorporationDate in
  let validSicCodes := validSicCodesOf sicCodes in
  record <- deref companyData ;;
  employeeCount <- estimateEmployeeCount record validSicCodes ;;
  let estimatedRevenue := estimateRevenue employeeCount validSicCodes "UK" in
  let estimatedValuation :=
    estimateValuation estimatedRevenue employeeCount validSicCodes companyAge in
  number <- get_prop companyData "company_number" ;;
  name <- get_prop companyData "company_name" ;;
  status <- get_prop companyData "company_status" ;;
  type <- get_prop companyData "type" ;;
  jurisdiction <- get_prop companyData "jurisdiction" ;;
  address <- get_prop companyData "registered_office_address" ;;
  createCompany
    {| companyNumber := number;
       companyName := name;
       status := status;
       incorporationDate := incorporationDate;
       companyType := type;
       jurisdiction := jurisdiction;
       registeredAddress := address;
       sicCodes := validSicCodes;
       employeeCount := employeeCount;
       employeeCountSource := "estimated";
       estimatedRevenue := Number_toString estimatedRevenue;
       revenueSource := "estimated";
       estimatedValuation := Number_toString estimatedValuation;
       valuationSource := "estimated" |}.

(** The [try] block of one iteration: the saved company. *)
Definition processItem (companyQuery : string) : JS Company :=
  companyData <- resolveCompany companyQuery ;;
  savedCompany <- enrichAndSave companyData ;;
  sleep (Some 100) ;;
  ret savedCompany.

(** One iteration of the loop: the [try] and its [catch], then the
    progress update. *)
Definition processOne (jobId : string) (companyQuery : string) (t : Tally) : JS Tally :=
  t' <- try_catch
          (savedCompany <- attempted companyQuery (processItem companyQuery) ;;
           ret (tallySaved savedCompany t))
          (fun e => ret (tallyFailed companyQuery e t)) ;;
  updateProcessingJob jobId (progressUpdates t') ;;
  ret t'.

(** [for (const companyQuery of companies) { ... }] *)
Fixpoint processAll (jobId : string) (companies : list string) (t : Tally) : JS Tally :=
  match companies with
  | [] => ret t
  | companyQuery :: rest =>
      t' <- processOne jobId companyQuery t ;;
      processAll jobId rest t'
  end.

(** [processBulkCompanies].  The duration is a whole number of seconds:
    the quotient of two integers below 2^53 by 1000, floored. *)
Definition processBulkCompanies (jobId : string) (companies : list string)
    (options : ProcessingOptions) : JS unit :=
  startTime <- Date_now ;;
  updateProcessingJob jobId (startUpdates companies) ;;
  t <- processAll jobId companies emptyTally ;;
  finished <- Date_now ;;
  let actualDuration := (finished - startTime) / 1000 in
  updateProcessingJob jobId (finalUpdates t actualDuration) ;;
  ret tt.

Definition defaultOptions : ProcessingOptions :=
  {| useCache := true; filingHistory := false; financialData := false;
     employeeEstimation := false; revenueEstimation := false;
     valuationAnalysis := false; industryBenchmark := false;
     riskAssessment := false; parallelProcessing := true;
     errorHandling := true; emailNotification := false; priorityQueue := false |}.

(** The reply of [POST /api/bulk-process]. *)
Inductive BulkReply : Type :=
| InvalidRequest
| Started (jobId : string) (total : Z).

(** [POST /api/bulk-process] on a body whose [companies] is a list of
    strings: [bulkUploadSchema] rejects the empty list.  The route does
    not await the processing; here the run it starts is followed to its
    end. *)
Definition bulkProcess (companies : list string) (options : option ProcessingOptions)
  : JS BulkReply :=
  match companies with
  | [] => ret InvalidRequest
  | _ =>
      job <- createProcessingJob
               {| newJobType := "bulk";
                  newTotalItems := Z.of_nat (List.length companies);
                  newOptions := options |} ;;
      let processingOptions := default defaultOptions options in
      processBulkCompanies (id job) companies processingOptions ;;
      ret (Started (id job) (Z.of_nat (List.length companies)))
  end.

End WithHost.

End Routes.

(** ** [CompaniesHouseService]: the filing history and the cache controls *)

Module Filings.

Import CompaniesHouseService.

Definition categories : list (string * list string) :=
  [("accounts", ["AA"; "AB"; "AC"; "AD"; "AE"; "AF"; "AG"; "AH"; "AZ"]);
   ("annual-return", ["AR01"; "AR02"; "AR03"; "AR04"; "AR05"; "AR06"; "AR07"; "AR08";
                      "AR09"; "AR10"; "AR11"]);
   ("change-of-name", ["NM01"; "NM02"; "NM04"; "NM05"; "NM06"]);
   ("officer-appointment", ["AP01"; "AP02"; "AP03"; "AP04"]);
   ("officer-termination", ["TM01"; "TM02"; "TM03"]);
   ("capital", ["SH01"; "SH02"; "SH03"; "SH04"; "SH05"; "SH06"; "SH07"; "SH08"; "SH09";
                "SH10"]);
   ("mortgage", ["MG01"; "MG02"; "MG03"; "MG04"; "MG05"; "MG06"; "MG07"; "MG08"; "MG09";
                 "MG10"]);
   ("incorporation", ["IN01"]);
   ("dissolution", ["DS01"])].

(** [types.includes(filingType)]: the comparison is by value and type, so
    that only a string is found among the strings. *)
Definition includesType (types : list string) (filingType : JsValue) : bool :=
  match filingType with
  | JStr s => existsb (String.eqb s) types
  | _ => false
  end.

(** [categorizeFilingType], on whatever [filing.type || ''] is. *)
Definition categorizeFilingType (filingType : JsValue) : string :=
  match List.find (fun entry => includesType (snd entry) filingType) categories with
  | Some entry => fst entry
  | None => "other"
  end.

(** The elements of a list under their indices, as property names. *)
Fixpoint indexed {A} (wrap : A -> JsValue) (i : nat) (l : list A) : list (string * JsValue) :=
  match l with
  | [] => []
  | x :: r => (Str.decimal (Z.of_nat i), wrap x) :: indexed wrap (S i) r
  end.

(** [{ ...v }]: the own enumerable properties of [v].  Those of an array
    are its elements, those of a string its characters; a number, a boolean,
    [null] and [undefined] have none. *)
Definition spread (v : JsValue) : list (string * JsValue) :=
  match v with
  | JObj fs => fs
  | JArr l => indexed (fun x => x) 0 l
  | JStr s => indexed (fun c => JStr (Str.single c)) 0 (list_ascii_of_string s)
  | _ => []
  end.

Definition filingParams : Params := [("items_per_page", PNum 50)].

Section WithHost.
Context `{Host}.

(** [filing.date ? Math.floor((Date.now() - new Date(filing.date).getTime())
    / (24 * 60 * 60 * 1000)) : null] at the clock reading [now]; [new
    Date] may throw. *)
Definition daysSince (now : Z) (date : JsValue) : JsError + JsValue :=
  if Js.truthy date
  then
    match Js.Date_new date with
    | inl e => inl e
    | inr filed =>
        inr (JNum (Num.Math_floor ((Num.of_Z now - Num.of_option filed)
                                   / (24 * 60 * 60 * 1000))%float))
    end
  else inr JNull.

(** The callback of [filings.map]: [{ ...filing, category, days_since_filing }]. *)
Definition enhanceFiling (now : Z) (filing : JsValue) : JsError + JsValue :=
  match Js.get filing "type" with
  | inl e => inl e
  | inr type =>
      let category := categorizeFilingType (Js.or_else type (JStr "")) in
      match Js.get filing "date" with
      | inl e => inl e
      | inr date =>
          match daysSince now date with
          | inl e => inl e
          | inr days =>
              inr (JObj (Js.obj_set "days_since_filing" days
                           (Js.obj_set "category" (JStr category) (spread filing))))
          end
      end
  end.

(** [filings.map(...)] over the elements of an array, up to the first
    exception. *)
Fixpoint mapFilings (now : Z) (filings : list JsValue) : JsError + list JsValue :=
  match filings with
  | [] => inr []
  | filing :: rest =>
      match enhanceFiling now filing with
      | inl e => inl e
      | inr enhanced =>
          match mapFilings now rest with
          | inl e => inl e
          | inr others => inr (enhanced :: others)
          end
      end
  end.

(** [getFilingHistory]: the [catch] returns the empty array.  The clock
    does not move during the synchronous [map], so that [Date.now()] is
    read once. *)
Definition getFilingHistory (companyNumber : string) : JS JsValue :=
  try_catch
    (data <- makeRequest ("/company/" +:+ companyNumber +:+ "/filing-history")
               (Some filingParams) ;;
     items <- get_prop data "items" ;;
     match Js.or_else items (JArr []) with
     | JArr filings =>
         now <- Date_now ;;
         enhanced <- lift (mapFilings now filings) ;;
         ret (JArr enhanced)
     | _ => throw (TypeError "filings.map is not a function")
     end)
    (fun _ => ret (JArr [])).

End WithHost.

End Filings.

Module CacheControl.

Import CompaniesHouseService.

(** The result of [getCacheStats]. *)
Record CacheStats : Type := { entries : Z; oldestEntry : option Z }.

Definition clearCache : JS unit := modify (set_cache ∅).

(** The body of the loop of [getCacheStats]:
    [if (oldest === null || timestamp < oldest) oldest = timestamp]. *)
Definition older (oldest : option Z) (entry : CacheEntry) : option Z :=
  match oldest with
  | None => Some (timestamp entry)
  | Some o => if timestamp entry <? o then Some (timestamp entry) else Some o
  end.

(** [getCacheStats]: [entries] is the [size] of the source.  The loop
    goes through the values of the map; it computes their least timestamp,
    whatever the order.  [oldest ? now - oldest : null] is [null] also when
    the least timestamp is 0. *)
Definition getCacheStats : JS CacheStats :=
  now <- Date_now ;;
  values <- reads (fun w => snd <$> map_to_list (cache w)) ;;
  let oldest := fold_left older values None in
  size <- reads (fun w => Z.of_nat (size (cache w))) ;;
  ret {| entries := size;
         oldestEntry := match oldest with
                        | Some o => if o =? 0 then None else Some (now - o)
                        | None => None
                        end |}.

End CacheControl.

(** ** A concrete host and registry, for running the model *)

Module Sample.

(** Days since the epoch of a civil date. *)
Definition daysFromCivil (y m d : Z) : Z :=
  let y' := if m <=? 2 then y - 1 else y in
  let era := y' / 400 in
  let yoe := y' - era * 400 in
  let mp := if 2 <? m then m - 3 else m + 9 in
  let doy := (153 * mp + 2) / 5 + d - 1 in
  let doe := yoe * 365 + yoe / 4 - yoe / 100 + doy in
  era * 146097 + doe - 719468.

(** The date-only ISO form [YYYY-MM-DD], which is UTC midnight; the
    registry writes its dates so.  Anything else is rejected by this
    host. *)
Definition parseIsoDate (s : string) : option Z :=
  let y := String.substring 0 4 s in
  let m := String.substring 5 2 s in
  let d := String.substring 8 2 s in
  if (String.length s =? 10)%nat && Str.all_digits y && Str.all_digits m && Str.all_digits d
     && String.eqb (String.substring 4 1 s) "-" && String.eqb (String.substring 7 1 s) "-"
  then
    match Str.parseInt y, Str.parseInt m, Str.parseInt d with
    | Some y, Some m, Some d =>
        if (1 <=? m) && (m <=? 12) && (1 <=? d) && (d <=? 31)
        then Some (daysFromCivil y m d * Js.msPerDay) else None
    | _, _, _ => None
    end
  else None.

(** The numbers this host prints and reads are the integers. *)
Definition integerToString (f : float) : string :=
  match Num.floor_Z f with
  | Some z => if PrimFloat.eqb (Num.of_Z z) f then Str.decimal z else "NaN"
  | None => "NaN"
  end.

Definition integerOfString (s : string) : float :=
  if Str.all_digits s then Num.of_option (Str.parseInt s) else Num.nan.

(** The text of a built-in function, as V8 prints it. *)
Definition nativeCode (name : string) : string :=
  "function " +:+ (if String.eqb name "constructor" then "Object" else name) +:+
  "() { [native code] }".

Definition host : Host :=
  {| apiKey := "secret";
     Date_parse := parseIsoDate;
     LocalTZA := fun _ => 0;
     Number_toString := integerToString;
     StringToNumber := integerOfString;
     Function_toString := nativeCode;
     randomUUID := fun n => "job-" +:+ Str.decimal (Z.of_nat n) |}.

(** The same host without an API key. *)
Definition keyless : Host :=
  {| apiKey := "";
     Date_parse := parseIsoDate;
     LocalTZA := fun _ => 0;
     Number_toString := integerToString;
     StringToNumber := integerOfString;
     Function_toString := nativeCode;
     randomUUID := fun n => "job-" +:+ Str.decimal (Z.of_nat n) |}.

Definition acme : JsValue :=
  JObj [("company_name", JStr "ACME ROOFING LIMITED");
        ("company_number", JStr "01234567");
        ("company_status", JStr "active");
        ("date_of_creation", JStr "2015-06-01");
        ("type", JStr "ltd");
        ("sic_codes", JArr [JStr "43910"; JStr "abc"])].

Definition response (code : Z) (text : string) (body : JsValue) : Http.Response :=
  {| Http.status := code; Http.statusText := text; Http.retryAfter := None;
     Http.json := inr body |}.

(** A record whose date of creation does not parse, and one whose name is
    the empty string. *)
Definition undated : JsValue :=
  JObj [("company_name", JStr "OLD MILL LTD");
        ("company_number", JStr "07654321");
        ("company_status", JStr "dissolved");
        ("date_of_creation", JStr "unknown")].

Definition nameless : JsValue :=
  JObj [("company_name", JStr "");
        ("company_number", JStr "00000000");
        ("company_status", JStr "active")].

(** A record whose status is an object with a [toString] property of its
    own, which is no function: no property key can be made of it. *)
Definition unkeyed : JsValue :=
  JObj [("company_name", JStr "ODD LTD");
        ("company_number", JStr "09999999");
        ("company_status", JObj [("toString", JNum 0)])].

(** A registry that finds ACME ROOFING LIMITED (01234567) under a query that
    contains ["ACME"], serves the records 01234567, 07654321 and 00000000,
    and answers 404 for any other company number. *)
Definition registry (req : Http.Request) : JsError + Http.Response :=
  if String.eqb (Http.path req) "/search/companies"
  then
    match Http.query req with
    | (_, q) :: _ =>
        if Str.includes q "ACME"
        then inr (response 200 "OK"
                    (JObj [("items", JArr [JObj [("title", JStr "ACME ROOFING LIMITED");
                                                 ("company_number", JStr "01234567")]])]))
        else inr (response 200 "OK" (JObj [("items", JArr [])]))
    | [] => inr (response 200 "OK" (JObj []))
    end
  else if String.eqb (Http.path req) "/company/01234567"
  then inr (response 200 "OK" acme)
  else if String.eqb (Http.path req) "/company/07654321"
  then inr (response 200 "OK" undated)
  else if String.eqb (Http.path req) "/company/00000000"
  then inr (response 200 "OK" nameless)
  else inr (response 404 "Not Found" (JObj [])).

Definition exchange : Http.Exchange := {| Http.latency := 40; Http.respond := registry |}.

(** A round trip in which the registry asks for a pause of two seconds. *)
Definition busy : Http.Exchange :=
  {| Http.latency := 10;
     Http.respond := fun _ =>
       inr {| Http.status := 429; Http.statusText := "Too Many Requests";
              Http.retryAfter := Some "2"; Http.json := inr JNull |} |}.

(** A filing history of two filings, and one with a [null] among them. *)
Definition history : JsValue :=
  JObj [("items",
         JArr [JObj [("type", JStr "AA"); ("date", JStr "2024-01-15");
                     ("description", JStr "accounts-with-accounts-type-micro-entity")];
               JObj [("type", JStr "CS01"); ("barcode", JStr "X1234567")]])].

Definition brokenHistory : JsValue :=
  JObj [("items", JArr [JObj [("type", JStr "AA")]; JNull])].

Definition historyExchange (payload : JsValue) : Http.Exchange :=
  {| Http.latency := 40; Http.respond := fun _ => inr (response 200 "OK" payload) |}.

(** A fresh process at the clock reading [t], with [n] round trips to the
    registry ahead. *)
Definition start (t : Z) (n : nat) : World :=
  {| clock := t; upstream := repeat exchange n; uuids := 0; heap := [];
     lastRequestTime := 0; cache := ∅; companies := ∅; processingJobs := ∅;
     fetched := []; calls := []; attempts := []; written := [] |}.

(** 2024-05-01T00:00:00Z *)
Definition may2024 : Z := 1714521600000.

(** The process after a bulk job was created for two identifiers, with
    eight round trips ahead. *)
Definition withJob : World :=
  snd (@MemStorage.createProcessingJob host
         {| newJobType := "bulk"; newTotalItems := 2; newOptions := None |}
         (start may2024 8)).

End Sample.

(** * The vocabulary of the properties *)

(** ** What a computation leaves alone *)

(** [m] takes every state to one related to it by [R], whether it returns or
    throws. *)
Definition respects (R : relation World) {A} (m : JS A) : Prop :=
  forall w, R w (snd (m w)).

(** The registry client below its two public methods touches neither the
    storage nor the observers of calls, attempts and job writes. *)
Definition client_frame (w w' : World) : Prop :=
  companies w' = companies w /\ processingJobs w' = processingJobs w /\
  uuids w' = uuids w /\ calls w' = calls w /\ attempts w' = attempts w /\
  written w' = written w.

(** The [try] block of an iteration touches neither the jobs nor the
    observers of attempts and job writes. *)
Definition item_frame (w w' : World) : Prop :=
  processingJobs w' = processingJobs w /\ attempts w' = attempts w /\
  written w' = written w.

(** ** The run of a bulk job *)

Module Run.

Import CompaniesHouseService EnhancementService MemStorage Routes.

Definition succeeded (attempt : string * Outcome Company) : bool :=
  match snd attempt with Ok _ => true | Throw _ => false end.

(** The tally after the iteration whose [try] block ended as [attempt]. *)
Definition tallyAfter (t : Tally) (attempt : string * Outcome Company) : Tally :=
  match snd attempt with
  | Ok savedCompany => tallySaved savedCompany t
  | Throw e => tallyFailed (fst attempt) e t
  end.

Definition tallyAll (attempts : list (string * Outcome Company)) (t : Tally) : Tally :=
  fold_left tallyAfter attempts t.

(** The companies saved and the errors logged by a sequence of attempts. *)
Definition savedBy (attempts : list (string * Outcome Company)) : list Company :=
  flat_map (fun a => match snd a with Ok c => [c] | Throw _ => [] end) attempts.

Definition loggedBy (attempts : list (string * Outcome Company)) : list ErrorEntry :=
  flat_map (fun a => match snd a with
                     | Ok _ => []
                     | Throw e => [{| company := fst a; error := message e |}]
                     end) attempts.

(** The record [updateProcessingJob] leaves when both of its readings of
    the clock give [now], which they do when no timer and no round trip
    comes between them. *)
Definition applyUpdates (job : ProcessingJob) (updates : JobUpdates) (now : Z)
  : ProcessingJob :=
  {| id := id job;
     jobType := jobType job;
     jobStatus := default (jobStatus job) (setStatus updates);
     totalItems := totalItems job;
     processedItems := default (processedItems job) (setProcessedItems updates);
     failedItems := default (failedItems job) (setFailedItems updates);
     options := options job;
     results := match setResults updates with Some r => Some r | None => results job end;
     errorLog := match setErrorLog updates with Some l => Some l | None => errorLog job end;
     estimatedDuration :=
       match setEstimatedDuration updates with
       | Some d => Some d
       | None => estimatedDuration job
       end;
     actualDuration :=
       match setActualDuration updates with
       | Some d => Some d
       | None => actualDuration job
       end;
     createdAt := createdAt job;
     updatedAt := now;
     completedAt :=
       match setStatus updates with
       | Some completed | Some failed => Some now
       | _ => completedAt job
       end |}.

(** The job records written by the progress updates that follow the given
    attempts, the update after the i-th attempt being made at the i-th of
    [times]. *)
Fixpoint snapshots (job : ProcessingJob) (t : Tally)
    (attempts : list (string * Outcome Company)) (times : list Z) : list ProcessingJob :=
  match attempts, times with
  | a :: attempts', now :: times' =>
      let t' := tallyAfter t a in
      let job' := applyUpdates job (progressUpdates t') now in
      job' :: snapshots job' t' attempts' times'
  | _, _ => []
  end.

(** The fields of a job record that a progress update leaves as they are. *)
Definition sameJob (job job' : ProcessingJob) : Prop :=
  id job' = id job /\ jobStatus job' = jobStatus job /\
  totalItems job' = totalItems job /\ completedAt job' = completedAt job /\
  results job' = results job /\ errorLog job' = errorLog job.

(** The counters of a job record are within its total, which is [n]. *)
Definition countersWithin (n : Z) (job : ProcessingJob) : Prop :=
  totalItems job = n /\ 0 <= processedItems job /\ 0 <= failedItems job /\
  processedItems job + failedItems job <= totalItems job.

Section WithHost.
Context `{Host}.

(** The fresh job record [createProcessingJob] writes for a bulk request. *)
Definition createdJob (companies : list string) (options : option ProcessingOptions)
    (w : World) : ProcessingJob :=
  {| id := randomUUID (uuids w);
     jobType := "bulk";
     jobStatus := pending;
     totalItems := Z.of_nat (List.length companies);
     processedItems := 0;
     failedItems := 0;
     options := options;
     results := None;
     errorLog := None;
     estimatedDuration := None;
     actualDuration := None;
     createdAt := clock w;
     updatedAt := clock w;
     completedAt := None |}.

End WithHost.

End Run.

(** ** Resolving an identifier *)

Module Resolution.

Import CompaniesHouseService Routes.

(** What a completed search reported: the value it returned, [None] when it
    threw. *)
Definition foundBy (o : Outcome JsValue) : option JsValue :=
  match o with Ok r => Some r | Throw _ => None end.

Definition searchedCalls (searched : list (string * option JsValue)) : list ServiceCall :=
  List.map (fun s => Searched (fst s) (snd s)) searched.

(** One of the ten digits. *)
Definition decimalDigit (c : ascii) : bool :=
  existsb (Ascii.eqb c) (list_ascii_of_string "0123456789").

(** The identifier is eight characters long, each one a digit. *)
Definition eightDigits (identifier : string) : bool :=
  (List.length (list_ascii_of_string identifier) =? 8)%nat &&
  forallb decimalDigit (list_ascii_of_string identifier).

(** White space among the code units below 0x100: TAB, LF, VT, FF, CR,
    SPACE and NO-BREAK SPACE. *)
Definition blank (c : ascii) : bool :=
  existsb (Nat.eqb (nat_of_ascii c)) [9; 10; 11; 12; 13; 32; 160]%nat.

(** The words of a string: its maximal runs of characters that are not
    white space. *)
Fixpoint words (s : string) : list string :=
  match s with
  | EmptyString => []
  | String c r =>
      if blank c then words r
      else
        match r with
        | EmptyString => [String c EmptyString]
        | String c' _ =>
            if blank c' then String c EmptyString :: words r
            else match words r with
                 | w :: ws => String c w :: ws
                 | [] => [String c EmptyString]
                 end
        end
  end.

Fixpoint unwords (ws : list string) : string :=
  match ws with
  | [] => ""
  | [w] => w
  | w :: rest => w +:+ " " +:+ unwords rest
  end.

(** The string with its white space normalized: its words, one space
    between each two. *)
Definition whitespaceNormalized (s : string) : string := unwords (words s).

Section WithHost.
Context `{Host}.

(** The search came back with zero results, so that the next variation is
    tried: the test after the search of the query as it is is
    [length === 0], the test after the search of a variation is the failure
    of [length > 0].  A search that threw, or a length whose comparison
    throws, ends the resolution. *)
Definition zeroResults (first : bool) (found : option JsValue) : bool :=
  match found with
  | Some r =>
      if first then Js.length_is_zero r
      else match Js.length_is_positive r with
           | inr positive => negb positive
           | inl _ => false
           end
  | None => false
  end.

(** The searches made for the candidates [cands], in order: each candidate
    is searched once, and only if every search before it came back with zero
    results. *)
Inductive SearchOrder : bool -> list string -> list (string * option JsValue) -> Prop :=
| search_stops first c cands found :
    zeroResults first found = false ->
    SearchOrder first (c :: cands) [(c, found)]
| search_exhausts first c found :
    zeroResults first found = true ->
    SearchOrder first [c] [(c, found)]
| search_goes_on first c cands found rest :
    zeroResults first found = true ->
    cands <> [] ->
    SearchOrder false cands rest ->
    SearchOrder first (c :: cands) ((c, found) :: rest).

End WithHost.

End Resolution.

(** ** The registry client: validation, annotation and the cache *)

Module Client.

Import CompaniesHouseService.

(** The property [k] of the object at [l] in the state [w]. *)
Definition propertyOf (w : World) (l : nat) (k : string) : JsValue :=
  match heap w !! l with
  | Some (JObj fs) => Js.obj_get k fs
  | _ => JUndefined
  end.

(** The first of the given fields that is absent or falsy in an object. *)
Definition firstMissing (fs : list (string * JsValue)) (fields : list string)
  : option string :=
  List.find (fun field => negb (Js.truthy (Js.obj_get field fs))) fields.

Section WithHost.
Context `{Host}.

(** The annotations [validateAndEnhanceCompanyData] writes into an object,
    at the clock reading [now]. *)
Definition ageYears (now : Z) (creationDate : option Z) : float :=
  ((Num.of_Z now - Num.of_option creationDate) / msPerYear)%float.

(** The age [validateAndEnhanceCompanyData] stores for a creation date that
    is truthy: [null] when [new Date] of it throws. *)
Definition ageOf (now : Z) (created : JsValue) : JsValue :=
  match Js.Date_new created with
  | inr creationDate => JNum (ageYears now creationDate)
  | inl _ => JNull
  end.

(** The object with the retrieval time written. *)
Definition stamp (now : Z) (fs : list (string * JsValue)) : list (string * JsValue) :=
  Js.obj_set "data_retrieved_at" (JStr (Js.toISOString now)) fs.

(** The object with every annotation written, [interpretation] being what
    the lookup of the status gave. *)
Definition annotateWith (now : Z) (interpretation : JsValue) (fs : list (string * JsValue))
  : list (string * JsValue) :=
  let fs1 := stamp now fs in
  let fs2 := Js.obj_set "status_interpretation" interpretation fs1 in
  let created := Js.obj_get "date_of_creation" fs2 in
  if Js.truthy created
  then Js.obj_set "age_years" (ageOf now created) fs2
  else fs2.

(** The object with every annotation written, or the error of the lookup of
    the status, which leaves the object with its retrieval time written. *)
Definition annotate (now : Z) (fs : list (string * JsValue))
  : JsError + list (string * JsValue) :=
  match interpretStatus (Js.obj_get "company_status" (stamp now fs)) with
  | inl e => inl e
  | inr interpretation => inr (annotateWith now interpretation fs)
  end.

End WithHost.

End Client.

(** ** Requests to the registry *)

Module Requests.

Import CompaniesHouseService.

(** The cache holds an entry for [key] that is within the expiry window at
    the clock of [w]. *)
Definition fresh (w : World) (key : string) : bool :=
  match cache w !! key with
  | Some cached => clock w - timestamp cached <? cacheExpiry
  | None => false
  end.

(** The state in which a round trip ends: the rate limit was enforced in
    [w], the request [req] was sent and its answer took the latency of the
    exchange [x]. *)
Definition answered (x : Http.Exchange) (rest : list Http.Exchange) (req : Http.Request)
    (w : World) : World :=
  let w1 := snd (enforceRateLimit w) in
  set_fetched (fetched w1 ++ [req])
    (set_upstream rest (set_clock (clock w1 + Z.of_nat (Http.latency x)) w1)).

(** The error of a response that is neither 2xx nor 429. *)
Definition statusError (r : Http.Response) : JsError :=
  if Http.status r =? 404
  then Error "Company not found"
  else Error ("Companies House API error: " +:+ Str.decimal (Http.status r) +:+ " " +:+
              Http.statusText r).

(** [w'] continues [w] in the sending of the request [req] under the cache
    key [key]: the clock did not go back, the requests sent since are all
    [req], payloads were only added to the heap, and the cache differs at
    most under [key]. *)
Definition continues (req : Http.Request) (key : string) (w w' : World) : Prop :=
  clock w <= clock w' /\
  (exists more, fetched w' = fetched w ++ more /\ Forall (fun r => r = req) more) /\
  (exists added, heap w' = heap w ++ added) /\
  (forall k, k <> key -> cache w' !! k = cache w !! k) /\
  (lastRequestTime w <= clock w ->
   lastRequestTime w <= lastRequestTime w' /\ lastRequestTime w' <= clock w').

End Requests.

(** ** The job processor among the jobs *)

Module Bulk.

Import CompaniesHouseService EnhancementService MemStorage Routes.

Definition keyMissing : JsError := Error "Companies House API key not configured".

(** Every job but [jobId] is what it was. *)
Definition other_jobs (jobId : string) (w w' : World) : Prop :=
  forall j, j <> jobId -> processingJobs w' !! j = processingJobs w !! j.

(** Nothing was asked of the registry, no time went by and no company was
    saved. *)
Definition idle (w w' : World) : Prop :=
  clock w' = clock w /\ fetched w' = fetched w /\ upstream w' = upstream w /\
  companies w' = companies w.

Section WithHost.
Context `{Host}.

(** The attempts noted since [w] are outcomes of the [try] block, each on
    its identifier. *)
Definition tried (w w' : World) : Prop :=
  exists outcomes,
    attempts w' = attempts w ++ outcomes /\
    Forall (fun a => exists w0, fst (processItem (fst a) w0) = snd a) outcomes.

(** What the job processor guarantees of a company it saved: the fields
    the validation requires are there, the classification codes are codes of
    five digits, the head count is a whole number from 1 to 12, and the
    revenue is the estimate for that head count and those codes. *)
Definition wellFormed (c : Company) : Prop :=
  let i := inserted c in
  Js.truthy (companyName i) = true /\
  Js.truthy (companyNumber i) = true /\
  Js.truthy (status i) = true /\
  Forall (fun code => Str.is_digits 5 code = true) (sicCodes i) /\
  (exists n : Z, 1 <= n <= 12 /\ employeeCount i = Num.of_Z n) /\
  estimatedRevenue i
    = Number_toString (estimateRevenue (employeeCount i) (sicCodes i) "UK").

End WithHost.

End Bulk.

(** ** The keys of the cache *)

Module Keys.

Import CompaniesHouseService.

(** The keys under which the three requests of the client are cached. *)
Definition searchKey (query : string) : string :=
  getCacheKey "/search/companies" (Some (searchParams query)).

Definition detailsKey (companyNumber : string) : string :=
  getCacheKey ("/company/" +:+ companyNumber) None.

Definition filingsKey (companyNumber : string) : string :=
  getCacheKey ("/company/" +:+ companyNumber +:+ "/filing-history")
    (Some Filings.filingParams).

Definition hex_value (c : ascii) : Z :=
  let n := Str.code c in if n <? 58 then n - 48 else n - 87.

(** Reads back the character that [Str.json_char] wrote at the head of a
    string, and what follows it. *)
Definition unescape (s : string) : option (ascii * string) :=
  match s with
  | String c r =>
      if Str.code c =? 92
      then
        match r with
        | String e r' =>
            let n := Str.code e in
            if n =? 98 then Some (Str.chr 8, r')
            else if n =? 116 then Some (Str.chr 9, r')
            else if n =? 110 then Some (Str.chr 10, r')
            else if n =? 102 then Some (Str.chr 12, r')
            else if n =? 114 then Some (Str.chr 13, r')
            else if n =? 117 then
              match r' with
              | String _ (String _ (String h (String l r''))) =>
                  Some (Str.chr (16 * hex_value h + hex_value l), r'')
              | _ => None
              end
            else Some (e, r')
        | EmptyString => None
        end
      else Some (c, r)
  | EmptyString => None
  end.

Fixpoint last_char (s : string) : option ascii :=
  match s with
  | EmptyString => None
  | String c r => match last_char r with None => Some c | Some d => Some d end
  end.

End Keys.

(** ** The choice among the results of a search *)

Module Selection.

(** The name of a result matches the query: one contains the other, case
    ignored. *)
Definition nameMatches (companyQuery title : string) : bool :=
  let resultName := Str.toLowerCase title in
  let queryName := Str.toLowerCase companyQuery in
  Str.includes resultName queryName || Str.includes queryName resultName.

(** The result has a title, which does not match the query. *)
Definition passedOver (companyQuery : string) (result : JsValue) : Prop :=
  exists title, Js.get result "title" = inr (JStr title) /\
                nameMatches companyQuery title = false.

End Selection.

(** ** The filing history *)

Module History.

Import Filings.

Definition categoryNames : list string := List.map fst categories ++ ["other"].

Section WithHost.
Context `{Host}.

(** The filing is an object, and a date can be made of the date it
    carries, if it carries one: [new Date] of it does not throw. *)
Definition dated (filing : JsValue) : Prop :=
  exists fs,
    filing = JObj fs /\
    (Js.truthy (Js.obj_get "date" fs) = false \/
     exists filed, Js.Date_new (Js.obj_get "date" fs) = inr filed).

(** [enhanced] is the filing [filing], an object, with its category and
    its age in days at the clock reading [now]; every other property is
    that of the filing. *)
Definition annotated (now : Z) (filing enhanced : JsValue) : Prop :=
  exists fs fs',
    filing = JObj fs /\ enhanced = JObj fs' /\
    (forall k, k <> "category" -> k <> "days_since_filing" ->
               Js.obj_get k fs' = Js.obj_get k fs) /\
    (exists category,
       Js.obj_get "category" fs' = JStr category /\ In category categoryNames /\
       category = categorizeFilingType (Js.or_else (Js.obj_get "type" fs) (JStr ""))) /\
    daysSince now (Js.obj_get "date" fs) = inr (Js.obj_get "days_since_filing" fs').

End WithHost.

End History.

(** ** The times of a job *)

Module Timing.

(** The clock did not go back. *)
Definition later (w w' : World) : Prop := clock w <= clock w'.

(** The clock did not go back, and every job record written since carries
    a time between the two clock readings. *)
Definition stamped (w w' : World) : Prop :=
  clock w <= clock w' /\
  exists more,
    written w' = written w ++ more /\
    Forall (fun job => clock w <= updatedAt job /\ updatedAt job <= clock w') more.

End Timing.

(** * Properties *)

(** ** The model at work *)

Example floor_3_times_1_3 :
  Num.floor_Z (PrimFloat.mul (Num.of_Z 3) 1.3%float) = Some 3.
Proof. vm_compute. reflexivity. Qed.

Example collapse_trim_example :
  Str.trim (Str.collapse false "  Acme   Roofing ") = "Acme Roofing".
Proof. reflexivity. Qed.

Example json_quote_example :
  String.length (Str.json_quote "a b") = 5%nat.
Proof. reflexivity. Qed.

Example parseInt_examples :
  Str.parseInt " 12s" = Some 12 /\ Str.parseInt "-3" = Some (-3) /\ Str.parseInt "x" = None.
Proof. repeat split. Qed.

Example toISOString_example :
  Js.toISOString 1700000000123 = "2023-11-14T22:13:20.123Z".
Proof. reflexivity. Qed.

Example utcYear_example : Js.utcYear 1262304000000 = 2010 /\ Js.utcYear (-1) = 1969.
Proof. split; reflexivity. Qed.

(** An array is converted to a string element by element; an object is
    ["[object Object]"] unless it has a [toString] property of its own, with
    which it cannot be converted, nor can an array that holds it. *)
Example conversions_to_string :
  @Js.ToString Sample.host (JArr [JNum 1; JNull; JArr [JStr "a"; JObj []]])
    = inr "1,,a,[object Object]" /\
  @Js.ToString Sample.host (JObj [("toString", JNum 0)]) = inl Js.notPrimitive /\
  @Js.ToString Sample.host (JArr [JStr "a"; JObj [("toString", JNull)]])
    = inl Js.notPrimitive /\
  @Js.Date_new Sample.host (JArr [JStr "2015-06-01"]) = inr (Some 1433116800000) /\
  @Js.Date_new Sample.host (JObj [("toString", JNum 0)]) = inl Js.notPrimitive /\
  @Js.length_is_positive Sample.host (JObj [("length", JArr [JNum 2])]) = inr true /\
  @Js.length_is_positive Sample.host (JObj [("length", JObj [("toString", JNum 0)])])
    = inl Js.notPrimitive.
Proof. repeat split. Qed.

(** The lookup of a status finds the messages of the table, under the
    string the status converts to, and the members of [Object.prototype]. *)
Example interpretations :
  @CompaniesHouseService.interpretStatus Sample.host (JStr "active")
    = inr (JStr "Company is actively trading") /\
  @CompaniesHouseService.interpretStatus Sample.host (JArr [JStr "dissolved"])
    = inr (JStr "Company has been dissolved") /\
  @CompaniesHouseService.interpretStatus Sample.host (JStr "closed")
    = inr (JStr "Unknown status") /\
  @CompaniesHouseService.interpretStatus Sample.host (JStr "constructor")
    = inr (JNative "constructor") /\
  @CompaniesHouseService.interpretStatus Sample.host (JObj [("valueOf", JNum 0)])
    = inr (JStr "Unknown status") /\
  @CompaniesHouseService.interpretStatus Sample.host (JObj [("toString", JNum 0)])
    = inl Js.notPrimitive.
Proof. repeat split. Qed.

Example whitespaceNormalized_example :
  Resolution.whitespaceNormalized (String (Str.chr 9) "  Acme   Roofing ") = "Acme Roofing" /\
  Resolution.eightDigits "01234567" = true /\
  Resolution.eightDigits "0123456" = false /\
  Resolution.eightDigits "0123456A" = false.
Proof. repeat split. Qed.

(** Only the codes of five digits survive the validation. *)
Example classification_filtering :
  Routes.validSicCodesOf [JStr "12345"; JStr "abc"; JStr "1"; JStr "99999X"] = ["12345"].
Proof. reflexivity. Qed.

Example cache_key_of_a_search :
  CompaniesHouseService.getCacheKey "/search/companies"
    (Some (CompaniesHouseService.searchParams "Acme"))
  = "/search/companies?{" +:+ Str.dquote +:+ "items_per_page" +:+ Str.dquote +:+ ":20,"
    +:+ Str.dquote +:+ "q" +:+ Str.dquote +:+ ":" +:+ Str.dquote +:+ "Acme" +:+ Str.dquote
    +:+ "}".
Proof. reflexivity. Qed.

(** An identifier of eight digits goes to the detail lookup at once; a name
    without results is searched under its variations, the last of which is
    answered from the cache here. *)
Example resolution_of_a_number :
  calls (snd (@Routes.resolveCompany Sample.host "12345678" (Sample.start Sample.may2024 4)))
  = [Detailed (JStr "12345678") false].
Proof. vm_compute. reflexivity. Qed.

Example resolution_of_an_unknown_name :
  List.map (fun c => match c with Searched q _ => q | Detailed _ _ => "details" end)
    (calls (snd (@Routes.resolveCompany Sample.host "Zeta" (Sample.start Sample.may2024 8))))
  = ["Zeta"; "Zeta LIMITED"; "Zeta LTD"; "Zeta SERVICES"; "Zeta"] /\
  List.length
    (fetched (snd (@Routes.resolveCompany Sample.host "Zeta" (Sample.start Sample.may2024 8))))
  = 4%nat.
Proof. split; vm_compute; reflexivity. Qed.

(** A search that comes back with a length that cannot be compared with
    zero ends the resolution: the variations that follow are not searched. *)
Example resolution_stops_at_an_incomparable_length :
  let w := set_upstream
             [Sample.historyExchange (JObj [("items", JObj [("length", JNum 0)])]);
              Sample.historyExchange
                (JObj [("items", JObj [("length", JObj [("toString", JNum 0)])])]);
              Sample.exchange; Sample.exchange; Sample.exchange]
             (Sample.start Sample.may2024 0) in
  fst (@Routes.resolveCompany Sample.host "Zeta" w) = Throw Js.notPrimitive /\
  List.map (fun c => match c with Searched q _ => q | Detailed _ _ => "details" end)
    (calls (snd (@Routes.resolveCompany Sample.host "Zeta" w)))
  = ["Zeta"; "Zeta LIMITED"].
Proof. split; vm_compute; reflexivity. Qed.

(** A bulk job over three identifiers, the second of which the registry
    does not know: two processed, one failed, one error for the second
    identifier, and the job is [completed]. *)
Example bulk_job_with_one_failure :
  let w := snd (@Routes.bulkProcess Sample.host ["01234567"; "99999999"; "ACME"] None
                  (Sample.start Sample.may2024 8)) in
  (fun job => (jobStatus job, processedItems job, failedItems job, errorLog job))
    <$> processingJobs w !! "job-0"
  = Some (completed, 2, 1,
          Some [{| company := "99999999"; error := "Company not found" |}]).
Proof. vm_compute. reflexivity. Qed.

(** Without an API key every item fails, and the job is [failed]. *)
Example bulk_job_without_api_key :
  let w := snd (@Routes.bulkProcess Sample.keyless ["01234567"; "ACME"] None
                  (Sample.start Sample.may2024 8)) in
  (fun job => (jobStatus job, processedItems job, failedItems job, errorLog job))
    <$> processingJobs w !! "job-0"
  = Some (failed, 0, 2,
          Some [{| company := "01234567";
                   error := "Companies House API key not configured" |};
                {| company := "ACME";
                   error := "Companies House API key not configured" |}]).
Proof. vm_compute. reflexivity. Qed.

(** A 429 answer with [Retry-After: 2] is followed by a pause of two seconds
    and a second request, and the caller sees no error. *)
Example retry_after_429 :
  let busy := {| Http.latency := 40;
                 Http.respond := fun _ =>
                   inr {| Http.status := 429; Http.statusText := "Too Many Requests";
                          Http.retryAfter := Some "2"; Http.json := inr JNull |} |} in
  let w := set_upstream [busy; Sample.exchange] (Sample.start Sample.may2024 0) in
  let '(o, w') := @CompaniesHouseService.makeRequest Sample.host "/company/01234567" None w in
  o = Ok 0%nat /\ List.length (fetched w') = 2%nat /\ clock w' = Sample.may2024 + 2080.
Proof. vm_compute. repeat split. Qed.

(** ** What a computation leaves alone *)

Section Respects.
Context (R : relation World) `{!PreOrder R}.

Lemma respects_ret {A} (a : A) : respects R (ret a).
Proof. intros w. reflexivity. Qed.

Lemma respects_throw {A} (e : JsError) : respects R (throw (A := A) e).
Proof. intros w. reflexivity. Qed.

Lemma respects_reads {A} (f : World -> A) : respects R (reads f).
Proof. intros w. reflexivity. Qed.

Lemma respects_lift {A} (r : JsError + A) : respects R (lift r).
Proof. destruct r; intros w; reflexivity. Qed.

Lemma respects_modify (g : World -> World) :
  (forall w, R w (g w)) -> respects R (modify g).
Proof. intros Hg w. apply Hg. Qed.

Lemma respects_bind {A B} (m : JS A) (k : A -> JS B) :
  respects R m -> (forall a, respects R (k a)) -> respects R (bind m k).
Proof.
  intros Hm Hk w. unfold bind. specialize (Hm w).
  destruct (m w) as [[a | e] w1]; simpl in *.
  - etransitivity; [exact Hm | apply Hk].
  - exact Hm.
Qed.

Lemma respects_try_catch {A} (m : JS A) (h : JsError -> JS A) :
  respects R m -> (forall e, respects R (h e)) -> respects R (try_catch m h).
Proof.
  intros Hm Hh w. unfold try_catch. specialize (Hm w).
  destruct (m w) as [[a | e] w1]; simpl in *.
  - exact Hm.
  - etransitivity; [exact Hm | apply Hh].
Qed.

End Respects.

#[local] Instance client_frame_preorder : PreOrder client_frame.
Proof.
  split.
  - intros w. repeat split.
  - intros a b c (?&?&?&?&?&?) (?&?&?&?&?&?). repeat split; congruence.
Qed.

#[local] Instance item_frame_preorder : PreOrder item_frame.
Proof.
  split.
  - intros w. repeat split.
  - intros a b c (?&?&?) (?&?&?). repeat split; congruence.
Qed.

Lemma client_frame_item w w' : client_frame w w' -> item_frame w w'.
Proof. intros (?&?&?&?&?&?). repeat split; assumption. Qed.

Lemma respects_client_item {A} (m : JS A) :
  respects client_frame m -> respects item_frame m.
Proof. intros Hm w. apply client_frame_item, Hm. Qed.

(** One step of a frame proof: follow the structure of the computation. *)
Ltac frame_step :=
  lazymatch goal with
  | |- respects _ (bind _ _) => apply respects_bind; [typeclasses eauto | | intros ?]
  | |- respects _ (try_catch _ _) => apply respects_try_catch; [typeclasses eauto | | intros ?]
  | |- respects _ (ret _) => apply respects_ret; typeclasses eauto
  | |- respects _ (throw _) => apply respects_throw; typeclasses eauto
  | |- respects _ (lift _) => apply respects_lift; typeclasses eauto
  | |- respects _ (reads _) => apply respects_reads; typeclasses eauto
  | |- respects _ Date_now => apply respects_reads; typeclasses eauto
  | |- respects _ (modify _) =>
      apply respects_modify; intros ?; repeat case_match; repeat split; reflexivity
  | |- respects _ (if ?b then _ else _) => destruct b
  | |- respects _ (match ?x with _ => _ end) => destruct x
  end.

Ltac frame := repeat frame_step; eauto with frame.

Create HintDb frame.

Section Frames.
Context `{Host}.
Import CompaniesHouseService EnhancementService MemStorage Routes.

Lemma sleep_client d : respects client_frame (sleep d).
Proof. unfold sleep. frame. Qed.

Lemma deref_client l : respects client_frame (deref l).
Proof. unfold deref. frame. Qed.

Lemma alloc_client v : respects client_frame (alloc v).
Proof. intros w. repeat split. Qed.

Lemma set_prop_client l k v : respects client_frame (set_prop l k v).
Proof. unfold set_prop. frame. Qed.

Hint Resolve sleep_client deref_client alloc_client set_prop_client : frame.

Lemma get_prop_client l k : respects client_frame (get_prop l k).
Proof. unfold get_prop. frame. Qed.

Lemma enforceRateLimit_client : respects client_frame enforceRateLimit.
Proof. unfold enforceRateLimit. frame. Qed.

Lemma isValidCache_client key : respects client_frame (isValidCache key).
Proof. unfold isValidCache. frame. Qed.

Hint Resolve get_prop_client enforceRateLimit_client isValidCache_client : frame.

Lemma makeRequest_on_client script endpoint params :
  respects client_frame (makeRequest_on script endpoint params).
Proof.
  induction script as [| x rest IH]; cbn [makeRequest_on]; frame.
Qed.

Lemma makeRequest_client endpoint params :
  respects client_frame (makeRequest endpoint params).
Proof. intros w. apply makeRequest_on_client. Qed.

Lemma requireFields_client data fields :
  respects client_frame (requireFields data fields).
Proof. induction fields as [| f rest IH]; cbn [requireFields]; frame. Qed.

Hint Resolve makeRequest_client requireFields_client : frame.

Lemma validateAndEnhanceCompanyData_client data :
  respects client_frame (validateAndEnhanceCompanyData data).
Proof. unfold validateAndEnhanceCompanyData. frame. Qed.

Hint Resolve validateAndEnhanceCompanyData_client : frame.

Lemma observed_item {A} entry (m : JS A) :
  respects item_frame m -> respects item_frame (observed entry m).
Proof.
  intros Hm w. unfold observed. specialize (Hm w).
  destruct (m w) as [o w1]; simpl in *.
  destruct Hm as (?&?&?). repeat split; assumption.
Qed.

Lemma searchCompany_item query : respects item_frame (searchCompany query).
Proof.
  unfold searchCompany. apply observed_item, respects_client_item. frame.
Qed.

Lemma getCompanyDetailsOf_item number : respects item_frame (getCompanyDetailsOf number).
Proof.
  unfold getCompanyDetailsOf. apply observed_item, respects_client_item. frame.
Qed.

Lemma getCompanyDetails_item number : respects item_frame (getCompanyDetails number).
Proof. apply getCompanyDetailsOf_item. Qed.

Hint Resolve searchCompany_item getCompanyDetailsOf_item getCompanyDetails_item : frame.

Lemma searchVariations_item remaining searchResults :
  respects item_frame (searchVariations remaining searchResults).
Proof.
  revert searchResults.
  induction remaining as [| v rest IH]; intros; cbn [searchVariations]; frame.
Qed.

Hint Resolve searchVariations_item : frame.

Lemma resolveCompany_item companyQuery : respects item_frame (resolveCompany companyQuery).
Proof. unfold resolveCompany. frame. Qed.

Lemma estimateEmployeeCount_unchanged companyData sicCodes w :
  snd (estimateEmployeeCount companyData sicCodes w) = w.
Proof.
  unfold estimateEmployeeCount, bind, lift, Date_now, reads, ret, throw.
  destruct (Js.get companyData "type"); [reflexivity |].
  destruct (Js.get companyData "date_of_creation") as [| created]; [reflexivity |].
  destruct (Js.Date_new created); reflexivity.
Qed.

Lemma estimateEmployeeCount_item companyData sicCodes :
  respects item_frame (estimateEmployeeCount companyData sicCodes).
Proof. intros w. rewrite estimateEmployeeCount_unchanged. reflexivity. Qed.

Lemma createCompany_item insertCompany : respects item_frame (createCompany insertCompany).
Proof. unfold createCompany, newUUID. frame. intros w. repeat split. Qed.

Hint Resolve estimateEmployeeCount_item createCompany_item : frame.

Lemma enrichAndSave_item companyData : respects item_frame (enrichAndSave companyData).
Proof.
  unfold enrichAndSave.
  repeat first [ frame_step | apply respects_client_item; solve [eauto with frame] ];
    eauto with frame.
Qed.

Lemma processItem_item companyQuery : respects item_frame (processItem companyQuery).
Proof.
  unfold processItem.
  repeat first [ frame_step | apply respects_client_item; solve [eauto with frame] ];
    eauto using resolveCompany_item, enrichAndSave_item with frame.
Qed.

End Frames.

#[global] Hint Resolve sleep_client deref_client alloc_client set_prop_client
  get_prop_client enforceRateLimit_client isValidCache_client makeRequest_client
  requireFields_client validateAndEnhanceCompanyData_client : frame.

(** ** The run of a bulk job *)

Section RunFacts.
Context `{Host}.
Import CompaniesHouseService EnhancementService MemStorage Routes Run.

Lemma last_cons {A} (x d : A) (l : list A) : List.last (x :: l) d = List.last l x.
Proof.
  revert x d. induction l as [| y l IH]; intros x d; [reflexivity |].
  change (List.last (x :: y :: l) d) with (List.last (y :: l) d).
  rewrite (IH y d), (IH y x). reflexivity.
Qed.

Lemma tallyAll_counts attempts t :
  processedCount (tallyAll attempts t) =
    processedCount t + Z.of_nat (List.length (savedBy attempts)) /\
  failedCount (tallyAll attempts t) =
    failedCount t + Z.of_nat (List.length (loggedBy attempts)) /\
  resultsSoFar (tallyAll attempts t) = resultsSoFar t ++ savedBy attempts /\
  errorsSoFar (tallyAll attempts t) = errorsSoFar t ++ loggedBy attempts.
Proof.
  revert t. induction attempts as [| [q o] rest IH]; intros t.
  - cbn. rewrite !app_nil_r. repeat split; lia.
  - cbn [tallyAll fold_left]. fold (tallyAll rest (tallyAfter t (q, o))).
    destruct (IH (tallyAfter t (q, o))) as (Hp & Hf & Hr & He).
    rewrite Hp, Hf, Hr, He. unfold tallyAfter, savedBy, loggedBy.
    destruct o as [c | e]; cbn; rewrite <- ?app_assoc; repeat split; (lia || reflexivity).
Qed.

Lemma saved_logged_length attempts :
  (List.length (savedBy attempts) + List.length (loggedBy attempts))%nat
  = List.length attempts.
Proof.
  unfold savedBy, loggedBy.
  induction attempts as [| [q [c | e]] rest IH]; cbn in *; lia.
Qed.

Lemma saved_succeeded attempts :
  (0 <? Z.of_nat (List.length (savedBy attempts))) = existsb succeeded attempts.
Proof.
  unfold savedBy.
  induction attempts as [| [q [c | e]] rest IH]; cbn in *; [reflexivity | | exact IH].
  apply Z.ltb_lt. lia.
Qed.

Lemma snapshots_length job t attempts times :
  List.length times = List.length attempts ->
  List.length (snapshots job t attempts times) = List.length attempts.
Proof.
  revert job t times. induction attempts as [| a rest IH]; intros job t [| now times] Hl;
    cbn in *; try lia.
  rewrite IH; lia.
Qed.

Lemma sameJob_progress job t now : sameJob job (applyUpdates job (progressUpdates t) now).
Proof. repeat split. Qed.

Lemma sameJob_trans a b c : sameJob a b -> sameJob b c -> sameJob a c.
Proof. intros (?&?&?&?&?&?) (?&?&?&?&?&?). repeat split; congruence. Qed.

(** Every snapshot is the job with its counters advanced: the k-th one
    counts the first k+1 attempts. *)
Lemma snapshots_nth job t attempts times k s :
  snapshots job t attempts times !! k = Some s ->
  sameJob job s /\
  processedItems s = processedCount (tallyAll (take (S k) attempts) t) /\
  failedItems s = failedCount (tallyAll (take (S k) attempts) t).
Proof.
  revert job t times k. induction attempts as [| a rest IH]; intros job t [| now times] k Hs;
    cbn in Hs; try discriminate.
  destruct k as [| k]; cbn in Hs.
  - injection Hs as <-. split; [apply sameJob_progress |]. split; reflexivity.
  - apply IH in Hs. destruct Hs as (Hsame & Hp & Hf).
    split; [eapply sameJob_trans; [apply sameJob_progress | exact Hsame] |].
    split; assumption.
Qed.

Lemma snapshots_last job t attempts times :
  List.length times = List.length attempts ->
  let final := List.last (snapshots job t attempts times) job in
  sameJob job final /\
  (attempts <> [] ->
   processedItems final = processedCount (tallyAll attempts t) /\
   failedItems final = failedCount (tallyAll attempts t)).
Proof.
  revert job t times. induction attempts as [| a rest IH]; intros job t [| now times] Hl;
    cbn in Hl; try lia.
  - cbn. split; [repeat split | congruence].
  - cbn [snapshots]. cbn zeta.
    set (t' := tallyAfter t a). set (job' := applyUpdates job (progressUpdates t') now).
    assert (Hl' : List.length times = List.length rest) by lia.
    specialize (IH job' t' times Hl'). cbn zeta in IH. destruct IH as (Hsame & Hcount).
    destruct rest as [| b rest'].
    + destruct times; cbn in Hl'; try lia. cbn.
      split; [apply sameJob_progress | intros _; split; reflexivity].
    + assert (Hlast : List.last (job' :: snapshots job' t' (b :: rest') times) job
                      = List.last (snapshots job' t' (b :: rest') times) job')
        by apply last_cons.
      rewrite Hlast. split.
      * eapply sameJob_trans; [apply sameJob_progress | exact Hsame].
      * intros _. apply Hcount. discriminate.
Qed.

Lemma updateProcessingJob_found jobId updates w job :
  processingJobs w !! jobId = Some job ->
  let job' := applyUpdates job updates (clock w) in
  updateProcessingJob jobId updates w =
    (Ok (Some job'),
     set_written (written w ++ [job'])
       (set_processingJobs (<[jobId := job']> (processingJobs w)) w)).
Proof.
  intros Hjob. unfold updateProcessingJob, bind, reads, Date_now, modify, ret.
  rewrite Hjob. unfold namesTerminal, applyUpdates, mergeUpdates, withCompletedAt.
  destruct (setStatus updates) as [[| | |] |]; reflexivity.
Qed.

(** One iteration never throws: whatever the [try] block did, the tally
    moves on by one item and one progress record is written. *)
Lemma processOne_spec jobId q t w job :
  processingJobs w !! jobId = Some job ->
  exists o w',
    let t' := tallyAfter t (q, o) in
    let job' := applyUpdates job (progressUpdates t') (clock w') in
    processOne jobId q t w = (Ok t', w') /\
    fst (processItem q w) = o /\
    attempts w' = attempts w ++ [(q, o)] /\
    processingJobs w' = <[jobId := job']> (processingJobs w) /\
    written w' = written w ++ [job'].
Proof.
  intros Hjob.
  pose proof (processItem_item q w) as Hframe.
  unfold processOne, bind, try_catch, attempted.
  destruct (processItem q w) as [o w1] eqn:Hitem. cbn [snd fst] in *.
  destruct Hframe as (Hjobs & Hatt & Hwr).
  set (w1a := set_attempts (attempts w1 ++ [(q, o)]) w1).
  assert (Hjob1 : processingJobs w1a !! jobId = Some job)
    by (cbn; rewrite Hjobs; exact Hjob).
  exists o.
  destruct o as [c | e]; cbn [ret];
    rewrite (updateProcessingJob_found _ _ _ _ Hjob1); cbn zeta;
    eexists; (split; [reflexivity |]); cbn; rewrite ?Hjobs, ?Hatt, ?Hwr;
    repeat split; reflexivity.
Qed.

Lemma processAll_spec jobId companies t w job :
  processingJobs w !! jobId = Some job ->
  exists outcomes times w',
    let snaps := snapshots job t outcomes times in
    processAll jobId companies t w = (Ok (tallyAll outcomes t), w') /\
    List.map fst outcomes = companies /\
    List.length times = List.length companies /\
    attempts w' = attempts w ++ outcomes /\
    written w' = written w ++ snaps /\
    processingJobs w' !! jobId = Some (List.last snaps job).
Proof.
  revert t w job. induction companies as [| q rest IH]; intros t w job Hjob.
  - exists [], [], w. cbn. rewrite !app_nil_r. repeat split; assumption.
  - destruct (processOne_spec jobId q t w job Hjob)
      as (o & w1 & Hone & _ & Hatt1 & Hjobs1 & Hwr1). cbn zeta in *.
    set (t1 := tallyAfter t (q, o)) in *.
    set (job1 := applyUpdates job (progressUpdates t1) (clock w1)) in *.
    assert (Hjob1 : processingJobs w1 !! jobId = Some job1)
      by (rewrite Hjobs1; apply lookup_insert_eq).
    destruct (IH t1 w1 job1 Hjob1) as (outcomes & times & w' & Hall & Hmap & Hlen & Hatt & Hwr & Hlast).
    cbn zeta in *.
    exists ((q, o) :: outcomes), (clock w1 :: times), w'.
    cbn [processAll]. unfold bind at 1. rewrite Hone. cbn [snapshots]. cbn zeta.
    fold t1. fold job1. repeat split.
    + exact Hall.
    + cbn. rewrite Hmap. reflexivity.
    + cbn. rewrite Hlen. reflexivity.
    + rewrite Hatt, Hatt1, <- app_assoc. reflexivity.
    + rewrite Hwr, Hwr1, <- app_assoc. reflexivity.
    + rewrite Hlast, last_cons. reflexivity.
Qed.

(** The whole run of the job processor on a job that is in the store. *)
Lemma processBulkCompanies_spec jobId companies options w job :
  processingJobs w !! jobId = Some job ->
  exists outcomes times finished w',
    let started := applyUpdates job (startUpdates companies) (clock w) in
    let snaps := snapshots started emptyTally outcomes times in
    let t := tallyAll outcomes emptyTally in
    let final := applyUpdates (List.last snaps started)
                   (finalUpdates t ((finished - clock w) / 1000)) finished in
    processBulkCompanies jobId companies options w = (Ok tt, w') /\
    List.map fst outcomes = companies /\
    List.length times = List.length companies /\
    attempts w' = attempts w ++ outcomes /\
    written w' = written w ++ started :: snaps ++ [final] /\
    processingJobs w' !! jobId = Some final.
Proof.
  intros Hjob. unfold processBulkCompanies.
  unfold bind at 1. unfold Date_now at 1, reads at 1.
  unfold bind at 1. rewrite (updateProcessingJob_found _ _ _ _ Hjob). cbn zeta.
  set (started := applyUpdates job (startUpdates companies) (clock w)).
  set (w0 := set_written _ _).
  assert (Hjob0 : processingJobs w0 !! jobId = Some started) by apply lookup_insert_eq.
  destruct (processAll_spec jobId companies emptyTally w0 started Hjob0)
    as (outcomes & times & w1 & Hall & Hmap & Hlen & Hatt & Hwr & Hlast).
  cbn zeta in *.
  exists outcomes, times, (clock w1).
  unfold bind at 1. rewrite Hall.
  unfold bind at 1. unfold Date_now at 1, reads at 1.
  unfold bind at 1. rewrite (updateProcessingJob_found _ _ _ _ Hlast). cbn zeta.
  eexists. split; [reflexivity |]. cbn.
  rewrite Hatt, Hwr. subst w0. cbn. rewrite <- !app_assoc. cbn.
  repeat split; try assumption. apply lookup_insert_eq.
Qed.

(** The route on a non-empty list: the job is created, then run to its end. *)
Lemma bulkProcess_spec companies options w :
  companies <> [] ->
  exists outcomes times finished w',
    let created := createdJob companies options w in
    let started := applyUpdates created (startUpdates companies) (clock w) in
    let snaps := snapshots started emptyTally outcomes times in
    let t := tallyAll outcomes emptyTally in
    let final := applyUpdates (List.last snaps started)
                   (finalUpdates t ((finished - clock w) / 1000)) finished in
    bulkProcess companies options w =
      (Ok (Started (id created) (Z.of_nat (List.length companies))), w') /\
    List.map fst outcomes = companies /\
    List.length times = List.length companies /\
    attempts w' = attempts w ++ outcomes /\
    written w' = written w ++ created :: started :: snaps ++ [final] /\
    processingJobs w' !! id created = Some final.
Proof.
  intros Hne. destruct companies as [| q rest]; [congruence |].
  set (created := createdJob (q :: rest) options w).
  set (w1 := set_written (written w ++ [created])
               (set_processingJobs (<[id created := created]> (processingJobs w))
                  (set_uuids (S (uuids w)) w))).
  assert (Hcreate : createProcessingJob
                      {| newJobType := "bulk";
                         newTotalItems := Z.of_nat (List.length (q :: rest));
                         newOptions := options |} w = (Ok created, w1))
    by reflexivity.
  assert (Hjob : processingJobs w1 !! id created = Some created)
    by apply lookup_insert_eq.
  destruct (processBulkCompanies_spec (id created) (q :: rest)
              (default defaultOptions options) w1 created Hjob)
    as (outcomes & times & finished & w' & Hrun & Hmap & Hlen & Hatt & Hwr & Hfinal).
  cbn zeta in *.
  exists outcomes, times, finished, w'.
  unfold bulkProcess. unfold bind at 1. rewrite Hcreate.
  unfold bind at 1. rewrite Hrun. cbn [ret].
  split; [reflexivity |].
  split; [exact Hmap |]. split; [exact Hlen |].
  split; [rewrite Hatt; reflexivity |].
  split; [| exact Hfinal].
  rewrite Hwr. subst w1. cbn [written set_written]. rewrite <- app_assoc. reflexivity.
Qed.

End RunFacts.

(** ** The job processor: claims on the run of a bulk job *)

Section JobClaims.
Context `{Host}.
Import CompaniesHouseService EnhancementService MemStorage Routes Run.

Lemma snapshots_sameJob job t outcomes times :
  Forall (sameJob job) (snapshots job t outcomes times).
Proof.
  apply Forall_lookup. intros k s Hs. apply snapshots_nth in Hs. apply Hs.
Qed.

Lemma map_constant {A B} (f : A -> B) (c : B) (l : list A) :
  Forall (fun x => f x = c) l -> List.map f l = repeat c (List.length l).
Proof.
  induction 1 as [| x l Hx _ IH]; [reflexivity |]. cbn. rewrite Hx, IH. reflexivity.
Qed.

Lemma tallyAll_sum outcomes :
  processedCount (tallyAll outcomes emptyTally) + failedCount (tallyAll outcomes emptyTally)
  = Z.of_nat (List.length outcomes).
Proof.
  destruct (tallyAll_counts outcomes emptyTally) as (Hp & Hf & _ & _).
  rewrite Hp, Hf. cbn [processedCount failedCount emptyTally].
  pose proof (saved_logged_length outcomes). lia.
Qed.

Lemma tallyAll_nonneg outcomes :
  0 <= processedCount (tallyAll outcomes emptyTally) /\
  0 <= failedCount (tallyAll outcomes emptyTally).
Proof.
  destruct (tallyAll_counts outcomes emptyTally) as (Hp & Hf & _ & _).
  rewrite Hp, Hf. cbn. lia.
Qed.

(** C1. For every bulk job run over a non-empty identifier list, after all
    items are processed the job's terminal status is [completed] if at least
    one item succeeded (the [try] block of its iteration returned), and
    [failed] if none did, whatever the number of failed items. *)
Theorem terminal_status_reflects_successes companies options w :
  companies <> [] ->
  exists jobId outcomes job w',
    bulkProcess companies options w =
      (Ok (Started jobId (Z.of_nat (List.length companies))), w') /\
    attempts w' = attempts w ++ outcomes /\
    List.map fst outcomes = companies /\
    processingJobs w' !! jobId = Some job /\
    jobStatus job = if existsb succeeded outcomes then completed else failed.
Proof.
  intros Hne.
  destruct (bulkProcess_spec companies options w Hne)
    as (outcomes & times & finished & w' & Hrun & Hmap & Hlen & Hatt & Hwr & Hfinal).
  cbn zeta in *.
  eexists _, outcomes, _, w'. repeat split; try eassumption.
  cbn [jobStatus applyUpdates finalUpdates setStatus default].
  destruct (tallyAll_counts outcomes emptyTally) as (Hp & _).
  rewrite Hp. cbn [processedCount emptyTally]. rewrite Z.add_0_l, saved_succeeded.
  reflexivity.
Qed.

(** C2. For every bulk job run, [totalItems] is the length of the input
    list from the creation of the job on, [processedItems + failedItems <=
    totalItems] holds in every job record the run writes, and
    [processedItems + failedItems = totalItems] holds in the record the run
    ends with. *)
Theorem counters_within_total companies options w :
  companies <> [] ->
  exists jobId records final w',
    bulkProcess companies options w =
      (Ok (Started jobId (Z.of_nat (List.length companies))), w') /\
    written w' = written w ++ records /\
    Forall (fun job => id job = jobId /\
                       countersWithin (Z.of_nat (List.length companies)) job) records /\
    processingJobs w' !! jobId = Some final /\
    List.last records final = final /\
    totalItems final = Z.of_nat (List.length companies) /\
    processedItems final + failedItems final = totalItems final.
Proof.
  intros Hne.
  destruct (bulkProcess_spec companies options w Hne)
    as (outcomes & times & finished & w' & Hrun & Hmap & Hlen & Hatt & Hwr & Hfinal).
  cbn zeta in *.
  set (created := createdJob companies options w) in *.
  set (started := applyUpdates created (startUpdates companies) (clock w)) in *.
  set (snaps := snapshots started emptyTally outcomes times) in *.
  set (t := tallyAll outcomes emptyTally) in *.
  set (final := applyUpdates (List.last snaps started) _ finished) in *.
  assert (Hn : List.length outcomes = List.length companies)
    by (rewrite <- Hmap; symmetry; apply length_map).
  assert (Hout : outcomes <> []) by (intros ->; destruct companies; cbn in Hn; congruence).
  assert (Hlen' : List.length times = List.length outcomes) by congruence.
  destruct (snapshots_last started emptyTally outcomes times Hlen') as (Hsame & Hcount).
  fold snaps in Hsame, Hcount. destruct (Hcount Hout) as (Hp & Hf).
  destruct Hsame as (Hid & _ & Htotal & _).
  assert (Hfin : id final = id created /\
                 totalItems final = Z.of_nat (List.length companies) /\
                 processedItems final + failedItems final = totalItems final).
  { subst final. cbn [id totalItems processedItems failedItems applyUpdates finalUpdates
                      setProcessedItems setFailedItems default].
    rewrite Hid, Htotal, Hp, Hf. fold t. subst t. rewrite tallyAll_sum, Hn.
    repeat split. }
  destruct Hfin as (Hfid & Hftotal & Hfsum).
  exists (id created), (created :: started :: snaps ++ [final]), final, w'.
  split; [exact Hrun |]. split; [exact Hwr |].
  split; [| split; [exact Hfinal | split; [| split; [exact Hftotal | exact Hfsum]]]].
  - repeat apply Forall_cons_2.
    + split; [reflexivity |]. repeat split; cbn; lia.
    + split; [reflexivity |]. repeat split; cbn; lia.
    + apply Forall_app. split.
      * apply Forall_lookup. intros k s Hs. apply snapshots_nth in Hs.
        destruct Hs as ((Hsid & _ & Hstotal & _) & Hsp & Hsf).
        split; [exact Hsid |]. unfold countersWithin.
        rewrite Hstotal, Hsp, Hsf.
        pose proof (tallyAll_sum (take (S k) outcomes)) as Hsum.
        pose proof (tallyAll_nonneg (take (S k) outcomes)) as (Hp0 & Hf0).
        pose proof (length_take_le outcomes (S k)) as Hle.
        assert (Hle' : (List.length (take (S k) outcomes) <= List.length outcomes)%nat).
        { rewrite length_take. lia. }
        cbn [totalItems started applyUpdates created createdJob]. repeat split; lia.
      * apply Forall_cons_2; [| constructor].
        split; [exact Hfid |]. unfold countersWithin.
        assert (Hnn : 0 <= processedItems final /\ 0 <= failedItems final).
        { subst final. cbn [processedItems failedItems applyUpdates finalUpdates
                            setProcessedItems setFailedItems default].
          rewrite Hp, Hf. apply tallyAll_nonneg. }
        destruct Hnn as (Hp0 & Hf0). repeat split; lia.
  - change (created :: started :: snaps ++ [final])
      with ([created; started] ++ snaps ++ [final]).
    rewrite !app_assoc. apply last_last.
Qed.

(** C3. For every bulk job run and every item of the input list, whatever
    goes wrong in the [try] block of the item (resolving, enriching or
    persisting it) is caught: the run attempts every item in order and does
    not throw, and the error log of the job holds exactly one entry for each
    failed attempt, in order, with the identifier of the item and the message
    of the error. *)
Theorem item_failures_are_isolated jobId companies options w job :
  processingJobs w !! jobId = Some job ->
  exists outcomes final w',
    processBulkCompanies jobId companies options w = (Ok tt, w') /\
    attempts w' = attempts w ++ outcomes /\
    List.map fst outcomes = companies /\
    processingJobs w' !! jobId = Some final /\
    errorLog final = Some (loggedBy outcomes) /\
    results final = Some (savedBy outcomes).
Proof.
  intros Hjob.
  destruct (processBulkCompanies_spec jobId companies options w job Hjob)
    as (outcomes & times & finished & w' & Hrun & Hmap & Hlen & Hatt & Hwr & Hfinal).
  cbn zeta in *.
  eexists outcomes, _, w'. repeat split; try eassumption.
  - cbn [errorLog applyUpdates finalUpdates setErrorLog].
    destruct (tallyAll_counts outcomes emptyTally) as (_ & _ & _ & He).
    rewrite He. reflexivity.
  - cbn [results applyUpdates finalUpdates setResults].
    destruct (tallyAll_counts outcomes emptyTally) as (_ & _ & Hr & _).
    rewrite Hr. reflexivity.
Qed.

(** C8. Along every run driven by the job processor, the records written
    for the job show the status [pending] once, then [processing], then one
    terminal status ([completed] or [failed]) in the last record, and the
    completion time is absent from every record but the last one, where it is
    assigned. *)
Theorem status_moves_forward_completedAt_once companies options w :
  companies <> [] ->
  exists jobId records terminal finishedAt w',
    bulkProcess companies options w =
      (Ok (Started jobId (Z.of_nat (List.length companies))), w') /\
    written w' = written w ++ records /\
    Forall (fun job => id job = jobId) records /\
    List.map jobStatus records =
      pending :: repeat processing (S (List.length companies)) ++ [terminal] /\
    (terminal = completed \/ terminal = failed) /\
    List.map completedAt records =
      repeat None (S (S (List.length companies))) ++ [Some finishedAt].
Proof.
  intros Hne.
  destruct (bulkProcess_spec companies options w Hne)
    as (outcomes & times & finished & w' & Hrun & Hmap & Hlen & Hatt & Hwr & Hfinal).
  cbn zeta in *.
  set (created := createdJob companies options w) in *.
  set (started := applyUpdates created (startUpdates companies) (clock w)) in *.
  set (snaps := snapshots started emptyTally outcomes times) in *.
  set (t := tallyAll outcomes emptyTally) in *.
  set (final := applyUpdates (List.last snaps started) _ finished) in *.
  assert (Hn : List.length outcomes = List.length companies)
    by (rewrite <- Hmap; symmetry; apply length_map).
  assert (Hlen' : List.length times = List.length outcomes) by congruence.
  pose proof (snapshots_sameJob started emptyTally outcomes times) as Hsame.
  fold snaps in Hsame.
  assert (Hsnaps : List.length snaps = List.length companies).
  { subst snaps. rewrite snapshots_length; assumption. }
  destruct (snapshots_last started emptyTally outcomes times Hlen') as ((Hlid & _) & _).
  fold snaps in Hlid.
  exists (id created), (created :: started :: snaps ++ [final]),
    (if 0 <? processedCount t then completed else failed), finished, w'.
  split; [exact Hrun |]. split; [exact Hwr |]. repeat split.
  - repeat apply Forall_cons_2; try reflexivity.
    apply Forall_app. split.
    + eapply Forall_impl; [exact Hsame |]. intros s (Hsid & _). exact Hsid.
    + apply Forall_cons_2; [| constructor]. exact Hlid.
  - cbn [List.map]. rewrite map_app.
    rewrite (map_constant jobStatus processing snaps), Hsnaps.
    + reflexivity.
    + eapply Forall_impl; [exact Hsame |]. intros s (_ & Hst & _). exact Hst.
  - destruct (0 <? processedCount t); [left | right]; reflexivity.
  - cbn [List.map]. rewrite map_app.
    rewrite (map_constant completedAt None snaps), Hsnaps.
    + subst final. cbn [List.map completedAt applyUpdates finalUpdates setStatus].
      destruct (0 <? processedCount t); reflexivity.
    + eapply Forall_impl; [exact Hsame |]. intros s (_ & _ & _ & Hc & _). exact Hc.
Qed.

End JobClaims.

(** ** The estimators *)

Section EstimatorClaims.
Context `{Host}.
Import EnhancementService.



(** C4, as the code has it.  [estimateEmployeeCount] changes nothing, and
    its result is determined by its arguments together with the calendar year
    of the clock it reads: two calls with identical arguments in the same
    local year return the same estimate.  [estimateRevenue] and
    [estimateValuation] read nothing but their arguments. *)
Theorem estimators_deterministic_within_a_year companyData sicCodes w1 w2 :
  Js.getFullYear (Some (clock w1)) = Js.getFullYear (Some (clock w2)) ->
  fst (estimateEmployeeCount companyData sicCodes w1) =
    fst (estimateEmployeeCount companyData sicCodes w2) /\
  snd (estimateEmployeeCount companyData sicCodes w1) = w1 /\
  (forall employeeCount employeeCount' location location' revenue revenue' age age',
     employeeCount = employeeCount' -> location = location' ->
     revenue = revenue' -> age = age' ->
     estimateRevenue employeeCount sicCodes location =
       estimateRevenue employeeCount' sicCodes location' /\
     estimateValuation revenue employeeCount sicCodes age =
       estimateValuation revenue' employeeCount' sicCodes age').
Proof.
  intros Hyear. split; [| split].
  - unfold estimateEmployeeCount, bind, lift, Date_now, reads, ret, throw.
    destruct (Js.get companyData "type"); [reflexivity |].
    destruct (Js.get companyData "date_of_creation") as [| created]; [reflexivity |].
    destruct (Js.Date_new created); [reflexivity |].
    cbn [fst]. unfold companyAgeAt. rewrite Hyear. reflexivity.
  - apply (estimateEmployeeCount_unchanged companyData sicCodes w1).
  - intros; subst; split; reflexivity.
Qed.

End EstimatorClaims.

(** C4, as stated, fails: [estimateEmployeeCount] reads the clock.  For a
    company created on 2015-06-01 with the code 43210, the estimate is 2 on
    2020-07-01 and 3 on 2021-07-01, the arguments being identical. *)
Lemma estimateEmployeeCount_depends_on_the_clock :
  let record := JObj [("date_of_creation", JStr "2015-06-01")] in
  let w2020 := Sample.start 1593561600000 0 in
  let w2021 := set_clock 1625097600000 w2020 in
  @EnhancementService.estimateEmployeeCount Sample.host record ["43210"] w2020
    = (Ok 2%float, w2020) /\
  @EnhancementService.estimateEmployeeCount Sample.host record ["43210"] w2021
    = (Ok 3%float, w2021) /\
  fst (@EnhancementService.estimateEmployeeCount Sample.host record ["43210"] w2020)
    <> fst (@EnhancementService.estimateEmployeeCount Sample.host record ["43210"] w2021).
Proof.
  cbv zeta. split; [vm_compute; reflexivity |]. split; [vm_compute; reflexivity |].
  intros Heq.
  apply (f_equal (fun o => match o with
                           | Ok f => PrimFloat.eqb f 2
                           | Throw _ => false
                           end)) in Heq.
  vm_compute in Heq. discriminate Heq.
Qed.


(** The hypothesis of the determinism theorem holds of two distinct clock
    readings of May 2024. *)
Lemma estimators_deterministic_witness :
  let w1 := Sample.start Sample.may2024 0 in
  let w2 := set_clock (Sample.may2024 + 86400000) w1 in
  fst (@EnhancementService.estimateEmployeeCount Sample.host Sample.acme ["43910"] w1) =
  fst (@EnhancementService.estimateEmployeeCount Sample.host Sample.acme ["43910"] w2).
Proof.
  cbv zeta.
  apply (@estimators_deterministic_within_a_year Sample.host Sample.acme ["43910"]
           (Sample.start Sample.may2024 0)
           (set_clock (Sample.may2024 + 86400000) (Sample.start Sample.may2024 0))).
  vm_compute. reflexivity.
Defined.

(** ** Resolving an identifier *)

Section ResolutionFacts.
Context `{Host}.
Import CompaniesHouseService Routes Resolution.

(** On arrays, zero results means the empty array, for both tests. *)
Lemma zeroResults_array first (l : list JsValue) :
  zeroResults first (Some (JArr l)) = match l with [] => true | _ :: _ => false end.
Proof. destruct l, first; reflexivity. Qed.

Lemma observed_calls {A} (entry : Outcome A -> ServiceCall) (m : JS A) w :
  respects client_frame m ->
  exists o w', observed entry m w = (o, w') /\ calls w' = calls w ++ [entry o].
Proof.
  intros Hm. unfold observed. specialize (Hm w).
  destruct (m w) as [o w1]; cbn in Hm. destruct Hm as (_ & _ & _ & Hcalls & _).
  exists o; eexists; split; [reflexivity |]. cbn. rewrite Hcalls. reflexivity.
Qed.

Lemma searchCompany_calls query w :
  exists o w', searchCompany query w = (o, w') /\
               calls w' = calls w ++ [Searched query (foundBy o)].
Proof.
  unfold searchCompany.
  match goal with
  | |- context [observed ?entry ?m] =>
      assert (Hm : respects client_frame m) by frame;
      destruct (observed_calls entry m w Hm) as (o & w' & Hrun & Hcalls)
  end.
  exists o, w'. split; [exact Hrun |]. rewrite Hcalls. destruct o; reflexivity.
Qed.

Lemma getCompanyDetailsOf_calls number w :
  exists o w', getCompanyDetailsOf number w = (o, w') /\
               exists ok, calls w' = calls w ++ [Detailed number ok].
Proof.
  unfold getCompanyDetailsOf.
  match goal with
  | |- context [observed ?entry ?m] =>
      assert (Hm : respects client_frame m) by frame;
      destruct (observed_calls entry m w Hm) as (o & w' & Hrun & Hcalls)
  end.
  exists o, w'. split; [exact Hrun |]. eexists. exact Hcalls.
Qed.

(** The loop over the variations searches them in order and stops at the
    first that does not come back with zero results. *)
Lemma searchVariations_calls remaining searchResults w :
  remaining <> [] ->
  exists searched,
    calls (snd (searchVariations remaining searchResults w)) =
      calls w ++ searchedCalls searched /\
    SearchOrder false remaining searched.
Proof.
  revert searchResults w. induction remaining as [| v rest IH]; intros sr w Hne;
    [congruence |].
  cbn [searchVariations]. unfold bind at 1.
  destruct (searchCompany_calls v w) as (o & w1 & Hrun & Hcalls). rewrite Hrun.
  destruct o as [r | e].
  - unfold bind, lift. destruct (Js.length_is_positive r) as [e | [|]] eqn:Hpos.
    + exists [(v, Some r)]. cbn. split; [exact Hcalls |].
      apply search_stops. cbn. rewrite Hpos. reflexivity.
    + exists [(v, Some r)]. cbn. split; [exact Hcalls |].
      apply search_stops. cbn. rewrite Hpos. reflexivity.
    + cbn [ret]. destruct rest as [| v' rest'].
      * exists [(v, Some r)]. cbn. split; [exact Hcalls |].
        apply search_exhausts. cbn. rewrite Hpos. reflexivity.
      * destruct (IH r w1) as (searched & Hcalls' & Horder); [discriminate |].
        exists ((v, Some r) :: searched). split.
        -- rewrite Hcalls', Hcalls, <- app_assoc. reflexivity.
        -- apply search_goes_on; [cbn; rewrite Hpos; reflexivity | discriminate | exact Horder].
  - exists [(v, None)]. cbn. split; [exact Hcalls |]. apply search_stops. reflexivity.
Qed.

Lemma is_digit_decimalDigit c : Str.is_digit c = decimalDigit c.
Proof. destruct c as [[] [] [] [] [] [] [] []]; reflexivity. Qed.

Lemma all_digits_forallb s :
  Str.all_digits s = forallb decimalDigit (list_ascii_of_string s).
Proof.
  induction s as [| c r IH]; [reflexivity |].
  cbn [Str.all_digits list_ascii_of_string forallb].
  rewrite is_digit_decimalDigit, IH. reflexivity.
Qed.

Lemma length_list_ascii s : List.length (list_ascii_of_string s) = String.length s.
Proof. induction s as [| c r IH]; [reflexivity |]. cbn. rewrite IH. reflexivity. Qed.

(** The test of the code for a company number is the test for eight digits. *)
Lemma isCompanyNumber_eightDigits q : isCompanyNumber q = eightDigits q.
Proof.
  unfold isCompanyNumber, Str.is_digits, eightDigits.
  rewrite all_digits_forallb, length_list_ascii. reflexivity.
Qed.

Lemma is_space_blank c : Str.is_space c = blank c.
Proof. destruct c as [[] [] [] [] [] [] [] []]; reflexivity. Qed.

Lemma trimStart_collapse b s : Str.trimStart (Str.collapse b s) = Str.collapse true s.
Proof.
  revert b. induction s as [| c r IH]; intros b; [reflexivity |].
  cbn [Str.collapse]. destruct (Str.is_space c) eqn:Hc.
  - destruct b; [apply IH |].
    cbn [Str.trimStart]. change (Str.is_space (Str.chr 32)) with true. cbv iota.
    apply IH.
  - cbn [Str.trimStart]. rewrite Hc. reflexivity.
Qed.

Lemma words_head s : match words s with [] => True | w :: _ => w <> "" end.
Proof.
  induction s as [| c r IH]; [exact I |].
  cbn [words]. destruct (blank c); [exact IH |].
  destruct r as [| c' r']; [discriminate |].
  destruct (blank c'); [discriminate |].
  destruct (words (String c' r')); discriminate.
Qed.

Lemma unwords_cons c w ws : unwords (String c w :: ws) = String c (unwords (w :: ws)).
Proof. destruct ws; reflexivity. Qed.

Lemma unwords_empty s : whitespaceNormalized s = "" -> words s = [].
Proof.
  unfold whitespaceNormalized. pose proof (words_head s) as Hw.
  destruct (words s) as [| w ws]; [reflexivity |].
  destruct w as [| c w]; [congruence |]. rewrite unwords_cons. discriminate.
Qed.

Lemma trimEnd_collapse s :
  Str.trimEnd (Str.collapse true s) = whitespaceNormalized s /\
  Str.trimEnd (Str.collapse false s)
  = match s with
    | String c _ =>
        if blank c
        then match whitespaceNormalized s with
             | EmptyString => EmptyString
             | n => String (Str.chr 32) n
             end
        else whitespaceNormalized s
    | EmptyString => EmptyString
    end.
Proof.
  induction s as [| c r [IHt IHf]]; [split; reflexivity |].
  assert (Hblank : blank c = true ->
            Str.trimEnd (Str.collapse true (String c r)) = whitespaceNormalized (String c r)).
  { intros Hc. cbn [Str.collapse]. rewrite is_space_blank, Hc.
    unfold whitespaceNormalized. cbn [words]. rewrite Hc. exact IHt. }
  assert (Hword : blank c = false ->
            Str.trimEnd (Str.collapse true (String c r)) = whitespaceNormalized (String c r)).
  { intros Hc. cbn [Str.collapse]. rewrite is_space_blank, Hc.
    cbn [Str.trimEnd]. rewrite is_space_blank, Hc, IHf.
    unfold whitespaceNormalized at 3. cbn [words]. rewrite Hc.
    destruct r as [| c' r']; [reflexivity |].
    destruct (blank c') eqn:Hc'.
    - destruct (whitespaceNormalized (String c' r')) as [| a n] eqn:Hn.
      + rewrite (unwords_empty _ Hn). reflexivity.
      + unfold whitespaceNormalized in Hn.
        destruct (words (String c' r')) as [| w ws]; [discriminate Hn |].
        change (unwords (String c "" :: w :: ws))
          with (String c "" +:+ " " +:+ unwords (w :: ws)).
        rewrite Hn. reflexivity.
    - pose proof (words_head (String c' r')) as Hw. unfold whitespaceNormalized.
      destruct (words (String c' r')) as [| w ws] eqn:Hws.
      + cbn [words] in Hws. rewrite Hc' in Hws.
        destruct r' as [| c2 r2]; [discriminate Hws |].
        destruct (blank c2); [discriminate Hws |].
        destruct (words (String c2 r2)); discriminate Hws.
      + rewrite unwords_cons.
        destruct w as [| a w]; [congruence |]. rewrite unwords_cons. reflexivity. }
  split.
  - destruct (blank c) eqn:Hc; auto.
  - destruct (blank c) eqn:Hc.
    + cbn [Str.collapse]. rewrite is_space_blank, Hc.
      cbn [Str.trimEnd]. change (Str.is_space (Str.chr 32)) with true.
      unfold whitespaceNormalized. cbn [words]. rewrite Hc.
      fold (whitespaceNormalized r). rewrite IHt. reflexivity.
    + rewrite <- (Hword eq_refl). cbn [Str.collapse]. rewrite is_space_blank, Hc.
      reflexivity.
Qed.

(** The last variation of the code is the query with its white space
    normalized. *)
Lemma trim_collapse_normalized q :
  Str.trim (Str.collapse false q) = whitespaceNormalized q.
Proof.
  unfold Str.trim. rewrite trimStart_collapse. apply trimEnd_collapse.
Qed.

(** C7. In bulk processing, an identifier of eight digits is resolved by one
    detail fetch and no search.  Any other identifier is first searched as it
    is; if that search returns zero results, the query followed by
    [" LIMITED"], by [" LTD"], by [" SERVICES"], and the query with its white
    space normalized are searched in exactly that order, up to the first
    search that does not return zero results, or throws; at most one detail
    fetch follows the searches.  A search that returns an array returns zero
    results when the array is empty. *)
Theorem resolution_order companyQuery w :
  let made := calls (snd (resolveCompany companyQuery w)) in
  (forall first results,
     zeroResults first (Some (JArr results))
     = match results with [] => true | _ :: _ => false end) /\
  if eightDigits companyQuery
  then exists ok, made = calls w ++ [Detailed (JStr companyQuery) ok]
  else
    exists searched details,
      made = calls w ++ searchedCalls searched ++ details /\
      SearchOrder true
        [companyQuery;
         companyQuery +:+ " LIMITED";
         companyQuery +:+ " LTD";
         companyQuery +:+ " SERVICES";
         whitespaceNormalized companyQuery] searched /\
      (details = [] \/ exists number ok, details = [Detailed number ok]).
Proof.
  cbv zeta. split; [apply zeroResults_array |].
  unfold resolveCompany. rewrite isCompanyNumber_eightDigits.
  destruct (eightDigits companyQuery).
  - destruct (getCompanyDetailsOf_calls (JStr companyQuery) w)
      as (o & w' & Hrun & ok & Hcalls).
    unfold getCompanyDetails. rewrite Hrun. exists ok. exact Hcalls.
  - assert (Htail : forall (sr : JsValue) (w1 : World),
              let w2 := snd ((positive <- lift (Js.length_is_positive sr) ;;
                              if positive : bool
                              then
                                bestMatch <- lift (bestMatchOf companyQuery sr) ;;
                                number <- lift (Js.get bestMatch "company_number") ;;
                                getCompanyDetailsOf number
                              else throw (Error (notFoundMessage companyQuery)))%js w1) in
              exists details,
                calls w2 = calls w1 ++ details /\
                (details = [] \/ exists number ok, details = [Detailed number ok])).
    { intros sr w1. cbv zeta. unfold bind, lift.
      destruct (Js.length_is_positive sr) as [e | [|]];
        [exists []; cbn; rewrite app_nil_r; split; [reflexivity | left; reflexivity] | |
         exists []; cbn; rewrite app_nil_r; split; [reflexivity | left; reflexivity]].
      cbn [ret].
      destruct (bestMatchOf companyQuery sr) as [e | bestMatch];
        [exists []; cbn; rewrite app_nil_r; split; [reflexivity | left; reflexivity] |].
      cbn [ret].
      destruct (Js.get bestMatch "company_number") as [e | number];
        [exists []; cbn; rewrite app_nil_r; split; [reflexivity | left; reflexivity] |].
      cbn [ret].
      destruct (getCompanyDetailsOf_calls number w1) as (o & w2 & Hrun & ok & Hcalls).
      rewrite Hrun. exists [Detailed number ok].
      split; [exact Hcalls | right; eauto]. }
    unfold bind at 1.
    destruct (searchCompany_calls companyQuery w) as (o & w1 & Hrun & Hcalls).
    rewrite Hrun. destruct o as [r | e].
    + unfold bind at 1. destruct (Js.length_is_zero r) eqn:Hzero.
      * destruct (searchVariations_calls (variations companyQuery) r w1)
          as (searched & Hcalls' & Horder); [discriminate |].
        unfold variations in Horder. rewrite trim_collapse_normalized in Horder.
        destruct (searchVariations (variations companyQuery) r w1) as [[sr | e] w2] eqn:Hvar;
          cbn [snd] in Hcalls'.
        -- destruct (Htail sr w2) as (details & Hd & Hshape). cbv zeta in Hd.
           exists ((companyQuery, Some r) :: searched), details.
           split; [| split; [| exact Hshape]].
           ++ rewrite Hd, Hcalls', Hcalls. cbn. rewrite <- !app_assoc. reflexivity.
           ++ apply search_goes_on; [cbn; exact Hzero | discriminate | exact Horder].
        -- exists ((companyQuery, Some r) :: searched), [].
           split; [| split; [| left; reflexivity]].
           ++ cbn [snd]. rewrite Hcalls', Hcalls. cbn. rewrite app_nil_r, <- !app_assoc.
              reflexivity.
           ++ apply search_goes_on; [cbn; exact Hzero | discriminate | exact Horder].
      * cbn [ret]. destruct (Htail r w1) as (details & Hd & Hshape). cbv zeta in Hd.
        exists [(companyQuery, Some r)], details. split; [| split; [| exact Hshape]].
        -- rewrite Hd, Hcalls. cbn. rewrite <- !app_assoc. reflexivity.
        -- apply search_stops. cbn. exact Hzero.
    + exists [(companyQuery, None)], []. cbn [snd]. split; [| split; [| left; reflexivity]].
      * rewrite Hcalls. cbn. reflexivity.
      * apply search_stops. reflexivity.
Qed.

End ResolutionFacts.

(** ** The registry client: validation, annotation and the cache *)

Section ClientFacts.
Context `{Host}.
Import CompaniesHouseService Client.

Lemma obj_get_set_eq k v fs : Js.obj_get k (Js.obj_set k v fs) = v.
Proof.
  induction fs as [| [k' v'] fs IH]; cbn.
  - rewrite String.eqb_refl. reflexivity.
  - destruct (String.eqb k k') eqn:E; cbn; rewrite ?String.eqb_refl, ?E; auto.
Qed.

Lemma obj_get_set_ne k k' v fs :
  k <> k' -> Js.obj_get k (Js.obj_set k' v fs) = Js.obj_get k fs.
Proof.
  intros Hne. apply String.eqb_neq in Hne.
  induction fs as [| [k2 v2] fs IH]; cbn.
  - rewrite Hne. reflexivity.
  - destruct (String.eqb k' k2) eqn:E; cbn.
    + apply String.eqb_eq in E. subst k2. rewrite Hne. reflexivity.
    + destruct (String.eqb k k2); auto.
Qed.

Lemma deref_obj l w v : heap w !! l = Some v -> deref l w = (Ok v, w).
Proof. intros Hl. unfold deref, reads. rewrite Hl. reflexivity. Qed.

Lemma get_prop_obj l k w fs :
  heap w !! l = Some (JObj fs) -> get_prop l k w = (Ok (Js.obj_get k fs), w).
Proof. intros Hl. unfold get_prop, bind. rewrite (deref_obj _ _ _ Hl). reflexivity. Qed.

Lemma set_prop_obj l k v w fs :
  heap w !! l = Some (JObj fs) ->
  set_prop l k v w = (Ok tt, set_heap (<[l := JObj (Js.obj_set k v fs)]> (heap w)) w).
Proof. intros Hl. unfold set_prop, modify. rewrite Hl. reflexivity. Qed.

Lemma heap_insert_lookup (h : list JsValue) l x y :
  h !! l = Some x -> <[l := y]> h !! l = Some y.
Proof. intros Hl. apply list_lookup_insert_eq. eapply lookup_lt_Some, Hl. Qed.

(** Arithmetic on NaN gives NaN. *)
Lemma minus_nan (x : float) : (x - Num.nan)%float = Num.nan.
Proof.
  apply Prim2SF_inj. rewrite sub_spec.
  change (Prim2SF Num.nan) with S754_nan.
  unfold SF64sub, SFsub. destruct (Prim2SF x); reflexivity.
Qed.

Lemma nan_over (x : float) : (Num.nan / x)%float = Num.nan.
Proof.
  apply Prim2SF_inj. rewrite div_spec.
  change (Prim2SF Num.nan) with S754_nan. reflexivity.
Qed.

Lemma requireFields_obj l fields w fs :
  heap w !! l = Some (JObj fs) ->
  requireFields l fields w =
    match firstMissing fs fields with
    | Some field => (Throw (Error ("Missing required field: " +:+ field)), w)
    | None => (Ok tt, w)
    end.
Proof.
  intros Hl. induction fields as [| f rest IH]; [reflexivity |].
  cbn [requireFields firstMissing List.find]. unfold bind.
  rewrite (get_prop_obj _ _ _ _ Hl).
  destruct (Js.truthy (Js.obj_get f fs)); cbn [negb]; [exact IH | reflexivity].
Qed.

(** Only an object passes the validation. *)
Lemma requireFields_passes l w w' :
  requireFields l requiredFields w = (Ok tt, w') ->
  exists fs, heap w !! l = Some (JObj fs) /\ firstMissing fs requiredFields = None /\ w' = w.
Proof.
  intros Hrun. destruct (heap w !! l) as [v |] eqn:Hl.
  - destruct v as [| | b | f | s | items | fs | name];
      try (cbn in Hrun; unfold bind, get_prop, bind, deref, reads in Hrun;
           rewrite Hl in Hrun; cbn in Hrun; discriminate Hrun).
    exists fs. split; [reflexivity |].
    rewrite (requireFields_obj _ _ _ _ Hl) in Hrun.
    destruct (firstMissing fs requiredFields); [discriminate Hrun |].
    injection Hrun as <-. split; reflexivity.
  - cbn in Hrun. unfold bind, get_prop, bind, deref, reads in Hrun.
    rewrite Hl in Hrun. cbn in Hrun. discriminate Hrun.
Qed.

(** What [validateAndEnhanceCompanyData] does on an object. *)
Lemma validateAndEnhanceCompanyData_obj l w fs :
  heap w !! l = Some (JObj fs) ->
  validateAndEnhanceCompanyData l w =
    match firstMissing fs requiredFields with
    | Some field => (Throw (Error ("Missing required field: " +:+ field)), w)
    | None =>
        match annotate (clock w) fs with
        | inr fs' => (Ok l, set_heap (<[l := JObj fs']> (heap w)) w)
        | inl e => (Throw e, set_heap (<[l := JObj (stamp (clock w) fs)]> (heap w)) w)
        end
    end.
Proof.
  intros Hl. unfold validateAndEnhanceCompanyData.
  unfold bind at 1. rewrite (requireFields_obj _ _ _ _ Hl).
  destruct (firstMissing fs requiredFields); [reflexivity |].
  unfold bind at 1. unfold Date_now at 1, reads at 1.
  unfold bind at 1. rewrite (set_prop_obj _ _ _ _ _ Hl).
  fold (stamp (clock w) fs). set (fs1 := stamp (clock w) fs).
  set (w1 := set_heap _ w).
  assert (Hl1 : heap w1 !! l = Some (JObj fs1))
    by (subst w1; cbn; eapply heap_insert_lookup, Hl).
  unfold bind at 1. rewrite (get_prop_obj _ _ _ _ Hl1).
  unfold annotate. fold fs1. unfold bind at 1.
  destruct (interpretStatus (Js.obj_get "company_status" fs1)) as [e | interpretation];
    [reflexivity |].
  cbn [lift ret].
  unfold bind at 1. rewrite (set_prop_obj _ _ _ _ _ Hl1).
  unfold annotateWith. fold fs1.
  set (fs2 := Js.obj_set "status_interpretation" _ fs1).
  set (w2 := set_heap _ w1).
  assert (Hl2 : heap w2 !! l = Some (JObj fs2))
    by (subst w2; cbn; eapply heap_insert_lookup, Hl1).
  unfold bind at 1. rewrite (get_prop_obj _ _ _ _ Hl2). cbv zeta.
  destruct (Js.truthy (Js.obj_get "date_of_creation" fs2)).
  - unfold bind at 1. unfold try_catch, ageOf. unfold bind at 1.
    destruct (Js.Date_new (Js.obj_get "date_of_creation" fs2)) as [e | creationDate];
      cbn [lift throw ret].
    + rewrite (set_prop_obj _ _ _ _ _ Hl2).
      subst w2 w1. cbn. rewrite !list_insert_insert_eq. reflexivity.
    + unfold bind at 1. unfold Date_now at 1, reads at 1.
      rewrite (set_prop_obj _ _ _ _ _ Hl2). cbn [ret].
      subst w2 w1. cbn. rewrite !list_insert_insert_eq. reflexivity.
  - unfold bind at 1. cbn [ret].
    subst w2 w1. cbn. rewrite !list_insert_insert_eq. reflexivity.
Qed.

(** [getCompanyDetails] after its request returned the address of an
    object: the validation decides, and the call is noted. *)
Lemma getCompanyDetails_obj number w l w1 fs :
  makeRequest ("/company/" +:+ number) None w = (Ok l, w1) ->
  heap w1 !! l = Some (JObj fs) ->
  getCompanyDetails number w =
    match firstMissing fs requiredFields with
    | Some field =>
        (Throw (Error ("Missing required field: " +:+ field)),
         set_calls (calls w1 ++ [Detailed (JStr number) false]) w1)
    | None =>
        match annotate (clock w1) fs with
        | inr fs' =>
            (Ok l,
             set_calls (calls w1 ++ [Detailed (JStr number) true])
               (set_heap (<[l := JObj fs']> (heap w1)) w1))
        | inl e =>
            (Throw e,
             set_calls (calls w1 ++ [Detailed (JStr number) false])
               (set_heap (<[l := JObj (stamp (clock w1) fs)]> (heap w1)) w1))
        end
    end.
Proof.
  intros Hreq Hl. unfold getCompanyDetails, getCompanyDetailsOf, observed, bind.
  cbn [Js.ToString lift ret]. rewrite Hreq.
  rewrite (validateAndEnhanceCompanyData_obj _ _ _ Hl).
  destruct (firstMissing fs requiredFields); [reflexivity |].
  destruct (annotate (clock w1) fs); reflexivity.
Qed.

Lemma firstMissing_some fs fields field :
  In field fields -> Js.truthy (Js.obj_get field fs) = false ->
  exists missing,
    firstMissing fs fields = Some missing /\ In missing fields /\
    Js.truthy (Js.obj_get missing fs) = false.
Proof.
  intros Hin Hfalsy. unfold firstMissing.
  destruct (List.find _ fields) as [g |] eqn:Hfind.
  - apply List.find_some in Hfind. destruct Hfind as (Hg & Hneg).
    exists g. repeat split; [exact Hg |]. destruct (Js.truthy (Js.obj_get g fs)); [discriminate | reflexivity].
  - eapply List.find_none in Hfind; [| exact Hin]. cbn in Hfind.
    rewrite Hfalsy in Hfind. discriminate.
Qed.

(** C10. [getCompanyDetails] fails with the missing-field error whenever
    one of [company_name], [company_number], [company_status] is absent from
    the payload or present with a falsy value (the empty string, zero,
    [false], [null]): the error names the first such field. *)
Theorem falsy_required_field_is_missing number w l w1 fs field :
  makeRequest ("/company/" +:+ number) None w = (Ok l, w1) ->
  heap w1 !! l = Some (JObj fs) ->
  In field ["company_name"; "company_number"; "company_status"] ->
  Js.truthy (Js.obj_get field fs) = false ->
  exists missing w',
    In missing ["company_name"; "company_number"; "company_status"] /\
    Js.truthy (Js.obj_get missing fs) = false /\
    getCompanyDetails number w =
      (Throw (Error ("Missing required field: " +:+ missing)), w') /\
    heap w' = heap w1.
Proof.
  intros Hreq Hl Hin Hfalsy.
  destruct (firstMissing_some fs requiredFields field Hin Hfalsy) as (g & Hg & Hgin & Hgf).
  rewrite (getCompanyDetails_obj _ _ _ _ _ Hreq Hl), Hg.
  exists g. eexists. repeat split; assumption.
Qed.

Lemma stamp_other now fs k :
  k <> "data_retrieved_at" -> Js.obj_get k (stamp now fs) = Js.obj_get k fs.
Proof. intros Hk. unfold stamp. apply obj_get_set_ne, Hk. Qed.

(** The divisor of the age is the number of milliseconds of a year of
    365.25 days. *)
Lemma msPerYear_value : msPerYear = 31557600000%float.
Proof. vm_compute. reflexivity. Qed.

(** C9. [getCompanyDetails] on a payload that passes the validation, whose
    status can be looked up, and that holds a (truthy) [date_of_creation]
    succeeds and stores [age_years]: when the date parses, the time from the
    creation date to now in years of 365.25 days, that is in milliseconds
    over 31557600000; when it does not parse, NaN, and when no date can be
    made of it at all, [null], neither of which is an error. *)
Theorem age_in_years_or_NaN number w l w1 fs key :
  makeRequest ("/company/" +:+ number) None w = (Ok l, w1) ->
  heap w1 !! l = Some (JObj fs) ->
  firstMissing fs requiredFields = None ->
  Js.ToString (Js.obj_get "company_status" fs) = inr key ->
  Js.truthy (Js.obj_get "date_of_creation" fs) = true ->
  exists w',
    getCompanyDetails number w = (Ok l, w') /\
    propertyOf w' l "age_years" =
      match Js.Date_new (Js.obj_get "date_of_creation" fs) with
      | inr (Some created) =>
          JNum ((Num.of_Z (clock w1) - Num.of_Z created) / 31557600000)%float
      | inr None => JNum Num.nan
      | inl _ => JNull
      end.
Proof.
  intros Hreq Hl Hvalid Hstatus Hdate.
  rewrite (getCompanyDetails_obj _ _ _ _ _ Hreq Hl), Hvalid.
  unfold annotate, interpretStatus.
  rewrite stamp_other by discriminate. rewrite Hstatus.
  eexists. split; [reflexivity |].
  unfold propertyOf. cbn [heap set_calls set_heap].
  rewrite (heap_insert_lookup _ _ _ _ Hl).
  unfold annotateWith, stamp.
  rewrite !obj_get_set_ne by discriminate. rewrite Hdate.
  rewrite obj_get_set_eq. unfold ageOf, ageYears. rewrite msPerYear_value.
  destruct (Js.Date_new (Js.obj_get "date_of_creation" fs)) as [e | [created |]];
    [reflexivity | reflexivity |].
  cbn [Num.of_option]. rewrite minus_nan, nan_over. reflexivity.
Qed.

Lemma bind_ok {A B} (m : JS A) (k : A -> JS B) w b w' :
  bind m k w = (Ok b, w') ->
  exists a w1, m w = (Ok a, w1) /\ k a w1 = (Ok b, w').
Proof.
  unfold bind. destruct (m w) as [[a | e] w1]; [eauto | discriminate].
Qed.

(** A request that returns has the API key, and leaves the payload it
    returns in the cache under the key of the request. *)
Lemma makeRequest_on_ok script endpoint params w l w' :
  makeRequest_on script endpoint params w = (Ok l, w') ->
  String.eqb apiKey "" = false /\
  exists entry, cache w' !! getCacheKey endpoint params = Some entry /\ data entry = l.
Proof.
  revert w. induction script as [| x rest IH]; intros w Hrun; cbn [makeRequest_on] in Hrun;
    (destruct (String.eqb apiKey "") eqn:Hkey; [discriminate Hrun |]);
    (split; [reflexivity |]);
    apply bind_ok in Hrun as (hit & w1 & Hhit & Hrun);
    unfold isValidCache, reads in Hhit; injection Hhit as <- <-.
  - destruct (cache w !! getCacheKey endpoint params) as [cached |] eqn:Hc;
      [destruct (clock w - timestamp cached <? cacheExpiry) |].
    + unfold reads in Hrun. injection Hrun as <- <-. rewrite Hc. eauto.
    + apply bind_ok in Hrun as (u & w2 & _ & Hrun). discriminate Hrun.
    + apply bind_ok in Hrun as (u & w2 & _ & Hrun). discriminate Hrun.
  - assert (Hmiss : forall w0,
      (enforceRateLimit ;;
       (let req := request_for endpoint params in
        modify (fun w => set_fetched (fetched w ++ [req])
                           (set_upstream rest
                              (set_clock (clock w + Z.of_nat (Http.latency x)) w))) ;;
        response <- lift (Http.respond x req) ;;
        modify (fun w => set_lastRequestTime (clock w) w) ;;
        if Http.status response =? 429
        then sleep (retryDelay response) ;; makeRequest_on rest endpoint params
        else if negb (Http.ok response)
        then
          if Http.status response =? 404
          then throw (Error "Company not found")
          else throw (Error ("Companies House API error: " +:+
                             Str.decimal (Http.status response) +:+ " " +:+
                             Http.statusText response))
        else
          body <- lift (Http.json response) ;;
          l <- alloc body ;;
          modify (fun w => set_cache
                             (<[getCacheKey endpoint params :=
                                  {| timestamp := clock w; data := l |}]> (cache w)) w) ;;
          ret l))%js w0 = (Ok l, w') ->
      exists entry, cache w' !! getCacheKey endpoint params = Some entry /\ data entry = l).
    { intros w0 H0.
      apply bind_ok in H0 as (u & w2 & _ & H0). cbv zeta in H0.
      apply bind_ok in H0 as (u2 & w3 & _ & H0).
      apply bind_ok in H0 as (response & w4 & _ & H0).
      apply bind_ok in H0 as (u3 & w5 & _ & H0).
      destruct (Http.status response =? 429).
      - apply bind_ok in H0 as (u4 & w6 & _ & H0).
        destruct (IH _ H0) as (_ & Hentry). exact Hentry.
      - destruct (negb (Http.ok response)).
        + destruct (Http.status response =? 404); discriminate H0.
        + apply bind_ok in H0 as (body & w6 & _ & H0).
          apply bind_ok in H0 as (l0 & w7 & _ & H0).
          apply bind_ok in H0 as (u5 & w8 & Hset & H0).
          unfold ret in H0. injection H0 as Hl Hw.
          unfold modify in Hset. injection Hset as Hset.
          subst l w' w8. cbn [cache set_cache].
          eexists. split; [apply lookup_insert_eq | reflexivity]. }
    destruct (cache w !! getCacheKey endpoint params) as [cached |] eqn:Hc;
      [destruct (clock w - timestamp cached <? cacheExpiry) |].
    + unfold reads in Hrun. injection Hrun as <- <-. rewrite Hc. eauto.
    + eapply Hmiss, Hrun.
    + eapply Hmiss, Hrun.
Qed.

(** A request whose cache entry is within the expiry window returns the
    cached payload and does nothing else. *)
Lemma makeRequest_hit endpoint params w entry :
  String.eqb apiKey "" = false ->
  cache w !! getCacheKey endpoint params = Some entry ->
  clock w - timestamp entry < cacheExpiry ->
  makeRequest endpoint params w = (Ok (data entry), w).
Proof.
  intros Hkey Hc Hfresh. unfold makeRequest.
  destruct (upstream w); cbn [makeRequest_on]; rewrite Hkey;
    unfold bind, isValidCache, reads; rewrite Hc;
    (destruct (Z.ltb_spec (clock w - timestamp entry) cacheExpiry); [| lia]);
    rewrite Hc; reflexivity.
Qed.

Lemma validateAndEnhanceCompanyData_returns l w r w' :
  validateAndEnhanceCompanyData l w = (Ok r, w') ->
  exists fs fs',
    heap w !! l = Some (JObj fs) /\ firstMissing fs requiredFields = None /\
    annotate (clock w) fs = inr fs' /\
    r = l /\ w' = set_heap (<[l := JObj fs']> (heap w)) w.
Proof.
  intros Hrun.
  destruct (requireFields l requiredFields w) as [[[] | e] wb] eqn:Hreq.
  - destruct (requireFields_passes _ _ _ Hreq) as (fs & Hl & Hmissing & _).
    rewrite (validateAndEnhanceCompanyData_obj _ _ _ Hl), Hmissing in Hrun.
    destruct (annotate (clock w) fs) as [e | fs'] eqn:Hfs'; [discriminate Hrun |].
    injection Hrun as <- <-. exists fs, fs'. repeat split; assumption.
  - unfold validateAndEnhanceCompanyData in Hrun. unfold bind at 1 in Hrun.
    rewrite Hreq in Hrun. discriminate Hrun.
Qed.

(** The annotations leave every other property as it is. *)
Lemma annotateWith_other now interpretation fs k :
  k <> "data_retrieved_at" -> k <> "status_interpretation" -> k <> "age_years" ->
  Js.obj_get k (annotateWith now interpretation fs) = Js.obj_get k fs.
Proof.
  intros H1 H2 H3. unfold annotateWith, stamp.
  destruct (Js.truthy _); rewrite ?obj_get_set_ne by assumption; reflexivity.
Qed.

Lemma annotateWith_retrieved now interpretation fs :
  Js.obj_get "data_retrieved_at" (annotateWith now interpretation fs)
  = JStr (Js.toISOString now).
Proof.
  unfold annotateWith, stamp.
  destruct (Js.truthy _); rewrite ?obj_get_set_ne by discriminate; apply obj_get_set_eq.
Qed.

Lemma annotateWith_status now interpretation fs :
  Js.obj_get "status_interpretation" (annotateWith now interpretation fs) = interpretation.
Proof.
  unfold annotateWith, stamp.
  destruct (Js.truthy _); rewrite ?obj_get_set_ne by discriminate; apply obj_get_set_eq.
Qed.

Lemma annotateWith_age now interpretation fs :
  Js.obj_get "age_years" (annotateWith now interpretation fs)
  = if Js.truthy (Js.obj_get "date_of_creation" fs)
    then ageOf now (Js.obj_get "date_of_creation" fs)
    else Js.obj_get "age_years" fs.
Proof.
  unfold annotateWith, stamp. rewrite !obj_get_set_ne by discriminate.
  destruct (Js.truthy (Js.obj_get "date_of_creation" fs)).
  - apply obj_get_set_eq.
  - rewrite !obj_get_set_ne by discriminate. reflexivity.
Qed.

Lemma firstMissing_annotateWith now interpretation fs :
  firstMissing (annotateWith now interpretation fs) requiredFields
  = firstMissing fs requiredFields.
Proof.
  unfold firstMissing, requiredFields. cbn [List.find].
  rewrite !annotateWith_other by discriminate. reflexivity.
Qed.

(** An object that was annotated is annotated again with the same
    interpretation of its status, which the annotations do not touch. *)
Lemma annotate_inr now fs fs' :
  annotate now fs = inr fs' ->
  exists interpretation,
    interpretStatus (Js.obj_get "company_status" fs) = inr interpretation /\
    fs' = annotateWith now interpretation fs /\
    forall later, annotate later fs' = inr (annotateWith later interpretation fs').
Proof.
  unfold annotate. rewrite stamp_other by discriminate.
  destruct (interpretStatus (Js.obj_get "company_status" fs)) as [e | interpretation] eqn:Hi;
    [discriminate |].
  intros Hfs'. injection Hfs' as <-. exists interpretation.
  split; [reflexivity |]. split; [reflexivity |].
  intros later. rewrite stamp_other by discriminate.
  rewrite annotateWith_other by discriminate. rewrite Hi. reflexivity.
Qed.

(** C5, as the code has it.  After a [getCompanyDetails] call that returned
    a record, an identical call made while the cached entry is within the
    expiry window sends nothing to the registry and returns the same record
    object; every property of the record other than [data_retrieved_at] and
    [age_years] is what it was, [data_retrieved_at] is the time of the
    second call, and [age_years], when there is a date of creation, is the
    age at the second call, or [null] when no date can be made of the date
    of creation. *)
Theorem cached_details_are_annotated_anew number w r w1 entry later :
  getCompanyDetails number w = (Ok r, w1) ->
  cache w1 !! getCacheKey ("/company/" +:+ number) None = Some entry ->
  later - timestamp entry < cacheExpiry ->
  exists w2,
    getCompanyDetails number (set_clock later w1) = (Ok r, w2) /\
    fetched w2 = fetched w1 /\ upstream w2 = upstream w1 /\
    (forall k, k <> "data_retrieved_at" -> k <> "age_years" ->
               propertyOf w2 r k = propertyOf w1 r k) /\
    propertyOf w2 r "data_retrieved_at" = JStr (Js.toISOString later) /\
    (Js.truthy (propertyOf w1 r "date_of_creation") = true ->
     propertyOf w2 r "age_years" =
       match Js.Date_new (propertyOf w1 r "date_of_creation") with
       | inr creationDate => JNum (ageYears later creationDate)
       | inl _ => JNull
       end).
Proof.
  intros Hfirst Hentry Hfresh.
  unfold getCompanyDetails, getCompanyDetailsOf, observed in Hfirst.
  match type of Hfirst with
  | (let '(_, _) := ?m w in _) = _ => destruct (m w) as [o wb] eqn:Hinner
  end.
  injection Hfirst as -> <-.
  apply bind_ok in Hinner as (text & wt & Htext & Hinner).
  cbn [Js.ToString lift ret] in Htext. injection Htext as <- <-.
  apply bind_ok in Hinner as (l & wa & Hreq & Hval).
  apply makeRequest_on_ok in Hreq as (Hkey & cached & Hcached & Hdata).
  apply validateAndEnhanceCompanyData_returns in Hval
    as (fs & fs1 & Hl & Hmissing & Hfs1 & -> & ->).
  apply annotate_inr in Hfs1 as (interpretation & _ & Hfs1 & Hagain).
  cbn [cache set_calls set_heap] in Hentry. rewrite Hcached in Hentry.
  injection Hentry as <-. subst l.
  set (w1 := set_calls _ _).
  assert (Hl1 : heap (set_clock later w1) !! data cached = Some (JObj fs1))
    by (subst w1; cbn; eapply heap_insert_lookup, Hl).
  assert (Hhit : makeRequest ("/company/" +:+ number) None (set_clock later w1)
                 = (Ok (data cached), set_clock later w1)).
  { apply makeRequest_hit; [exact Hkey | exact Hcached | exact Hfresh]. }
  rewrite (getCompanyDetails_obj _ _ _ _ _ Hhit Hl1).
  cbn [clock set_clock]. rewrite Hagain.
  assert (Hmissing1 : firstMissing fs1 requiredFields = None)
    by (rewrite Hfs1, firstMissing_annotateWith; exact Hmissing).
  rewrite Hmissing1.
  eexists. split; [reflexivity |]. split; [reflexivity |]. split; [reflexivity |].
  assert (Hp1 : forall k, propertyOf w1 (data cached) k = Js.obj_get k fs1).
  { intros k. unfold propertyOf. subst w1. cbn [heap set_calls set_heap].
    rewrite (heap_insert_lookup _ _ _ _ Hl). reflexivity. }
  assert (Hp2 : forall k w3 cs,
            w3 = set_calls cs
                   (set_heap (<[data cached := JObj (annotateWith later interpretation fs1)]>
                                (heap (set_clock later w1))) (set_clock later w1)) ->
            propertyOf w3 (data cached) k
            = Js.obj_get k (annotateWith later interpretation fs1)).
  { intros k w3 cs ->. unfold propertyOf. cbn [heap set_calls set_heap].
    rewrite (heap_insert_lookup _ _ _ _ Hl1). reflexivity. }
  split; [| split].
  - intros k Hk1 Hk2. rewrite (Hp2 k _ _ eq_refl), Hp1.
    destruct (String.eqb_spec k "status_interpretation") as [-> | Hk3].
    + rewrite annotateWith_status, Hfs1, annotateWith_status. reflexivity.
    + apply annotateWith_other; assumption.
  - rewrite (Hp2 _ _ _ eq_refl). apply annotateWith_retrieved.
  - rewrite Hp1. intros Hdate.
    rewrite (Hp2 _ _ _ eq_refl), annotateWith_age, Hdate. reflexivity.
Qed.

End ClientFacts.

(** ** The claims at concrete runs *)

Section Witnesses.
Import CompaniesHouseService EnhancementService MemStorage Routes Run Client.

(** A bulk job over a known number and an unknown name ends [completed]. *)
Lemma terminal_status_witness :
  exists jobId outcomes job w',
    @bulkProcess Sample.host ["01234567"; "Zeta"] None (Sample.start Sample.may2024 8) =
      (Ok (Started jobId 2), w') /\
    List.map fst outcomes = ["01234567"; "Zeta"] /\
    processingJobs w' !! jobId = Some job /\
    jobStatus job = if existsb succeeded outcomes then completed else failed.
Proof.
  destruct (@terminal_status_reflects_successes Sample.host ["01234567"; "Zeta"] None
              (Sample.start Sample.may2024 8))
    as (jobId & outcomes & job & w' & Hrun & _ & Hmap & Hjob & Hstatus).
  - discriminate.
  - exists jobId, outcomes, job, w'. repeat split; assumption.
Defined.

Lemma counters_within_total_witness :
  exists jobId records final w',
    @bulkProcess Sample.host ["01234567"; "Zeta"] None (Sample.start Sample.may2024 8) =
      (Ok (Started jobId 2), w') /\
    Forall (fun job => id job = jobId /\ countersWithin 2 job) records /\
    processingJobs w' !! jobId = Some final /\
    processedItems final + failedItems final = totalItems final.
Proof.
  destruct (@counters_within_total Sample.host ["01234567"; "Zeta"] None
              (Sample.start Sample.may2024 8))
    as (jobId & records & final & w' & Hrun & _ & Hall & Hjob & _ & _ & Hsum).
  - discriminate.
  - exists jobId, records, final, w'. repeat split; assumption.
Defined.

Lemma item_failures_are_isolated_witness :
  exists outcomes final w',
    @processBulkCompanies Sample.host "job-0" ["Zeta"; "01234567"] defaultOptions
      Sample.withJob = (Ok tt, w') /\
    List.map fst outcomes = ["Zeta"; "01234567"] /\
    processingJobs w' !! "job-0" = Some final /\
    errorLog final = Some (loggedBy outcomes).
Proof.
  destruct (@item_failures_are_isolated Sample.host "job-0" ["Zeta"; "01234567"]
              defaultOptions Sample.withJob
              (@createdJob Sample.host ["Zeta"; "01234567"] None
                 (Sample.start Sample.may2024 8)))
    as (outcomes & final & w' & Hrun & _ & Hmap & Hjob & Hlog & _).
  - vm_compute. reflexivity.
  - exists outcomes, final, w'. repeat split; assumption.
Defined.

Lemma status_moves_forward_witness :
  exists jobId records terminal finishedAt w',
    @bulkProcess Sample.host ["01234567"; "Zeta"] None (Sample.start Sample.may2024 8) =
      (Ok (Started jobId 2), w') /\
    List.map jobStatus records = [pending; processing; processing; processing; terminal] /\
    List.map completedAt records = [None; None; None; None; Some finishedAt].
Proof.
  destruct (@status_moves_forward_completedAt_once Sample.host ["01234567"; "Zeta"] None
              (Sample.start Sample.may2024 8))
    as (jobId & records & terminal & finishedAt & w' & Hrun & _ & _ & Hst & _ & Hc).
  - discriminate.
  - exists jobId, records, terminal, finishedAt, w'. repeat split; assumption.
Defined.

(** The record 01234567 was created on 2015-06-01: looked up on
    2024-05-01, its age is between 8.91 and 8.92 years. *)
Lemma age_in_years_or_NaN_witness :
  exists w' age,
    @getCompanyDetails Sample.host "01234567" (Sample.start Sample.may2024 1) = (Ok 0%nat, w') /\
    propertyOf w' 0 "age_years" = JNum age /\
    PrimFloat.ltb 8.91 age = true /\ PrimFloat.ltb age 8.92 = true.
Proof.
  destruct (@age_in_years_or_NaN Sample.host "01234567" (Sample.start Sample.may2024 1) 0%nat
              (snd (@makeRequest Sample.host "/company/01234567" None
                      (Sample.start Sample.may2024 1)))
              [("company_name", JStr "ACME ROOFING LIMITED");
               ("company_number", JStr "01234567");
               ("company_status", JStr "active");
               ("date_of_creation", JStr "2015-06-01");
               ("type", JStr "ltd");
               ("sic_codes", JArr [JStr "43910"; JStr "abc"])]
              "active")
    as (w' & Hrun & Hage).
  - vm_compute. reflexivity.
  - vm_compute. reflexivity.
  - vm_compute. reflexivity.
  - vm_compute. reflexivity.
  - vm_compute. reflexivity.
  - exists w'.
    exists ((Num.of_Z (Sample.may2024 + 40) - Num.of_Z 1433116800000) / 31557600000)%float.
    split; [exact Hrun |]. split; [| split; vm_compute; reflexivity].
    rewrite Hage. vm_compute. reflexivity.
Defined.

(** The record 00000000 has the empty string for a name. *)
Lemma falsy_required_field_witness :
  exists missing w',
    @getCompanyDetails Sample.host "00000000" (Sample.start Sample.may2024 1) =
      (Throw (Error ("Missing required field: " +:+ missing)), w').
Proof.
  destruct (@falsy_required_field_is_missing Sample.host "00000000"
              (Sample.start Sample.may2024 1) 0%nat
              (snd (@makeRequest Sample.host "/company/00000000" None
                      (Sample.start Sample.may2024 1)))
              [("company_name", JStr "");
               ("company_number", JStr "00000000");
               ("company_status", JStr "active")]
              "company_name")
    as (missing & w' & _ & _ & Hrun & _).
  - vm_compute. reflexivity.
  - vm_compute. reflexivity.
  - left. reflexivity.
  - vm_compute. reflexivity.
  - exists missing, w'. exact Hrun.
Defined.

(** A second lookup of 01234567 one second after the first. *)
Lemma cached_details_witness :
  let w := Sample.start Sample.may2024 1 in
  let w1 := snd (@getCompanyDetails Sample.host "01234567" w) in
  exists w2,
    @getCompanyDetails Sample.host "01234567" (set_clock (Sample.may2024 + 1040) w1)
      = (Ok 0%nat, w2) /\
    fetched w2 = fetched w1.
Proof.
  cbv zeta.
  destruct (@cached_details_are_annotated_anew Sample.host "01234567"
              (Sample.start Sample.may2024 1) 0%nat
              (snd (@getCompanyDetails Sample.host "01234567" (Sample.start Sample.may2024 1)))
              {| timestamp := Sample.may2024 + 40; data := 0 |}
              (Sample.may2024 + 1040))
    as (w2 & Hrun & Hfetched & _).
  - vm_compute. reflexivity.
  - vm_compute. reflexivity.
  - vm_compute. reflexivity.
  - exists w2. split; [exact Hrun | exact Hfetched].
Defined.

(** C5, as stated, fails.  The first lookup of 01234567 takes 40 ms and
    returns the record stamped with that time.  The second, one second
    later, is served from the cache without a request to the registry, and
    [validateAndEnhanceCompanyData] stamps the cached object again: the
    record it returns carries another [data_retrieved_at] than the record the
    first call returned. *)
Lemma cached_details_are_not_identical :
  let w := Sample.start Sample.may2024 1 in
  exists r w1 w2,
    @getCompanyDetails Sample.host "01234567" w = (Ok r, w1) /\
    cache w1 !! getCacheKey "/company/01234567" None
      = Some {| timestamp := Sample.may2024 + 40; data := r |} /\
    @getCompanyDetails Sample.host "01234567" (set_clock (clock w1 + 1000) w1) = (Ok r, w2) /\
    clock w1 + 1000 - (Sample.may2024 + 40) < cacheExpiry /\
    fetched w2 = fetched w1 /\
    propertyOf w1 r "data_retrieved_at" = JStr "2024-05-01T00:00:00.040Z" /\
    propertyOf w2 r "data_retrieved_at" = JStr "2024-05-01T00:00:01.040Z" /\
    heap w2 !! r <> heap w1 !! r.
Proof.
  cbv zeta.
  exists 0%nat.
  exists (snd (@getCompanyDetails Sample.host "01234567" (Sample.start Sample.may2024 1))).
  eexists.
  split; [vm_compute; reflexivity |].
  split; [vm_compute; reflexivity |].
  split; [vm_compute; reflexivity |].
  split; [vm_compute; reflexivity |].
  split; [vm_compute; reflexivity |].
  split; [vm_compute; reflexivity |].
  split; [vm_compute; reflexivity |].
  intros Heq.
  apply (f_equal (fun o => match o with
                           | Some (JObj fs) =>
                               match Js.obj_get "data_retrieved_at" fs with
                               | JStr s => String.eqb s "2024-05-01T00:00:00.040Z"
                               | _ => false
                               end
                           | _ => false
                           end)) in Heq.
  vm_compute in Heq. discriminate Heq.
Qed.

End Witnesses.

(** * Further properties of the code *)

(** ** Requests, the cache and the rate limit *)

(** Reads the fields of a state built by the setters. *)
Ltac world :=
  unfold Requests.continues;
  cbn [clock upstream uuids heap lastRequestTime cache companies processingJobs fetched
       calls attempts written set_clock set_upstream set_uuids set_heap
       set_lastRequestTime set_cache set_companies set_processingJobs set_fetched
       set_calls set_attempts set_written snd fst].

Section RequestFacts.
Context `{Host}.
Import CompaniesHouseService Requests Client.

Lemma timer_delay_positive d : 1 <= timer_delay d.
Proof.
  unfold timer_delay. destruct d as [d |]; [| lia].
  destruct (Z.ltb_spec d 1), (Z.ltb_spec 2147483647 d); cbn; lia.
Qed.

(** The rate limit moves nothing but the clock, and only forward. *)
Lemma enforceRateLimit_clock w :
  exists pause, 0 <= pause /\
    enforceRateLimit w = (Ok tt, set_clock (clock w + pause) w) /\
    (lastRequestTime w <= clock w ->
     lastRequestTime w + minRequestInterval <= clock w + pause).
Proof.
  unfold enforceRateLimit, bind, reads, sleep, modify, ret.
  destruct (Z.ltb_spec (clock w - lastRequestTime w) minRequestInterval) as [Hlt | Hge].
  - exists (timer_delay (Some (minRequestInterval - (clock w - lastRequestTime w)))).
    pose proof (timer_delay_positive
                  (Some (minRequestInterval - (clock w - lastRequestTime w)))) as Hpos.
    split; [lia |]. split; [reflexivity |]. intros Hle.
    unfold timer_delay, minRequestInterval in *.
    destruct (Z.ltb_spec (500 - (clock w - lastRequestTime w)) 1),
             (Z.ltb_spec 2147483647 (500 - (clock w - lastRequestTime w))); cbn; lia.
  - exists 0. split; [lia |]. split; [| lia].
    destruct w; cbn. rewrite Z.add_0_r. reflexivity.
Qed.

(** One round of [makeRequest] when the cache has nothing fresh to serve. *)
Lemma makeRequest_on_miss x rest endpoint params w :
  String.eqb apiKey "" = false ->
  fresh w (getCacheKey endpoint params) = false ->
  let req := request_for endpoint params in
  let key := getCacheKey endpoint params in
  let w2 := answered x rest req w in
  let w3 := set_lastRequestTime (clock w2) w2 in
  makeRequest_on (x :: rest) endpoint params w =
    match Http.respond x req with
    | inl e => (Throw e, w2)
    | inr r =>
        if Http.status r =? 429
        then makeRequest_on rest endpoint params (snd (sleep (retryDelay r) w3))
        else if negb (Http.ok r)
        then (Throw (statusError r), w3)
        else match Http.json r with
             | inl e => (Throw e, w3)
             | inr body =>
                 (Ok (List.length (heap w3)),
                  set_cache (<[key := {| timestamp := clock w3;
                                         data := List.length (heap w3) |}]> (cache w3))
                    (set_heap (heap w3 ++ [body]) w3))
             end
    end.
Proof.
  intros Hkey Hfresh. cbv zeta. cbn [makeRequest_on]. rewrite Hkey.
  unfold bind at 1. unfold isValidCache at 1, reads at 1.
  unfold fresh in Hfresh. rewrite Hfresh.
  unfold answered.
  destruct (enforceRateLimit_clock w) as (pause & _ & Hgate & _).
  unfold bind at 1. rewrite Hgate. cbn [snd].
  unfold bind at 1. unfold modify at 1.
  unfold bind at 1. unfold lift at 1.
  destruct (Http.respond x (request_for endpoint params)) as [e | r]; [reflexivity |].
  cbn [ret]. unfold bind at 1. unfold modify at 1.
  destruct (Http.status r =? 429) eqn:H429.
  - unfold bind at 1. reflexivity.
  - unfold statusError. destruct (negb (Http.ok r)).
    + destruct (Http.status r =? 404); reflexivity.
    + unfold bind at 1. unfold lift at 1.
      destruct (Http.json r) as [e | body]; reflexivity.
Qed.

Lemma makeRequest_on_exhausted endpoint params w :
  String.eqb apiKey "" = false ->
  fresh w (getCacheKey endpoint params) = false ->
  makeRequest_on [] endpoint params w = (Throw fetch_failed, snd (enforceRateLimit w)).
Proof.
  intros Hkey Hfresh. cbn [makeRequest_on]. rewrite Hkey.
  unfold bind at 1. unfold isValidCache at 1, reads at 1.
  unfold fresh in Hfresh. rewrite Hfresh.
  destruct (enforceRateLimit_clock w) as (pause & _ & Hgate & _).
  unfold bind. rewrite Hgate. reflexivity.
Qed.

Lemma makeRequest_on_served script endpoint params w :
  String.eqb apiKey "" = false ->
  fresh w (getCacheKey endpoint params) = true ->
  makeRequest_on script endpoint params w =
    (Ok (default 0%nat (data <$> cache w !! getCacheKey endpoint params)), w).
Proof.
  intros Hkey Hfresh. unfold fresh in Hfresh.
  destruct script; cbn [makeRequest_on]; rewrite Hkey;
    unfold bind, isValidCache, reads; rewrite Hfresh; reflexivity.
Qed.

Lemma makeRequest_on_keyless script endpoint params w :
  String.eqb apiKey "" = true ->
  makeRequest_on script endpoint params w =
    (Throw (Error "Companies House API key not configured"), w).
Proof. intros Hkey. destruct script; cbn [makeRequest_on]; rewrite Hkey; reflexivity. Qed.

#[local] Instance continues_preorder req key : PreOrder (continues req key).
Proof.
  split.
  - intros w. unfold continues. split; [lia |].
    split; [exists []; rewrite app_nil_r; split; [reflexivity | constructor] |].
    split; [exists []; rewrite app_nil_r; reflexivity |].
    split; [reflexivity | lia].
  - intros a b c (Hc1 & (m1 & Hf1 & Hm1) & (h1 & Hh1) & Hk1 & Hl1)
                 (Hc2 & (m2 & Hf2 & Hm2) & (h2 & Hh2) & Hk2 & Hl2).
    unfold continues. split; [lia |].
    split; [exists (m1 ++ m2); rewrite Hf2, Hf1, app_assoc; split;
            [reflexivity | apply Forall_app; split; assumption] |].
    split; [exists (h1 ++ h2); rewrite Hh2, Hh1, app_assoc; reflexivity |].
    split; [intros k Hk; rewrite Hk2, Hk1 by exact Hk; reflexivity |].
    intros Hle. destruct (Hl1 Hle) as (Ha & Hb). destruct (Hl2 Hb) as (Hc & Hd). lia.
Qed.

Lemma continues_answered x rest endpoint params w :
  continues (request_for endpoint params) (getCacheKey endpoint params) w
    (answered x rest (request_for endpoint params) w).
Proof.
  unfold answered. destruct (enforceRateLimit_clock w) as (pause & Hpause & Hgate & _).
  rewrite Hgate. world.
  split; [lia |].
  split; [eexists; split; [reflexivity | repeat constructor] |].
  split; [exists []; rewrite app_nil_r; reflexivity |].
  split; [reflexivity | lia].
Qed.

(** Whatever [makeRequest] does, and however it ends. *)
Lemma makeRequest_on_continues script endpoint params w :
  continues (request_for endpoint params) (getCacheKey endpoint params) w
    (snd (makeRequest_on script endpoint params w)).
Proof.
  revert w. induction script as [| x rest IH]; intros w;
    destruct (String.eqb apiKey "") eqn:Hkey;
    try (rewrite makeRequest_on_keyless by exact Hkey; reflexivity);
    destruct (fresh w (getCacheKey endpoint params)) eqn:Hfresh;
    try (rewrite makeRequest_on_served by assumption; reflexivity).
  - rewrite makeRequest_on_exhausted by assumption.
    destruct (enforceRateLimit_clock w) as (pause & Hpause & Hgate & _).
    rewrite Hgate. world. split; [lia |].
    split; [exists []; rewrite app_nil_r; split; [reflexivity | constructor] |].
    split; [exists []; rewrite app_nil_r; reflexivity |].
    split; [reflexivity | lia].
  - rewrite makeRequest_on_miss by assumption. cbv zeta.
    pose proof (continues_answered x rest endpoint params w) as Hsent.
    set (w2 := answered x rest (request_for endpoint params) w) in *.
    assert (Hstamp : continues (request_for endpoint params) (getCacheKey endpoint params)
                       w2 (set_lastRequestTime (clock w2) w2)).
    { world. split; [lia |].
      split; [exists []; rewrite app_nil_r; split; [reflexivity | constructor] |].
      split; [exists []; rewrite app_nil_r; reflexivity |].
      split; [reflexivity | lia]. }
    destruct (Http.respond x (request_for endpoint params)) as [e | r]; [exact Hsent |].
    destruct (Http.status r =? 429).
    + etransitivity; [exact Hsent |]. etransitivity; [exact Hstamp |].
      etransitivity; [| apply IH].
      unfold sleep, modify. world.
      pose proof (timer_delay_positive (retryDelay r)).
      split; [lia |].
      split; [exists []; rewrite app_nil_r; split; [reflexivity | constructor] |].
      split; [exists []; rewrite app_nil_r; reflexivity |].
      split; [reflexivity | lia].
    + destruct (negb (Http.ok r)); [etransitivity; eassumption |].
      destruct (Http.json r) as [e | body]; [etransitivity; eassumption |].
      etransitivity; [exact Hsent |]. etransitivity; [exact Hstamp |].
      world. split; [lia |].
      split; [exists []; rewrite app_nil_r; split; [reflexivity | constructor] |].
      split; [eexists; reflexivity |].
      split; [intros k Hk; apply lookup_insert_ne; congruence | lia].
Qed.

(** While nothing fresh is cached, a request that returns hands out a new
    payload and leaves it in the cache, stamped with the time it arrived. *)
Lemma makeRequest_on_fetches script endpoint params w l w' :
  fresh w (getCacheKey endpoint params) = false ->
  makeRequest_on script endpoint params w = (Ok l, w') ->
  (List.length (heap w) <= l)%nat /\
  cache w' !! getCacheKey endpoint params = Some {| timestamp := clock w'; data := l |} /\
  is_Some (heap w' !! l).
Proof.
  revert w. induction script as [| x rest IH]; intros w Hfresh Hrun;
    (destruct (String.eqb apiKey "") eqn:Hkey;
      [rewrite makeRequest_on_keyless in Hrun by exact Hkey; discriminate Hrun |]).
  - rewrite makeRequest_on_exhausted in Hrun by assumption. discriminate Hrun.
  - rewrite makeRequest_on_miss in Hrun by assumption. cbv zeta in Hrun.
    set (w2 := answered x rest (request_for endpoint params) w) in *.
    assert (Hw2 : heap w2 = heap w /\ cache w2 = cache w /\ clock w <= clock w2).
    { subst w2. unfold answered.
      destruct (enforceRateLimit_clock w) as (pause & Hpause & Hgate & _).
      rewrite Hgate. world. repeat split. lia. }
    destruct Hw2 as (Hheap & Hcache & Hclock). clearbody w2.
    destruct (Http.respond x (request_for endpoint params)) as [e | r]; [discriminate Hrun |].
    destruct (Http.status r =? 429).
    + apply IH in Hrun.
      * unfold sleep, modify in Hrun. world. cbn [heap set_clock set_lastRequestTime snd] in Hrun.
        rewrite Hheap in Hrun. exact Hrun.
      * unfold fresh in *. unfold sleep, modify. world. rewrite Hcache.
        destruct (cache w !! getCacheKey endpoint params) as [cached |]; [| reflexivity].
        pose proof (timer_delay_positive (retryDelay r)).
        apply Z.ltb_ge. apply Z.ltb_ge in Hfresh. lia.
    + destruct (negb (Http.ok r)); [discriminate Hrun |].
      destruct (Http.json r) as [e | body]; [discriminate Hrun |].
      injection Hrun as <- <-. world. rewrite Hheap.
      split; [lia |]. split; [apply lookup_insert_eq |].
      exists body. rewrite lookup_app_r by lia. rewrite Nat.sub_diag. reflexivity.
Qed.

Lemma makeRequest_on_throws script endpoint params w e w' :
  makeRequest_on script endpoint params w = (Throw e, w') -> cache w' = cache w.
Proof.
  revert w. induction script as [| x rest IH]; intros w Hrun;
    (destruct (String.eqb apiKey "") eqn:Hkey;
      [rewrite makeRequest_on_keyless in Hrun by exact Hkey; injection Hrun as _ <-;
       reflexivity |]);
    (destruct (fresh w (getCacheKey endpoint params)) eqn:Hfresh;
      [rewrite makeRequest_on_served in Hrun by assumption; discriminate Hrun |]).
  - rewrite makeRequest_on_exhausted in Hrun by assumption. injection Hrun as _ <-.
    destruct (enforceRateLimit_clock w) as (pause & _ & Hgate & _). rewrite Hgate. reflexivity.
  - rewrite makeRequest_on_miss in Hrun by assumption. cbv zeta in Hrun.
    set (w2 := answered x rest (request_for endpoint params) w) in *.
    assert (Hcache : cache w2 = cache w).
    { subst w2. unfold answered.
      destruct (enforceRateLimit_clock w) as (pause & _ & Hgate & _).
      rewrite Hgate. reflexivity. }
    destruct (Http.respond x (request_for endpoint params)) as [e0 | r];
      [injection Hrun as _ <-; exact Hcache |].
    destruct (Http.status r =? 429).
    + apply IH in Hrun. rewrite Hrun. exact Hcache.
    + destruct (negb (Http.ok r)); [injection Hrun as _ <-; exact Hcache |].
      destruct (Http.json r) as [e0 | body]; [injection Hrun as _ <-; exact Hcache |].
      discriminate Hrun.
Qed.

Lemma get_prop_reads l k w :
  get_prop l k w = (fst (get_prop l k w), w).
Proof.
  unfold get_prop, bind, deref, reads, lift.
  destruct (Js.get (default JUndefined (heap w !! l)) k); reflexivity.
Qed.

Lemma get_prop_heap l k w w' :
  heap w' = heap w -> fst (get_prop l k w') = fst (get_prop l k w).
Proof.
  intros Hheap. unfold get_prop, bind, deref, reads, lift. rewrite Hheap.
  destruct (Js.get (default JUndefined (heap w !! l)) k); reflexivity.
Qed.

(** X1. A search that returned, repeated with the same query while its
    cache entry is within the expiry window, returns the same results and
    does nothing but note the call: no request is sent, the clock and the
    rate limiter stay as they are. *)
Theorem repeated_search_is_served_from_cache query w results w1 entry later :
  searchCompany query w = (Ok results, w1) ->
  cache w1 !! getCacheKey "/search/companies" (Some (searchParams query)) = Some entry ->
  later - timestamp entry < cacheExpiry ->
  searchCompany query (set_clock later w1) =
    (Ok results, set_calls (calls w1 ++ [Searched query (Some results)]) (set_clock later w1)).
Proof.
  intros Hfirst Hentry Hfresh. unfold searchCompany, observed in *.
  match type of Hfirst with
  | (let '(o, w') := ?m w in _) = _ => set (inner := m) in *
  end.
  destruct (inner w) as [o wa] eqn:Hinner. injection Hfirst as -> <-.
  subst inner. apply bind_ok in Hinner as (l & wb & Hreq & Hitems).
  apply bind_ok in Hitems as (items & wc & Hget & Hret).
  unfold ret in Hret. injection Hret as Hresults <-.
  rewrite get_prop_reads in Hget. injection Hget as Hitems <-.
  apply makeRequest_on_ok in Hreq as (Hkey & cached & Hcached & Hdata).
  cbn [cache set_calls] in Hentry. rewrite Hcached in Hentry. injection Hentry as <-.
  unfold bind at 1.
  rewrite (makeRequest_hit _ _ (set_clock later (set_calls _ wb)) cached Hkey Hcached Hfresh).
  unfold bind at 1. rewrite get_prop_reads.
  rewrite (get_prop_heap _ _ wb) by reflexivity.
  rewrite Hdata, Hitems. cbn [ret]. rewrite Hresults. reflexivity.
Qed.

(** A request that is not served from the cache is sent when the registry
    is within reach. *)
Lemma makeRequest_on_sends endpoint params w x rest :
  String.eqb apiKey "" = false ->
  fresh w (getCacheKey endpoint params) = false ->
  exists more,
    fetched (snd (makeRequest_on (x :: rest) endpoint params w))
      = fetched w ++ request_for endpoint params :: more.
Proof.
  intros Hkey Hfresh. rewrite makeRequest_on_miss by assumption. cbv zeta.
  set (w2 := answered x rest (request_for endpoint params) w).
  assert (Hsent : fetched w2 = fetched w ++ [request_for endpoint params]).
  { subst w2. unfold answered.
    destruct (enforceRateLimit_clock w) as (pause & _ & Hgate & _). rewrite Hgate.
    reflexivity. }
  assert (Hgoes : forall w3 wz,
            fetched w3 = fetched w2 ->
            continues (request_for endpoint params) (getCacheKey endpoint params) w3 wz ->
            exists more, fetched wz = fetched w ++ request_for endpoint params :: more).
  { intros w3 wz H3 (_ & (more & Hmore & _) & _).
    exists more. rewrite Hmore, H3, Hsent, <- app_assoc. reflexivity. }
  destruct (Http.respond x (request_for endpoint params)) as [e | r].
  - exists []. exact Hsent.
  - destruct (Http.status r =? 429).
    + eapply Hgoes; [| apply makeRequest_on_continues]. reflexivity.
    + destruct (negb (Http.ok r)); [exists []; exact Hsent |].
      destruct (Http.json r); exists []; exact Hsent.
Qed.

(** X2. An entry of the cache that is as old as the expiry window or older
    is not served: with the registry within reach the request is sent, and
    when the call returns, it returns a payload built after the call began,
    which the cache now holds under the key, stamped with the time of its
    arrival. *)
Theorem expired_entry_is_fetched_again endpoint params w x rest :
  String.eqb apiKey "" = false ->
  (forall entry, cache w !! getCacheKey endpoint params = Some entry ->
                 cacheExpiry <= clock w - timestamp entry) ->
  upstream w = x :: rest ->
  (exists more,
     fetched (snd (makeRequest endpoint params w))
       = fetched w ++ request_for endpoint params :: more) /\
  (forall l w', makeRequest endpoint params w = (Ok l, w') ->
     (List.length (heap w) <= l)%nat /\
     cache w' !! getCacheKey endpoint params = Some {| timestamp := clock w'; data := l |}).
Proof.
  intros Hkey Hstale Hup.
  assert (Hfresh : fresh w (getCacheKey endpoint params) = false).
  { unfold fresh. destruct (cache w !! getCacheKey endpoint params) as [cached |] eqn:Hc;
      [| reflexivity].
    apply Z.ltb_ge. apply Hstale. reflexivity. }
  split.
  - unfold makeRequest. rewrite Hup. apply makeRequest_on_sends; assumption.
  - intros l w' Hrun. unfold makeRequest in Hrun.
    apply makeRequest_on_fetches in Hrun; [| exact Hfresh].
    split; apply Hrun.
Qed.

(** X3. Only an answer that was fetched and parsed is cached: a call of
    [makeRequest] that throws leaves the cache as it was, a call that returns
    leaves what it returns under the key of the request, and no call touches
    the entry of another key. *)
Theorem only_successful_responses_are_cached endpoint params w :
  let key := getCacheKey endpoint params in
  let '(o, w') := makeRequest endpoint params w in
  (forall k, k <> key -> cache w' !! k = cache w !! k) /\
  match o with
  | Throw _ => cache w' = cache w
  | Ok l => exists entry, cache w' !! key = Some entry /\ data entry = l
  end.
Proof.
  cbv zeta. unfold makeRequest.
  pose proof (makeRequest_on_continues (upstream w) endpoint params w) as (_ & _ & _ & Hk & _).
  destruct (makeRequest_on (upstream w) endpoint params w) as [[l | e] w'] eqn:Hrun;
    cbn [snd] in Hk; (split; [exact Hk |]).
  - apply makeRequest_on_ok in Hrun. apply Hrun.
  - eapply makeRequest_on_throws, Hrun.
Qed.

(** X4. Of one call of [makeRequest] that no other call overlaps: when
    the call has to send a request and is answered, the answer arrives at
    least the minimum interval and the latency of the round trip after the
    last answer noted before the call, because the call waits until 500 ms
    have gone by since that answer.  Calls that overlap are not spaced by
    the code, which notes the time of an answer only when it arrives: two
    calls that start before either is answered both pass the wait. *)
Theorem answers_are_spaced endpoint params w x rest r :
  String.eqb apiKey "" = false ->
  fresh w (getCacheKey endpoint params) = false ->
  lastRequestTime w <= clock w ->
  upstream w = x :: rest ->
  Http.respond x (request_for endpoint params) = inr r ->
  let w' := snd (makeRequest endpoint params w) in
  lastRequestTime w + minRequestInterval + Z.of_nat (Http.latency x) <= lastRequestTime w' /\
  lastRequestTime w' <= clock w'.
Proof.
  intros Hkey Hfresh Hle Hup Hresp. cbv zeta. unfold makeRequest. rewrite Hup.
  rewrite makeRequest_on_miss by assumption. cbv zeta. rewrite Hresp.
  set (w2 := answered x rest (request_for endpoint params) w).
  assert (Hw2 : lastRequestTime w + minRequestInterval + Z.of_nat (Http.latency x)
                <= clock w2).
  { subst w2. unfold answered.
    destruct (enforceRateLimit_clock w) as (pause & _ & Hgate & Hwait). rewrite Hgate.
    specialize (Hwait Hle). world. lia. }
  set (w3 := set_lastRequestTime (clock w2) w2).
  assert (Hgoes : forall w4 wz,
            lastRequestTime w4 = clock w2 -> clock w2 <= clock w4 ->
            continues (request_for endpoint params) (getCacheKey endpoint params) w4 wz ->
            lastRequestTime w + minRequestInterval + Z.of_nat (Http.latency x)
              <= lastRequestTime wz /\ lastRequestTime wz <= clock wz).
  { intros w4 wz H4 Hc4 (_ & _ & _ & _ & Hmono).
    destruct Hmono as (Ha & Hb); [lia |]. lia. }
  destruct (Http.status r =? 429).
  - eapply Hgoes; [| | apply makeRequest_on_continues].
    + reflexivity.
    + subst w3. unfold sleep, modify. world.
      pose proof (timer_delay_positive (retryDelay r)). lia.
  - destruct (negb (Http.ok r)); [subst w3; world; lia |].
    destruct (Http.json r); subst w3; world; lia.
Qed.

(** X5. A registry that answers 429 some number of times and then answers
    with a payload is asked again after each 429, with the same request, and
    the caller gets the payload: no error reaches it. *)
Theorem rate_limited_request_is_repeated endpoint params busy good rest body :
  let req := request_for endpoint params in
  String.eqb apiKey "" = false ->
  Forall (fun x => exists r, Http.respond x req = inr r /\ Http.status r = 429) busy ->
  (exists r, Http.respond good req = inr r /\ Http.ok r = true /\ Http.json r = inr body) ->
  forall w,
    cache w !! getCacheKey endpoint params = None ->
    upstream w = busy ++ good :: rest ->
    exists w',
      makeRequest endpoint params w = (Ok (List.length (heap w)), w') /\
      fetched w' = fetched w ++ repeat req (S (List.length busy)) /\
      upstream w' = rest /\
      heap w' = heap w ++ [body].
Proof.
  cbv zeta. intros Hkey Hbusy (r & Hresp & Hok & Hjson).
  induction Hbusy as [| x busy (rb & Hrb & H429) _ IH]; intros w Hnone Hup.
  - unfold makeRequest. rewrite Hup. cbn [app].
    assert (Hfresh : fresh w (getCacheKey endpoint params) = false)
      by (unfold fresh; rewrite Hnone; reflexivity).
    rewrite makeRequest_on_miss by assumption. cbv zeta. rewrite Hresp.
    assert (Hnot : (Http.status r =? 429) = false).
    { unfold Http.ok in Hok. apply andb_true_iff in Hok as (_ & Hhi).
      apply Z.leb_le in Hhi. apply Z.eqb_neq. lia. }
    rewrite Hnot, Hok, Hjson. cbn [negb].
    unfold answered. destruct (enforceRateLimit_clock w) as (pause & _ & Hgate & _).
    rewrite Hgate. eexists. split; [reflexivity |]. world. repeat split.
  - unfold makeRequest. rewrite Hup. cbn [app].
    assert (Hfresh : fresh w (getCacheKey endpoint params) = false)
      by (unfold fresh; rewrite Hnone; reflexivity).
    rewrite makeRequest_on_miss by assumption. cbv zeta. rewrite Hrb, H429. cbn [Z.eqb Pos.eqb].
    set (w4 := snd (sleep (retryDelay rb) _)).
    assert (Hw4 : cache w4 = cache w /\ upstream w4 = busy ++ good :: rest /\
                  heap w4 = heap w /\
                  fetched w4 = fetched w ++ [request_for endpoint params]).
    { subst w4. unfold sleep, modify, answered.
      destruct (enforceRateLimit_clock w) as (pause & _ & Hgate & _). rewrite Hgate.
      world. repeat split. }
    destruct Hw4 as (Hc4 & Hu4 & Hh4 & Hf4).
    destruct (IH w4) as (w' & Hrun & Hf & Hu & Hh); [rewrite Hc4; exact Hnone | exact Hu4 |].
    unfold makeRequest in Hrun. rewrite Hu4 in Hrun.
    exists w'. rewrite Hh4 in Hrun, Hh. split; [exact Hrun |].
    split; [| split; assumption].
    rewrite Hf, Hf4, <- app_assoc. reflexivity.
Qed.

End RequestFacts.

Section RequestWitnesses.
Import CompaniesHouseService Requests.

(** A search for ACME, and the same search a minute later. *)
Lemma repeated_search_witness :
  let w1 := snd (@searchCompany Sample.host "ACME" (Sample.start Sample.may2024 1)) in
  exists results w2,
    @searchCompany Sample.host "ACME" (set_clock (Sample.may2024 + 60000) w1) = (Ok results, w2) /\
    fetched w2 = fetched w1 /\ lastRequestTime w2 = lastRequestTime w1.
Proof.
  cbv zeta.
  exists (JArr [JObj [("title", JStr "ACME ROOFING LIMITED"); ("company_number", JStr "01234567")]]).
  eexists. split.
  - apply (@repeated_search_is_served_from_cache Sample.host "ACME"
             (Sample.start Sample.may2024 1) _
             (snd (@searchCompany Sample.host "ACME" (Sample.start Sample.may2024 1)))
             {| timestamp := Sample.may2024 + 40; data := 0 |}
             (Sample.may2024 + 60000)).
    + vm_compute. reflexivity.
    + vm_compute. reflexivity.
    + vm_compute. reflexivity.
  - split; reflexivity.
Defined.

(** The record 01234567 is fetched, and asked for again when its entry is
    exactly as old as the expiry window. *)
Lemma expired_entry_witness :
  let w1 := snd (@makeRequest Sample.host "/company/01234567" None
                   (Sample.start Sample.may2024 2)) in
  let w := set_clock (clock w1 + cacheExpiry) w1 in
  exists more,
    fetched (snd (@makeRequest Sample.host "/company/01234567" None w))
      = fetched w ++ request_for "/company/01234567" None :: more.
Proof.
  cbv zeta.
  destruct (@expired_entry_is_fetched_again Sample.host "/company/01234567" None
              (set_clock
                 (clock (snd (@makeRequest Sample.host "/company/01234567" None
                                (Sample.start Sample.may2024 2))) + cacheExpiry)
                 (snd (@makeRequest Sample.host "/company/01234567" None
                         (Sample.start Sample.may2024 2))))
              Sample.exchange [])
    as (Hsent & _).
  - reflexivity.
  - intros entry Hentry. vm_compute in Hentry. injection Hentry as <-.
    vm_compute. discriminate.
  - vm_compute. reflexivity.
  - exact Hsent.
Defined.

(** Two records asked for one after the other. *)
Lemma answers_are_spaced_witness :
  let w := snd (@makeRequest Sample.host "/company/01234567" None
                  (Sample.start Sample.may2024 2)) in
  let w' := snd (@makeRequest Sample.host "/company/07654321" None w) in
  lastRequestTime w + minRequestInterval + 40 <= lastRequestTime w'.
Proof.
  cbv zeta.
  destruct (@answers_are_spaced Sample.host "/company/07654321" None
              (snd (@makeRequest Sample.host "/company/01234567" None
                      (Sample.start Sample.may2024 2)))
              Sample.exchange [] (Sample.response 200 "OK" Sample.undated))
    as (Hspaced & _).
  - reflexivity.
  - vm_compute. reflexivity.
  - vm_compute. discriminate.
  - vm_compute. reflexivity.
  - vm_compute. reflexivity.
  - exact Hspaced.
Defined.

(** Two answers of 429, then the record. *)
Lemma rate_limited_request_witness :
  let w := set_upstream [Sample.busy; Sample.busy; Sample.exchange]
             (Sample.start Sample.may2024 0) in
  exists w',
    @makeRequest Sample.host "/company/01234567" None w = (Ok 0%nat, w') /\
    fetched w' = repeat (request_for "/company/01234567" None) 3.
Proof.
  cbv zeta.
  destruct (@rate_limited_request_is_repeated Sample.host "/company/01234567" None
              [Sample.busy; Sample.busy] Sample.exchange [] Sample.acme)
    with (w := set_upstream [Sample.busy; Sample.busy; Sample.exchange]
                 (Sample.start Sample.may2024 0))
    as (w' & Hrun & Hsent & _).
  - reflexivity.
  - repeat constructor; eexists; split; reflexivity.
  - eexists. repeat split; reflexivity.
  - vm_compute. reflexivity.
  - reflexivity.
  - exists w'. split; [exact Hrun | exact Hsent].
Defined.

End RequestWitnesses.

(** ** The job processor among the jobs *)

#[local] Instance other_jobs_preorder jobId : PreOrder (Bulk.other_jobs jobId).
Proof.
  split.
  - intros w j _. reflexivity.
  - intros a b c Hab Hbc j Hj. rewrite (Hbc j Hj). apply Hab, Hj.
Qed.

#[local] Instance idle_preorder : PreOrder Bulk.idle.
Proof.
  split.
  - intros w. repeat split.
  - intros a b c (?&?&?&?) (?&?&?&?). repeat split; congruence.
Qed.

Section BulkFacts.
Context `{Host}.
Import CompaniesHouseService EnhancementService MemStorage Routes Run Bulk.

#[local] Instance tried_preorder : PreOrder tried.
Proof.
  split.
  - intros w. exists []. rewrite app_nil_r. split; [reflexivity | constructor].
  - intros a b c (o1 & H1 & F1) (o2 & H2 & F2). exists (o1 ++ o2).
    rewrite H2, H1, <- app_assoc. split; [reflexivity |].
    apply Forall_app. split; assumption.
Qed.

Lemma updateProcessingJob_returns jobId updates w :
  exists r, fst (updateProcessingJob jobId updates w) = Ok r.
Proof.
  destruct (processingJobs w !! jobId) as [job |] eqn:Hjob.
  - rewrite (updateProcessingJob_found _ _ _ _ Hjob). eexists. reflexivity.
  - unfold updateProcessingJob, bind, reads. rewrite Hjob. eexists. reflexivity.
Qed.

Lemma updateProcessingJob_missing jobId updates w :
  processingJobs w !! jobId = None -> updateProcessingJob jobId updates w = (Ok None, w).
Proof. intros Hnone. unfold updateProcessingJob, bind, reads. rewrite Hnone. reflexivity. Qed.

(** One iteration, whether the job is in the store or not. *)
Lemma processOne_run jobId q t w :
  let '(o, w1) := processItem q w in
  let t' := tallyAfter t (q, o) in
  processOne jobId q t w =
    (Ok t', snd (updateProcessingJob jobId (progressUpdates t')
                   (set_attempts (attempts w1 ++ [(q, o)]) w1))).
Proof.
  unfold processOne, try_catch, attempted, bind. cbv beta.
  destruct (processItem q w) as [[c | e] w1]; cbn [ret tallyAfter snd fst];
    match goal with
    | |- context [updateProcessingJob ?j ?u ?w0] =>
        destruct (updateProcessingJob_returns j u w0) as (r & Hr);
        destruct (updateProcessingJob j u w0) as [o' w2]; cbn [fst snd] in *; subst o'
    end; reflexivity.
Qed.

Lemma updateProcessingJob_other jobId updates :
  respects (other_jobs jobId) (updateProcessingJob jobId updates).
Proof.
  intros w j Hj. destruct (processingJobs w !! jobId) as [job |] eqn:Hjob.
  - rewrite (updateProcessingJob_found _ _ _ _ Hjob). cbn.
    apply lookup_insert_ne. congruence.
  - rewrite (updateProcessingJob_missing _ _ _ Hjob). reflexivity.
Qed.

Lemma processOne_other jobId q t : respects (other_jobs jobId) (processOne jobId q t).
Proof.
  intros w. pose proof (processOne_run jobId q t w) as Hrun.
  pose proof (processItem_item q w) as Hitem.
  destruct (processItem q w) as [o w1]. cbn [snd] in Hitem. cbv zeta in Hrun. rewrite Hrun.
  cbn [snd]. etransitivity; [| apply updateProcessingJob_other].
  destruct Hitem as (Hjobs & _). intros j _. cbn. rewrite Hjobs. reflexivity.
Qed.

Lemma processAll_other jobId companies t :
  respects (other_jobs jobId) (processAll jobId companies t).
Proof.
  revert t. induction companies as [| q rest IH]; intros t; cbn [processAll].
  - intros w. reflexivity.
  - apply respects_bind; [typeclasses eauto | apply processOne_other | intros t'; apply IH].
Qed.

(** X6. Running a job writes to the record of that job only: the record of
    every other job in the store is what it was before the run. *)
Theorem other_jobs_are_left_alone jobId companies options w j :
  j <> jobId ->
  processingJobs (snd (processBulkCompanies jobId companies options w)) !! j
    = processingJobs w !! j.
Proof.
  intros Hj. revert j Hj. change (other_jobs jobId w
    (snd (processBulkCompanies jobId companies options w))).
  revert w. change (respects (other_jobs jobId) (processBulkCompanies jobId companies options)).
  unfold processBulkCompanies.
  repeat first [ apply updateProcessingJob_other | apply processAll_other | frame_step ].
Qed.

Lemma processAll_missing jobId companies t w :
  processingJobs w !! jobId = None ->
  exists t' outcomes w',
    processAll jobId companies t w = (Ok t', w') /\
    processingJobs w' = processingJobs w /\ written w' = written w /\
    attempts w' = attempts w ++ outcomes /\ List.map fst outcomes = companies.
Proof.
  revert t w. induction companies as [| q rest IH]; intros t w Hnone; cbn [processAll].
  - exists t, [], w. rewrite app_nil_r. repeat split.
  - pose proof (processOne_run jobId q t w) as Hrun.
    pose proof (processItem_item q w) as Hitem.
    destruct (processItem q w) as [o w1]. cbn [snd] in Hitem. cbv zeta in Hrun.
    destruct Hitem as (Hjobs & Hatt & Hwr).
    rewrite updateProcessingJob_missing in Hrun by (cbn; rewrite Hjobs; exact Hnone).
    cbn [snd] in Hrun. unfold bind at 1. rewrite Hrun.
    set (w1a := set_attempts _ w1).
    destruct (IH (tallyAfter t (q, o)) w1a) as (t' & outcomes & w' & Hall & Hj & Hw & Ha & Hm).
    { subst w1a. cbn. rewrite Hjobs. exact Hnone. }
    exists t', ((q, o) :: outcomes), w'. split; [exact Hall |].
    subst w1a. cbn in Hj, Hw, Ha.
    split; [congruence |]. split; [congruence |].
    split; [rewrite Ha, Hatt, <- app_assoc; reflexivity | cbn; rewrite Hm; reflexivity].
Qed.

(** X7. A run for a job that is not in the store still works through
    every identifier (each is attempted once, in order) and returns without
    an exception, but no job record is created or written: afterwards the
    store of jobs is what it was. *)
Theorem run_of_an_unknown_job_leaves_no_record jobId companies options w :
  processingJobs w !! jobId = None ->
  exists outcomes w',
    processBulkCompanies jobId companies options w = (Ok tt, w') /\
    processingJobs w' = processingJobs w /\ written w' = written w /\
    attempts w' = attempts w ++ outcomes /\ List.map fst outcomes = companies.
Proof.
  intros Hnone. unfold processBulkCompanies.
  unfold bind at 1. unfold Date_now at 1, reads at 1.
  unfold bind at 1. rewrite updateProcessingJob_missing by exact Hnone.
  destruct (processAll_missing jobId companies emptyTally w Hnone)
    as (t' & outcomes & w' & Hall & Hj & Hw & Ha & Hm).
  unfold bind at 1. rewrite Hall.
  unfold bind at 1. unfold Date_now at 1, reads at 1.
  unfold bind at 1. rewrite updateProcessingJob_missing by (rewrite Hj; exact Hnone).
  exists outcomes, w'. repeat split; assumption.
Qed.

(** *** A process without an API key *)

Lemma resolveCompany_keyless q w :
  String.eqb apiKey "" = true ->
  exists cs, resolveCompany q w = (Throw keyMissing, set_calls cs w).
Proof.
  intros Hkey. unfold resolveCompany.
  destruct (isCompanyNumber q).
  - unfold getCompanyDetails, getCompanyDetailsOf, observed, bind.
    cbn [Js.ToString lift ret]. unfold makeRequest.
    rewrite makeRequest_on_keyless by exact Hkey. eexists. reflexivity.
  - unfold bind at 1. unfold searchCompany, observed, bind, makeRequest.
    rewrite makeRequest_on_keyless by exact Hkey. eexists. reflexivity.
Qed.

Lemma processItem_keyless q w :
  String.eqb apiKey "" = true ->
  exists cs, processItem q w = (Throw keyMissing, set_calls cs w).
Proof.
  intros Hkey. destruct (resolveCompany_keyless q w Hkey) as (cs & Hres).
  exists cs. unfold processItem. unfold bind at 1. rewrite Hres. reflexivity.
Qed.

Lemma updateProcessingJob_idle jobId updates :
  respects idle (updateProcessingJob jobId updates).
Proof. unfold updateProcessingJob. frame. Qed.

Lemma processOne_idle jobId q t :
  String.eqb apiKey "" = true -> respects idle (processOne jobId q t).
Proof.
  intros Hkey w. pose proof (processOne_run jobId q t w) as Hrun.
  destruct (processItem_keyless q w Hkey) as (cs & Hitem). rewrite Hitem in Hrun.
  cbv zeta in Hrun. rewrite Hrun. cbn [snd].
  etransitivity; [| apply updateProcessingJob_idle]. repeat split.
Qed.

Lemma processAll_idle jobId names t :
  String.eqb apiKey "" = true -> respects idle (processAll jobId names t).
Proof.
  intros Hkey. revert t. induction names as [| q rest IH]; intros t; cbn [processAll].
  - intros w. reflexivity.
  - apply respects_bind; [typeclasses eauto | apply processOne_idle, Hkey | intros t'; apply IH].
Qed.

Lemma createProcessingJob_idle insertJob : respects idle (createProcessingJob insertJob).
Proof. intros w. repeat split. Qed.

Lemma bulkProcess_idle names options :
  String.eqb apiKey "" = true -> respects idle (bulkProcess names options).
Proof.
  intros Hkey. unfold bulkProcess. destruct names as [| q rest]; [frame |].
  unfold processBulkCompanies.
  repeat first [ apply updateProcessingJob_idle | apply createProcessingJob_idle
               | apply processAll_idle, Hkey | frame_step ].
Qed.

(** *** The attempts of a run *)

Lemma tried_same w w' : attempts w' = attempts w -> tried w w'.
Proof. intros Ha. exists []. rewrite app_nil_r. split; [exact Ha | constructor]. Qed.

Lemma updateProcessingJob_tried jobId updates :
  respects tried (updateProcessingJob jobId updates).
Proof.
  intros w. apply tried_same. destruct (processingJobs w !! jobId) as [job |] eqn:Hjob.
  - rewrite (updateProcessingJob_found _ _ _ _ Hjob). reflexivity.
  - rewrite (updateProcessingJob_missing _ _ _ Hjob). reflexivity.
Qed.

Lemma processOne_tried jobId q t : respects tried (processOne jobId q t).
Proof.
  intros w. pose proof (processOne_run jobId q t w) as Hrun.
  pose proof (processItem_item q w) as Hitem.
  destruct (processItem q w) as [o w1] eqn:Hq. cbn [snd] in Hitem. cbv zeta in Hrun.
  rewrite Hrun. cbn [snd]. destruct Hitem as (_ & Hatt & _).
  etransitivity; [| apply updateProcessingJob_tried].
  exists [(q, o)]. cbn [attempts set_attempts]. rewrite Hatt. split; [reflexivity |].
  constructor; [| constructor]. exists w. cbn [fst snd]. rewrite Hq. reflexivity.
Qed.

Lemma processAll_tried jobId names t : respects tried (processAll jobId names t).
Proof.
  revert t. induction names as [| q rest IH]; intros t; cbn [processAll].
  - intros w. reflexivity.
  - apply respects_bind; [typeclasses eauto | apply processOne_tried | intros t'; apply IH].
Qed.

Lemma bulkProcess_tried names options : respects tried (bulkProcess names options).
Proof.
  unfold bulkProcess. destruct names as [| q rest]; [frame |].
  unfold processBulkCompanies.
  repeat first [ apply updateProcessingJob_tried | apply processAll_tried | frame_step ].
  intros w. apply tried_same. reflexivity.
Qed.

(** The final record of a bulk job, in terms of the outcomes of its
    items, each of which is an outcome of the [try] block. *)
Lemma bulkProcess_final names options w :
  names <> [] ->
  exists jobId outcomes final w',
    bulkProcess names options w = (Ok (Started jobId (Z.of_nat (List.length names))), w') /\
    List.map fst outcomes = names /\
    Forall (fun a => exists w0, fst (processItem (fst a) w0) = snd a) outcomes /\
    processingJobs w' !! jobId = Some final /\
    jobStatus final = (if existsb succeeded outcomes then completed else failed) /\
    processedItems final = Z.of_nat (List.length (savedBy outcomes)) /\
    failedItems final = Z.of_nat (List.length (loggedBy outcomes)) /\
    results final = Some (savedBy outcomes) /\
    errorLog final = Some (loggedBy outcomes).
Proof.
  intros Hne.
  destruct (bulkProcess_spec names options w Hne)
    as (outcomes & times & finished & w' & Hrun & Hmap & Hlen & Hatt & _ & Hfinal).
  cbv zeta in *.
  pose proof (bulkProcess_tried names options w) as (outs & Houts & Hall).
  rewrite Hrun in Houts. cbn [snd] in Houts. rewrite Hatt in Houts.
  apply app_inv_head in Houts. subst outs.
  eexists. exists outcomes. eexists. exists w'.
  split; [exact Hrun |]. split; [exact Hmap |]. split; [exact Hall |].
  split; [exact Hfinal |].
  destruct (tallyAll_counts outcomes emptyTally) as (Hp & Hf & Hr & He).
  cbn [processedCount failedCount resultsSoFar errorsSoFar emptyTally app] in Hp, Hf, Hr, He.
  rewrite Z.add_0_l in Hp, Hf.
  assert (Hlen' : List.length times = List.length outcomes)
    by (rewrite Hlen, <- Hmap, length_map; reflexivity).
  pose proof (snapshots_last
                (applyUpdates (createdJob names options w) (startUpdates names) (clock w))
                emptyTally outcomes times Hlen') as (_ & Hcount).
  cbv zeta in Hcount.
  destruct Hcount as (Hpi & Hfi).
  { intros ->. destruct names; [congruence | discriminate Hmap]. }
  cbn [applyUpdates finalUpdates jobStatus processedItems failedItems results errorLog
       setStatus setProcessedItems setFailedItems setResults setErrorLog default
       from_option Datatypes.id].
  rewrite Hp, Hr, He, saved_succeeded.
  split; [reflexivity |]. split; [rewrite Hpi; exact Hp |].
  split; [rewrite Hfi; exact Hf |]. split; reflexivity.
Qed.

Lemma outcomes_keyless names outcomes :
  String.eqb apiKey "" = true ->
  List.map fst outcomes = names ->
  Forall (fun a => exists w0, fst (processItem (fst a) w0) = snd a) outcomes ->
  outcomes = List.map (fun q => (q, Throw keyMissing)) names.
Proof.
  intros Hkey <- Hall. induction Hall as [| [q o] rest (w0 & Ho) _ IH]; [reflexivity |].
  cbn [List.map fst snd] in *. rewrite <- IH.
  destruct (processItem_keyless q w0 Hkey) as (cs & Hitem). rewrite Hitem in Ho.
  cbn [fst] in Ho. subst o. reflexivity.
Qed.

(** X8. Without an API key a bulk job asks nothing of the registry and
    saves nothing: every identifier fails with the message that the key is
    not configured, and the job ends [failed] with all its items counted as
    failures. *)
Theorem job_without_api_key_fails_every_item names options w :
  String.eqb apiKey "" = true ->
  names <> [] ->
  exists jobId final w',
    bulkProcess names options w = (Ok (Started jobId (Z.of_nat (List.length names))), w') /\
    processingJobs w' !! jobId = Some final /\
    jobStatus final = failed /\
    processedItems final = 0 /\
    failedItems final = Z.of_nat (List.length names) /\
    results final = Some [] /\
    errorLog final =
      Some (List.map (fun q => {| company := q;
                                  error := "Companies House API key not configured" |})
              names) /\
    fetched w' = fetched w /\ companies w' = companies w.
Proof.
  intros Hkey Hne.
  destruct (bulkProcess_final names options w Hne)
    as (jobId & outcomes & final & w' & Hrun & Hmap & Hall & Hjob & Hst & Hp & Hf & Hr & He).
  pose proof (outcomes_keyless names outcomes Hkey Hmap Hall) as ->.
  pose proof (bulkProcess_idle names options Hkey w) as (_ & Hfetched & _ & Hsaved).
  rewrite Hrun in Hfetched, Hsaved. cbn [snd] in Hfetched, Hsaved.
  assert (Hnone : forall l : list string,
            existsb succeeded (List.map (fun q => (q, Throw keyMissing)) l) = false /\
            savedBy (List.map (fun q => (q, Throw keyMissing)) l) = [] /\
            loggedBy (List.map (fun q => (q, Throw keyMissing)) l)
              = List.map (fun q => {| company := q;
                                      error := "Companies House API key not configured" |}) l).
  { induction l as [| q l (IH1 & IH2 & IH3)]; [repeat split |].
    cbn. unfold savedBy, loggedBy in *. cbn. rewrite IH1, IH2, IH3. repeat split. }
  destruct (Hnone names) as (H1 & H2 & H3).
  rewrite H1 in Hst. rewrite H2 in Hp, Hr. rewrite H3 in Hf, He. rewrite length_map in Hf.
  exists jobId, final, w'. repeat split; assumption.
Qed.

(** *** What is saved *)

Lemma validSicCodesOf_digits sicCodes :
  Forall (fun code => Str.is_digits 5 code = true) (validSicCodesOf sicCodes).
Proof.
  induction sicCodes as [| v rest IH]; [constructor |].
  destruct v; cbn [validSicCodesOf]; try exact IH.
  destruct (Str.is_digits 5 s) eqn:Hs; [constructor; assumption | exact IH].
Qed.

(** Closes a goal [exists n, 1 <= n <= 12 /\ f = Num.of_Z n] for a closed
    number [f] by evaluating it. *)
Ltac evaluate_count :=
  lazymatch goal with
  | |- exists n : Z, _ /\ ?f = _ =>
      let z := eval vm_compute in (default 0 (Num.floor_Z f)) in
      exists z; split; [lia | vm_compute; reflexivity]
  end.

Lemma estimateEmployeeCount_whole fields sicCodes w incorporationDate :
  Js.Date_new (Js.obj_get "date_of_creation" fields) = inr incorporationDate ->
  exists n : Z,
    1 <= n <= 12 /\
    estimateEmployeeCount (JObj fields) sicCodes w = (Ok (Num.of_Z n), w).
Proof.
  intros Hdate.
  unfold estimateEmployeeCount, bind, lift, Js.get, Date_now, reads, ret.
  rewrite Hdate.
  generalize (companyAgeAt (clock w) incorporationDate).
  intros age.
  assert (Hshape : forall f : float,
            (exists n : Z, 1 <= n <= 12 /\ f = Num.of_Z n) ->
            exists n : Z, 1 <= n <= 12 /\ (Ok f, w) = (Ok (Num.of_Z n), w)).
  { intros f (n & Hn & ->). exists n. split; [exact Hn | reflexivity]. }
  apply Hshape.
  destruct (sector "43" sicCodes); [| destruct (sector "41" sicCodes);
    [| destruct (sector "42" sicCodes); [| destruct (sector "81" sicCodes)]]];
    destruct (PrimFloat.ltb 20 age); destruct (PrimFloat.ltb 10 age);
    destruct (PrimFloat.ltb 5 age);
    try destruct (PrimFloat.ltb 15 age); try destruct (PrimFloat.ltb 3 age);
    try destruct (PrimFloat.ltb 8 age);
    evaluate_count.
Qed.

Lemma getCompanyDetailsOf_validated number w l w1 :
  getCompanyDetailsOf number w = (Ok l, w1) ->
  exists fs, heap w1 !! l = Some (JObj fs) /\ Client.firstMissing fs requiredFields = None.
Proof.
  intros Hrun. unfold getCompanyDetailsOf, observed in Hrun.
  match type of Hrun with
  | (let '(o, w') := ?m w in _) = _ => destruct (m w) as [o wb] eqn:Hinner
  end.
  injection Hrun as -> <-.
  apply bind_ok in Hinner as (text & wt & _ & Hinner).
  apply bind_ok in Hinner as (d & wa & _ & Hval).
  apply validateAndEnhanceCompanyData_returns in Hval
    as (fs & fs' & Hl & Hmissing & Hfs' & -> & ->).
  apply annotate_inr in Hfs' as (interpretation & _ & -> & _).
  exists (Client.annotateWith (clock wa) interpretation fs). cbn [heap set_calls set_heap].
  split; [eapply heap_insert_lookup, Hl | rewrite firstMissing_annotateWith; exact Hmissing].
Qed.

Lemma resolveCompany_validated q w l w1 :
  resolveCompany q w = (Ok l, w1) ->
  exists fs, heap w1 !! l = Some (JObj fs) /\ Client.firstMissing fs requiredFields = None.
Proof.
  unfold resolveCompany. destruct (isCompanyNumber q).
  - apply getCompanyDetailsOf_validated.
  - intros Hrun.
    apply bind_ok in Hrun as (r1 & wa & _ & Hrun).
    apply bind_ok in Hrun as (r2 & wb & _ & Hrun).
    apply bind_ok in Hrun as (positive & wp & _ & Hrun).
    destruct positive; [| discriminate Hrun].
    apply bind_ok in Hrun as (best & wc & _ & Hrun).
    apply bind_ok in Hrun as (number & wd & _ & Hrun).
    eapply getCompanyDetailsOf_validated, Hrun.
Qed.

Lemma enrichAndSave_obj l w fs c w' :
  heap w !! l = Some (JObj fs) ->
  Client.firstMissing fs requiredFields = None ->
  enrichAndSave l w = (Ok c, w') ->
  wellFormed c.
Proof.
  intros Hl Hmissing Hrun. unfold enrichAndSave in Hrun.
  unfold bind at 1 in Hrun. rewrite (get_prop_obj _ _ _ _ Hl) in Hrun.
  unfold bind at 1 in Hrun. rewrite (get_prop_obj _ _ _ _ Hl) in Hrun.
  unfold bind at 1 in Hrun.
  destruct (Js.Date_new (Js.obj_get "date_of_creation" fs)) as [e | incorporationDate]
    eqn:Hdate; [discriminate Hrun |].
  cbn [lift ret] in Hrun.
  unfold bind at 1 in Hrun. unfold Date_now at 1, reads at 1 in Hrun.
  unfold bind at 1 in Hrun. rewrite (deref_obj _ _ _ Hl) in Hrun.
  match type of Hrun with
  | context [estimateEmployeeCount (JObj fs) ?codes] =>
      destruct (estimateEmployeeCount_whole fs codes w _ Hdate) as (n & Hn & Hcount)
  end.
  unfold bind at 1 in Hrun. rewrite Hcount in Hrun.
  do 6 (unfold bind at 1 in Hrun; rewrite (get_prop_obj _ _ _ _ Hl) in Hrun).
  unfold createCompany, bind, newUUID, Date_now, reads, modify, ret in Hrun.
  injection Hrun as <- _.
  unfold Client.firstMissing, requiredFields in Hmissing. cbn [List.find] in Hmissing.
  destruct (Js.truthy (Js.obj_get "company_name" fs)) eqn:Hname; [| discriminate Hmissing].
  destruct (Js.truthy (Js.obj_get "company_number" fs)) eqn:Hnumber; [| discriminate Hmissing].
  destruct (Js.truthy (Js.obj_get "company_status" fs)) eqn:Hstatus; [| discriminate Hmissing].
  unfold wellFormed. cbn.
  split; [exact Hname |]. split; [exact Hnumber |].
  split; [unfold Js.or_else; rewrite Hstatus; exact Hstatus |].
  split; [apply validSicCodesOf_digits |].
  split; [exists n; split; [exact Hn | reflexivity] | reflexivity].
Qed.

Lemma processItem_wellFormed q w c :
  fst (processItem q w) = Ok c -> wellFormed c.
Proof.
  intros Hrun. destruct (processItem q w) as [o w'] eqn:Hitem. cbn [fst] in Hrun. subst o.
  unfold processItem in Hitem.
  apply bind_ok in Hitem as (l & w1 & Hres & Hitem).
  apply bind_ok in Hitem as (saved & w2 & Hsave & Hitem).
  apply bind_ok in Hitem as (u & w3 & _ & Hret).
  unfold ret in Hret. injection Hret as <- _.
  destruct (resolveCompany_validated _ _ _ _ Hres) as (fs & Hl & Hmissing).
  eapply enrichAndSave_obj; eassumption.
Qed.

(** X9. Every company in the results of a bulk job is well formed: its
    name, number and status are there (none is absent or falsy), its
    classification codes are codes of five digits, its head count is a whole
    number from 1 to 12 and its revenue is the estimate for that head count
    and those codes. *)
Theorem saved_companies_are_well_formed names options w :
  names <> [] ->
  exists jobId final saved w',
    bulkProcess names options w = (Ok (Started jobId (Z.of_nat (List.length names))), w') /\
    processingJobs w' !! jobId = Some final /\
    results final = Some saved /\
    processedItems final = Z.of_nat (List.length saved) /\
    Forall wellFormed saved.
Proof.
  intros Hne.
  destruct (bulkProcess_final names options w Hne)
    as (jobId & outcomes & final & w' & Hrun & _ & Hall & Hjob & _ & Hp & _ & Hr & _).
  exists jobId, final, (savedBy outcomes), w'.
  split; [exact Hrun |]. split; [exact Hjob |]. split; [exact Hr |]. split; [exact Hp |].
  clear -Hall. unfold savedBy.
  induction Hall as [| [q o] rest (w0 & Ho) _ IH]; [constructor |].
  cbn [flat_map snd fst] in *. destruct o as [c | e]; [| exact IH].
  constructor; [| exact IH]. eapply processItem_wellFormed, Ho.
Qed.

End BulkFacts.

Section BulkWitnesses.
Import CompaniesHouseService EnhancementService MemStorage Routes Run Bulk.

(** Two jobs in the store; the second is run. *)
Lemma other_jobs_witness :
  let w := snd (@createProcessingJob Sample.host
                  {| newJobType := "bulk"; newTotalItems := 1; newOptions := None |}
                  Sample.withJob) in
  processingJobs (snd (@processBulkCompanies Sample.host "job-1" ["01234567"]
                         defaultOptions w)) !! "job-0"
    = processingJobs w !! "job-0".
Proof.
  cbv zeta.
  apply (@other_jobs_are_left_alone Sample.host "job-1" ["01234567"] defaultOptions
           (snd (@createProcessingJob Sample.host
                   {| newJobType := "bulk"; newTotalItems := 1; newOptions := None |}
                   Sample.withJob))
           "job-0").
  discriminate.
Defined.

(** A run for a job that was never created. *)
Lemma unknown_job_witness :
  exists (outcomes : list (string * Outcome Company)) w',
    @processBulkCompanies Sample.host "job-7" ["01234567"; "Zeta"] defaultOptions
      (Sample.start Sample.may2024 8) = (Ok tt, w') /\
    processingJobs w' = ∅ /\ List.map fst outcomes = ["01234567"; "Zeta"].
Proof.
  destruct (@run_of_an_unknown_job_leaves_no_record Sample.host "job-7" ["01234567"; "Zeta"]
              defaultOptions (Sample.start Sample.may2024 8))
    as (outcomes & w' & Hrun & Hjobs & _ & _ & Hmap).
  - reflexivity.
  - exists outcomes, w'. split; [exact Hrun |]. split; [exact Hjobs | exact Hmap].
Defined.

(** The bulk job of a process that has no API key. *)
Lemma job_without_api_key_witness :
  exists jobId final w',
    @bulkProcess Sample.keyless ["01234567"; "Zeta"] None (Sample.start Sample.may2024 8)
      = (Ok (Started jobId 2), w') /\
    processingJobs w' !! jobId = Some final /\
    jobStatus final = failed /\ failedItems final = 2 /\ fetched w' = [].
Proof.
  destruct (@job_without_api_key_fails_every_item Sample.keyless ["01234567"; "Zeta"] None
              (Sample.start Sample.may2024 8))
    as (jobId & final & w' & Hrun & Hjob & Hst & _ & Hf & _ & _ & Hfetched & _).
  - reflexivity.
  - discriminate.
  - exists jobId, final, w'. repeat split; assumption.
Defined.

(** A bulk job over a known number and an unknown name. *)
Lemma saved_companies_witness :
  exists jobId final saved w',
    @bulkProcess Sample.host ["01234567"; "Zeta"] None (Sample.start Sample.may2024 8)
      = (Ok (Started jobId 2), w') /\
    processingJobs w' !! jobId = Some final /\
    results final = Some saved /\
    Forall (@wellFormed Sample.host) saved.
Proof.
  destruct (@saved_companies_are_well_formed Sample.host ["01234567"; "Zeta"] None
              (Sample.start Sample.may2024 8))
    as (jobId & final & saved & w' & Hrun & Hjob & Hres & _ & Hall).
  - discriminate.
  - exists jobId, final, saved, w'. repeat split; assumption.
Defined.

End BulkWitnesses.

(** ** Failed lookups and the cache *)

Section DetailFacts.
Context `{Host}.
Import CompaniesHouseService Requests Client.

Lemma get_prop_lookup l k w w' :
  heap w' !! l = heap w !! l -> fst (get_prop l k w') = fst (get_prop l k w).
Proof.
  intros Hl. unfold get_prop, bind, deref, reads, lift. rewrite Hl.
  destruct (Js.get (default JUndefined (heap w !! l)) k); reflexivity.
Qed.

Lemma requireFields_reads l fields w :
  requireFields l fields w = (fst (requireFields l fields w), w).
Proof.
  induction fields as [| f rest IH]; [reflexivity |].
  cbn [requireFields]. unfold bind. rewrite get_prop_reads.
  destruct (fst (get_prop l f w)) as [x | e]; [| reflexivity].
  destruct (Js.truthy x); [exact IH | reflexivity].
Qed.

Lemma requireFields_lookup l fields w w' :
  heap w' !! l = heap w !! l ->
  fst (requireFields l fields w') = fst (requireFields l fields w).
Proof.
  intros Hl. induction fields as [| f rest IH]; [reflexivity |].
  cbn [requireFields]. unfold bind.
  rewrite (get_prop_reads l f w), (get_prop_reads l f w'), (get_prop_lookup l f w w' Hl).
  destruct (fst (get_prop l f w)) as [x | e]; [| reflexivity].
  destruct (Js.truthy x); [exact IH | reflexivity].
Qed.

(** The validation throws before it writes anything, or at the lookup of
    the status, when it has written the retrieval time. *)
Lemma validateAndEnhanceCompanyData_throws l w e w' :
  validateAndEnhanceCompanyData l w = (Throw e, w') ->
  (w' = w /\ fst (requireFields l requiredFields w) = Throw e) \/
  (exists fs,
     heap w !! l = Some (JObj fs) /\ firstMissing fs requiredFields = None /\
     annotate (clock w) fs = inl e /\
     w' = set_heap (<[l := JObj (stamp (clock w) fs)]> (heap w)) w).
Proof.
  intros Hrun.
  destruct (requireFields l requiredFields w) as [[[] | e0] wb] eqn:Hreq.
  - destruct (requireFields_passes _ _ _ Hreq) as (fs & Hl & Hmissing & _).
    rewrite (validateAndEnhanceCompanyData_obj _ _ _ Hl), Hmissing in Hrun.
    destruct (annotate (clock w) fs) as [e1 | fs'] eqn:Hfs'; [| discriminate Hrun].
    injection Hrun as <- <-. right. exists fs. repeat split; assumption.
  - unfold validateAndEnhanceCompanyData in Hrun. unfold bind at 1 in Hrun.
    rewrite Hreq in Hrun. injection Hrun as <- <-.
    rewrite requireFields_reads in Hreq. injection Hreq as _ Hw.
    left. split; [symmetry; exact Hw | reflexivity].
Qed.

Lemma validateAndEnhanceCompanyData_rethrows l w e :
  fst (requireFields l requiredFields w) = Throw e ->
  validateAndEnhanceCompanyData l w = (Throw e, w).
Proof.
  intros Hreq. unfold validateAndEnhanceCompanyData. unfold bind at 1.
  rewrite requireFields_reads, Hreq. reflexivity.
Qed.

(** X10. A lookup that failed and left an entry of the cache within the
    expiry window fails again in the same way when it is repeated, and the
    registry is not asked: a payload that does not pass the validation is
    cached all the same, and is served until the entry expires.  The
    repeated lookup changes nothing of the cached payload but, possibly, its
    retrieval time, which is written before the status is looked up. *)
Theorem failed_details_are_repeated_from_cache number w e w1 entry later :
  getCompanyDetails number w = (Throw e, w1) ->
  cache w1 !! getCacheKey ("/company/" +:+ number) None = Some entry ->
  clock w1 <= later ->
  later - timestamp entry < cacheExpiry ->
  exists w2,
    getCompanyDetails number (set_clock later w1) = (Throw e, w2) /\
    fetched w2 = fetched w1 /\ upstream w2 = upstream w1 /\ cache w2 = cache w1 /\
    calls w2 = calls w1 ++ [Detailed (JStr number) false] /\
    (forall k, k <> "data_retrieved_at" ->
               propertyOf w2 (data entry) k = propertyOf w1 (data entry) k).
Proof.
  intros Hfirst Hentry Hlater Hfresh.
  destruct (String.eqb apiKey "") eqn:Hkey.
  { unfold getCompanyDetails, getCompanyDetailsOf, observed, bind in *.
    cbn [Js.ToString lift ret] in *. unfold makeRequest in *.
    rewrite makeRequest_on_keyless in * by exact Hkey. injection Hfirst as <- <-.
    eexists. split; [reflexivity |]. repeat split. }
  pose proof (makeRequest_on_continues (upstream w) ("/company/" +:+ number) None w)
    as (Hclock & _).
  unfold getCompanyDetails, getCompanyDetailsOf, observed in Hfirst.
  match type of Hfirst with
  | (let '(o, w') := ?m w in _) = _ => destruct (m w) as [o wb] eqn:Hinner
  end.
  injection Hfirst as -> <-. unfold bind in Hinner. cbn [Js.ToString lift ret] in Hinner.
  unfold makeRequest in Hinner.
  destruct (makeRequest_on (upstream w) ("/company/" +:+ number) None w)
    as [[l | e0] wa] eqn:Hreq; cbn [snd] in Hclock.
  - pose proof Hreq as Hok.
    apply makeRequest_on_ok in Hok as (_ & cached & Hcached & Hdata).
    apply validateAndEnhanceCompanyData_throws in Hinner
      as [(-> & Hthrow) | (fs & Hl & Hmissing & Hfs & ->)].
    + cbn [cache set_calls] in Hentry. rewrite Hcached in Hentry. injection Hentry as <-.
      unfold getCompanyDetails, getCompanyDetailsOf, observed, bind.
      cbn [Js.ToString lift ret].
      rewrite (makeRequest_hit _ _ (set_clock later (set_calls _ wa)) cached Hkey Hcached
                 Hfresh).
      rewrite Hdata, (validateAndEnhanceCompanyData_rethrows l _ e).
      * eexists. split; [reflexivity |]. repeat split.
      * rewrite <- Hthrow. apply requireFields_lookup. reflexivity.
    + cbn [cache set_calls set_heap] in Hentry. rewrite Hcached in Hentry.
      injection Hentry as <-. subst l.
      set (fs1 := stamp (clock wa) fs).
      set (w1 := set_calls _ _).
      assert (Hl1 : heap (set_clock later w1) !! data cached = Some (JObj fs1))
        by (subst w1; cbn; eapply heap_insert_lookup, Hl).
      assert (Hhit : makeRequest ("/company/" +:+ number) None (set_clock later w1)
                     = (Ok (data cached), set_clock later w1)).
      { apply makeRequest_hit; [exact Hkey | exact Hcached | exact Hfresh]. }
      rewrite (getCompanyDetails_obj _ _ _ _ _ Hhit Hl1).
      assert (Hmissing1 : firstMissing fs1 requiredFields = None).
      { unfold firstMissing, requiredFields in *. cbn [List.find] in *. subst fs1.
        rewrite !stamp_other by discriminate. exact Hmissing. }
      assert (Hfs1 : annotate later fs1 = inl e).
      { unfold annotate in *. subst fs1. rewrite !stamp_other in * by discriminate.
        destruct (interpretStatus (Js.obj_get "company_status" fs)); [exact Hfs |].
        discriminate Hfs. }
      rewrite Hmissing1. cbn [clock set_clock]. rewrite Hfs1.
      eexists. split; [reflexivity |]. repeat split.
      intros k Hk. unfold propertyOf. cbn [heap set_calls set_heap set_clock].
      rewrite (heap_insert_lookup _ _ _ _ Hl1). subst w1. cbn [heap set_calls set_heap].
      rewrite (heap_insert_lookup _ _ _ _ Hl). apply stamp_other, Hk.
  - injection Hinner as <- <-.
    pose proof (makeRequest_on_throws _ _ _ _ _ _ Hreq) as Hcache.
    cbn [cache clock set_calls] in Hentry, Hlater. rewrite Hcache in Hentry.
    destruct (fresh w (getCacheKey ("/company/" +:+ number) None)) eqn:Hf.
    + rewrite makeRequest_on_served in Hreq by assumption. discriminate Hreq.
    + unfold fresh in Hf. rewrite Hentry in Hf. apply Z.ltb_ge in Hf. lia.
Qed.

End DetailFacts.

Section DetailWitnesses.
Import CompaniesHouseService Requests Client.

(** The status of the record served here cannot be made a property key
    of: the lookup fails after it stamped the payload, and fails again one
    second later without a request, stamping the cached payload again. *)
Lemma failed_details_witness :
  let w := set_upstream [Sample.historyExchange Sample.unkeyed]
             (Sample.start Sample.may2024 0) in
  let w1 := snd (@getCompanyDetails Sample.host "09999999" w) in
  exists w2,
    @getCompanyDetails Sample.host "09999999" (set_clock (Sample.may2024 + 1040) w1)
      = (Throw (TypeError "Cannot convert object to primitive value"), w2) /\
    fetched w2 = fetched w1 /\
    propertyOf w1 0 "data_retrieved_at" = JStr "2024-05-01T00:00:00.040Z" /\
    propertyOf w2 0 "data_retrieved_at" = JStr "2024-05-01T00:00:01.040Z".
Proof.
  cbv zeta.
  destruct (@failed_details_are_repeated_from_cache Sample.host "09999999"
              (set_upstream [Sample.historyExchange Sample.unkeyed]
                 (Sample.start Sample.may2024 0))
              (TypeError "Cannot convert object to primitive value")
              (snd (@getCompanyDetails Sample.host "09999999"
                      (set_upstream [Sample.historyExchange Sample.unkeyed]
                         (Sample.start Sample.may2024 0))))
              {| timestamp := Sample.may2024 + 40; data := 0 |}
              (Sample.may2024 + 1040))
    as (w2 & Hrun & Hfetched & _).
  - vm_compute. reflexivity.
  - vm_compute. reflexivity.
  - vm_compute. discriminate.
  - vm_compute. reflexivity.
  - exists w2. split; [exact Hrun |]. split; [exact Hfetched |].
    split; [vm_compute; reflexivity |].
    apply (f_equal snd) in Hrun. cbn [snd] in Hrun. rewrite <- Hrun.
    vm_compute. reflexivity.
Defined.

End DetailWitnesses.

(** ** The keys of the cache *)

Section KeyFacts.
Import CompaniesHouseService Keys.

Lemma append_cons x (a b : string) : String x a +:+ b = String x (a +:+ b).
Proof. reflexivity. Qed.

Lemma append_nil (b : string) : EmptyString +:+ b = b.
Proof. reflexivity. Qed.

Lemma append_assoc (a b c : string) : (a +:+ b) +:+ c = a +:+ (b +:+ c).
Proof.
  induction a as [| x a IH]; [reflexivity |]. rewrite !append_cons, IH. reflexivity.
Qed.

Lemma length_append (a b : string) :
  String.length (a +:+ b) = (String.length a + String.length b)%nat.
Proof.
  induction a as [| x a IH]; [reflexivity |]. rewrite append_cons. simpl. rewrite IH.
  reflexivity.
Qed.

Lemma append_inv_head (s a b : string) : s +:+ a = s +:+ b -> a = b.
Proof.
  induction s as [| x s IH]; [auto |]. rewrite !append_cons. intros Heq.
  injection Heq as Heq. auto.
Qed.

Lemma append_inv_tail (a b t : string) : a +:+ t = b +:+ t -> a = b.
Proof.
  revert b. induction a as [| x a IH]; intros [| y b] Heq;
    rewrite ?append_cons, ?append_nil in Heq.
  - reflexivity.
  - apply (f_equal String.length) in Heq. simpl in Heq. rewrite length_append in Heq. lia.
  - apply (f_equal String.length) in Heq. simpl in Heq. rewrite length_append in Heq. lia.
  - injection Heq as -> Heq. rewrite (IH b Heq). reflexivity.
Qed.

Lemma last_char_append (a b : string) :
  b <> EmptyString -> last_char (a +:+ b) = last_char b.
Proof.
  intros Hb. induction a as [| x a IH]; [reflexivity |].
  rewrite append_cons. simpl. rewrite IH. destruct b as [| y b]; [congruence |].
  simpl. destruct (last_char b); reflexivity.
Qed.

Lemma unescape_json_char c rest :
  unescape (Str.json_char c +:+ rest) = Some (c, rest).
Proof. destruct c as [[] [] [] [] [] [] [] []]; reflexivity. Qed.

(** [JSON.stringify] of a string can be read back: the escaped characters
    end at the first bare quotation mark. *)
Lemma json_chars_inj s1 s2 r1 r2 :
  Str.json_chars s1 +:+ Str.dquote +:+ r1 = Str.json_chars s2 +:+ Str.dquote +:+ r2 ->
  s1 = s2 /\ r1 = r2.
Proof.
  unfold Str.dquote, Str.single.
  revert s2. induction s1 as [| c1 s1 IH]; intros [| c2 s2] Heq; simpl Str.json_chars in Heq;
    rewrite ?append_nil, ?append_cons in Heq.
  - injection Heq as Heq. split; [reflexivity | exact Heq].
  - exfalso. rewrite append_assoc in Heq.
    assert (Hc : c2 = Str.chr 34).
    { apply (f_equal unescape) in Heq. rewrite unescape_json_char in Heq.
      simpl in Heq. congruence. }
    subst c2. apply (f_equal (String.get 0)) in Heq. vm_compute in Heq. discriminate Heq.
  - exfalso. rewrite append_assoc in Heq.
    assert (Hc : c1 = Str.chr 34).
    { apply (f_equal unescape) in Heq. rewrite unescape_json_char in Heq.
      simpl in Heq. congruence. }
    subst c1. apply (f_equal (String.get 0)) in Heq. vm_compute in Heq. discriminate Heq.
  - rewrite !append_assoc in Heq. apply (f_equal unescape) in Heq.
    rewrite !unescape_json_char in Heq. injection Heq as <- Heq.
    destruct (IH s2 Heq) as (-> & ->). split; reflexivity.
Qed.

Lemma searchKey_shape query :
  searchKey query =
    ("/search/companies?{" +:+ Str.json_quote "items_per_page" +:+ ":20," +:+
     Str.json_quote "q" +:+ ":" +:+ Str.dquote) +:+
    (Str.json_chars query +:+ Str.dquote +:+ "}").
Proof.
  transitivity (("/search/companies?{" +:+ Str.json_quote "items_per_page" +:+ ":20," +:+
                 Str.json_quote "q" +:+ ":" +:+ Str.dquote) +:+
                ((Str.json_chars query +:+ Str.dquote) +:+ "}")).
  - vm_compute. reflexivity.
  - rewrite (append_assoc (Str.json_chars query)). reflexivity.
Qed.

Lemma detailsKey_shape number : detailsKey number = "/company/" +:+ (number +:+ "?").
Proof.
  unfold detailsKey, getCacheKey. rewrite append_assoc. reflexivity.
Qed.

Lemma filingsKey_shape number :
  filingsKey number =
    "/company/" +:+ (number +:+ ("/filing-history?{" +:+ Str.json_quote "items_per_page"
                                  +:+ ":50}")).
Proof.
  unfold filingsKey, getCacheKey. rewrite !append_assoc. do 2 f_equal.
Qed.

(** X11. The three kinds of request are cached apart: two searches share
    a key only when their queries are the same, two lookups and two filing
    histories only when their company numbers are, and no key of one kind is
    a key of another. *)
Theorem cache_keys_tell_requests_apart q1 q2 n1 n2 :
  (searchKey q1 = searchKey q2 <-> q1 = q2) /\
  (detailsKey n1 = detailsKey n2 <-> n1 = n2) /\
  (filingsKey n1 = filingsKey n2 <-> n1 = n2) /\
  searchKey q1 <> detailsKey n1 /\
  searchKey q1 <> filingsKey n1 /\
  detailsKey n1 <> filingsKey n2.
Proof.
  repeat split; try (intros ->; reflexivity).
  - rewrite !searchKey_shape. intros Heq. apply append_inv_head in Heq.
    apply json_chars_inj in Heq. apply Heq.
  - rewrite !detailsKey_shape. intros Heq. apply append_inv_head, append_inv_tail in Heq.
    exact Heq.
  - rewrite !filingsKey_shape. intros Heq. apply append_inv_head, append_inv_tail in Heq.
    exact Heq.
  - rewrite searchKey_shape, detailsKey_shape. intros Heq.
    apply (f_equal (String.get 1)) in Heq. vm_compute in Heq. discriminate Heq.
  - rewrite searchKey_shape, filingsKey_shape. intros Heq.
    apply (f_equal (String.get 1)) in Heq. vm_compute in Heq. discriminate Heq.
  - rewrite detailsKey_shape, filingsKey_shape. intros Heq.
    apply append_inv_head in Heq. apply (f_equal last_char) in Heq.
    rewrite !last_char_append in Heq by discriminate. vm_compute in Heq. discriminate Heq.
Qed.

Lemma leb_trans (a b c : string) :
  String.leb a b = true -> String.leb b c = true -> String.leb a c = true.
Proof.
  intros Hab Hbc. apply Is_true_true. apply Is_true_true in Hab, Hbc.
  exact (transitivity (R := String.le) Hab Hbc).
Qed.

Lemma leb_false (a b : string) : String.leb a b = false -> String.leb b a = true.
Proof. intros Hab. destruct (String.leb_total a b) as [H | H]; congruence. Qed.

(** Insertions into a list commute: the sorted list of keys does not
    depend on the order in which the keys are inserted. *)
Lemma insert_sorted_comm (x y : string) (l : list string) :
  Str.insert_sorted x (Str.insert_sorted y l) = Str.insert_sorted y (Str.insert_sorted x l).
Proof.
  induction l as [| z l IH]; cbn [Str.insert_sorted].
  - destruct (String.leb x y) eqn:Hxy, (String.leb y x) eqn:Hyx; try reflexivity.
    + rewrite (String.leb_antisym _ _ Hxy Hyx). reflexivity.
    + apply leb_false in Hxy. congruence.
  - destruct (String.leb y z) eqn:Hyz, (String.leb x z) eqn:Hxz; cbn [Str.insert_sorted];
      rewrite ?Hyz, ?Hxz.
    + destruct (String.leb x y) eqn:Hxy, (String.leb y x) eqn:Hyx; try reflexivity.
      * rewrite (String.leb_antisym _ _ Hxy Hyx). reflexivity.
      * apply leb_false in Hxy. congruence.
    + destruct (String.leb x y) eqn:Hxy; [| reflexivity].
      rewrite (leb_trans _ _ _ Hxy Hyz) in Hxz. discriminate Hxz.
    + destruct (String.leb y x) eqn:Hyx; [| reflexivity].
      rewrite (leb_trans _ _ _ Hyx Hxz) in Hyz. discriminate Hyz.
    + rewrite IH. reflexivity.
Qed.

Lemma sort_Permutation (l l' : list string) : Permutation l l' -> Str.sort l = Str.sort l'.
Proof.
  induction 1 as [| x l l' _ IH | x y l | l l' l'' _ IH1 _ IH2]; cbn [Str.sort fold_right].
  - reflexivity.
  - fold (Str.sort l). fold (Str.sort l'). rewrite IH. reflexivity.
  - apply insert_sorted_comm.
  - congruence.
Qed.

Lemma param_get_In k v (params : Params) :
  NoDup (List.map fst params) -> (param_get k params = Some v <-> In (k, v) params).
Proof.
  induction params as [| [k' v'] r IH]; intros Hnd; cbn [param_get In List.map fst] in *.
  - split; [discriminate | tauto].
  - apply NoDup_cons in Hnd as (Hk' & Hnd). specialize (IH Hnd).
    destruct (String.eqb_spec k k') as [-> | Hne].
    + split.
      * intros Heq. injection Heq as ->. left. reflexivity.
      * intros [Heq | Hin]; [congruence |].
        exfalso. apply Hk'. apply list_elem_of_In.
        apply (in_map fst) in Hin. exact Hin.
    + rewrite IH. split; [tauto |]. intros [Heq | Hin]; [congruence | exact Hin].
Qed.

Lemma param_get_Permutation k (p1 p2 : Params) :
  NoDup (List.map fst p1) -> Permutation p1 p2 -> param_get k p1 = param_get k p2.
Proof.
  intros Hnd Hperm.
  assert (Hnd2 : NoDup (List.map fst p2)).
  { assert (Hm : Permutation (List.map fst p1) (List.map fst p2))
      by (apply Permutation_map, Hperm).
    rewrite <- Hm. exact Hnd. }
  destruct (param_get k p1) as [v |] eqn:H1.
  - apply (param_get_In _ _ _ Hnd) in H1. symmetry. apply (param_get_In _ _ _ Hnd2).
    eapply Permutation_in; eassumption.
  - destruct (param_get k p2) as [v |] eqn:H2; [| reflexivity].
    apply (param_get_In _ _ _ Hnd2) in H2.
    apply (Permutation_in _ (Permutation_sym Hperm)) in H2.
    apply (param_get_In _ _ _ Hnd) in H2. congruence.
Qed.

(** X12. The key of a request does not depend on the order in which its
    parameters are listed: two parameter objects with the same properties
    are cached under the same key. *)
Theorem cache_key_ignores_parameter_order endpoint (p1 p2 : Params) :
  NoDup (List.map fst p1) ->
  Permutation p1 p2 ->
  getCacheKey endpoint (Some p1) = getCacheKey endpoint (Some p2).
Proof.
  intros Hnd Hperm. unfold getCacheKey, stringify.
  rewrite (sort_Permutation (List.map fst p1) (List.map fst p2))
    by (apply Permutation_map, Hperm).
  apply (f_equal (fun parts => endpoint +:+ "?" +:+ "{" +:+ Js.join "," parts +:+ "}")).
  apply map_ext. intros k. rewrite (param_get_Permutation k p1 p2 Hnd Hperm). reflexivity.
Qed.

End KeyFacts.

(** The parameters of a search, listed one way and the other. *)
Lemma cache_key_order_witness :
  CompaniesHouseService.getCacheKey "/search/companies"
    (Some [("q", CompaniesHouseService.PStr "ACME");
           ("items_per_page", CompaniesHouseService.PNum 20)])
  = CompaniesHouseService.getCacheKey "/search/companies"
      (Some [("items_per_page", CompaniesHouseService.PNum 20);
             ("q", CompaniesHouseService.PStr "ACME")]).
Proof.
  apply cache_key_ignores_parameter_order.
  - apply NoDup_cons. split; [| apply NoDup_cons; split; [| apply NoDup_nil_2]].
    + intros Hin. apply list_elem_of_In in Hin. cbn in Hin. destruct Hin as [Heq | []].
      discriminate Heq.
    + intros Hin. apply list_elem_of_In in Hin. destruct Hin.
  - apply perm_swap.
Defined.

(** ** The choice among the results of a search *)

Section SelectionFacts.
Import Routes Selection.

Lemma titleLowerCase_inr result name :
  titleLowerCase result = inr name ->
  exists fs title,
    result = JObj fs /\ Js.get result "title" = inr (JStr title) /\
    name = Str.toLowerCase title.
Proof.
  unfold titleLowerCase. destruct result as [| | b | f | s | items | fs | native]; cbn;
    try discriminate.
  destruct (Js.obj_get "title" fs) as [| | b | f | title | items | fs' | native];
    try discriminate.
  intros Heq. injection Heq as <-. exists fs, title. repeat split.
Qed.

Lemma findMatch_inr companyQuery results found :
  findMatch companyQuery results = inr found ->
  (exists before title after,
     results = before ++ found :: after /\
     Forall (passedOver companyQuery) before /\
     Js.get found "title" = inr (JStr title) /\
     nameMatches companyQuery title = true /\
     Js.truthy found = true) \/
  (Forall (passedOver companyQuery) results /\ found = JUndefined).
Proof.
  induction results as [| result rest IH]; cbn [findMatch].
  - intros Heq. injection Heq as <-. right. split; [constructor | reflexivity].
  - destruct (titleLowerCase result) as [e | name] eqn:Htitle; [discriminate |].
    apply titleLowerCase_inr in Htitle as (fs & title & -> & Hget & ->).
    fold (nameMatches companyQuery title).
    destruct (nameMatches companyQuery title) eqn:Hmatch.
    + intros Heq. injection Heq as <-. left.
      exists [], title, rest. repeat split; [constructor | exact Hget | exact Hmatch].
    + intros Hrest. assert (Hpassed : passedOver companyQuery (JObj fs))
        by (exists title; split; assumption).
      destruct (IH Hrest) as [(before & t & after & -> & Hbefore & Hfound) | (Hall & ->)].
      * left. exists (JObj fs :: before), t, after.
        split; [reflexivity |]. split; [constructor; assumption | exact Hfound].
      * right. split; [constructor; assumption | reflexivity].
Qed.

(** X13. The company chosen among the results of a search is the first
    result whose title contains the query or is contained in it, case
    ignored; when no title matches, it is the first result. *)
Theorem best_match_is_the_first_matching_title companyQuery results best :
  bestMatchOf companyQuery (JArr results) = inr best ->
  (exists before title after,
     results = before ++ best :: after /\
     Forall (passedOver companyQuery) before /\
     Js.get best "title" = inr (JStr title) /\
     nameMatches companyQuery title = true) \/
  (Forall (passedOver companyQuery) results /\ best = nth 0 results JUndefined).
Proof.
  unfold bestMatchOf.
  destruct (findMatch companyQuery results) as [e | found] eqn:Hfind; [discriminate |].
  intros Heq. injection Heq as <-.
  destruct (findMatch_inr _ _ _ Hfind)
    as [(before & title & after & -> & Hbefore & Hget & Hmatch & Htruthy) | (Hall & ->)].
  - left. unfold Js.or_else. rewrite Htruthy.
    exists before, title, after. repeat split; assumption.
  - right. split; [exact Hall | reflexivity].
Qed.

(** Two results for the query [roofing]: the second is chosen. *)
Lemma best_match_witness :
  let first := JObj [("title", JStr "ACME SCAFFOLDING LTD"); ("company_number", JStr "00000001")] in
  let second := JObj [("title", JStr "Acme Roofing Limited"); ("company_number", JStr "01234567")] in
  (exists before title after,
     [first; second] = before ++ second :: after /\
     Forall (passedOver "roofing") before /\
     Js.get second "title" = inr (JStr title) /\
     nameMatches "roofing" title = true) \/
  (Forall (passedOver "roofing") [first; second] /\ second = nth 0 [first; second] JUndefined).
Proof.
  cbv zeta.
  apply (best_match_is_the_first_matching_title "roofing").
  vm_compute. reflexivity.
Defined.

End SelectionFacts.

(** ** The estimates of revenue and valuation *)

Section EstimateFacts.
Import EnhancementService.

(** Closes a goal on closed numbers by evaluating the estimates. *)
Ltac evaluate_revenue :=
  lazymatch goal with
  | |- exists r r' : Z, ?f = _ /\ ?g = _ /\ _ =>
      let a := eval vm_compute in (default 0 (Num.floor_Z f)) in
      let b := eval vm_compute in (default 0 (Num.floor_Z g)) in
      exists a, b; split; [vm_compute; reflexivity |]; split; [vm_compute; reflexivity | lia]
  end.

Ltac head_counts n Hn :=
  let H := fresh in
  assert (H : n = 1 \/ n = 2 \/ n = 3 \/ n = 4 \/ n = 5 \/ n = 6 \/ n = 7 \/ n = 8 \/
              n = 9 \/ n = 10 \/ n = 11 \/ n = 12) by lia;
  clear Hn;
  destruct H as [-> | [-> | [-> | [-> | [-> | [-> | [-> | [-> | [-> | [-> | [-> | ->]]]]]]]]]]].

(** X14. For the head counts the estimator of employees returns, the
    revenue estimate is a whole number of pounds between 26,250 and 75,000
    per employee, and a larger head count never gives a smaller revenue. *)
Theorem revenue_grows_with_head_count n m sicCodes location :
  1 <= n -> n <= m -> m <= 12 ->
  exists r r' : Z,
    estimateRevenue (Num.of_Z n) sicCodes location = Num.of_Z r /\
    estimateRevenue (Num.of_Z m) sicCodes location = Num.of_Z r' /\
    (26250 * n <= r /\ r <= r' /\ r' <= 75000 * m).
Proof.
  intros H1 Hnm H12. unfold estimateRevenue.
  assert (Hn : 1 <= n <= 12) by lia. assert (Hm : 1 <= m <= 12) by lia.
  destruct (sector "43" sicCodes); [| destruct (sector "41" sicCodes);
    [| destruct (sector "42" sicCodes); [| destruct (sector "81" sicCodes)]]];
    head_counts n Hn; head_counts m Hm; try lia; evaluate_revenue.
Qed.

Ltac evaluate_valuation :=
  lazymatch goal with
  | |- exists r v : Z, ?f = _ /\ _ =>
      let a := eval vm_compute in (default 0 (Num.floor_Z f)) in
      exists a;
      lazymatch goal with
      | |- exists v : Z, _ /\ ?g = _ /\ _ =>
          let b := eval vm_compute in (default 0 (Num.floor_Z g)) in
          exists b; split; [vm_compute; reflexivity |]; split; [vm_compute; reflexivity | lia]
      end
  end.

(** X15. The valuation the job processor derives from its revenue estimate
    is a whole number of pounds between 31% and 125% of that revenue,
    whatever the classification codes and the age of the company. *)
Theorem valuation_is_a_fraction_of_revenue n sicCodes location companyAge :
  1 <= n <= 12 ->
  exists r v : Z,
    estimateRevenue (Num.of_Z n) sicCodes location = Num.of_Z r /\
    estimateValuation (estimateRevenue (Num.of_Z n) sicCodes location) (Num.of_Z n)
      sicCodes companyAge = Num.of_Z v /\
    (31 * r <= 100 * v /\ 100 * v <= 125 * r).
Proof.
  intros Hn. unfold estimateValuation, estimateRevenue.
  destruct (sector "43" sicCodes); [| destruct (sector "41" sicCodes);
    [| destruct (sector "42" sicCodes); [| destruct (sector "81" sicCodes)]]];
    (destruct (PrimFloat.ltb 15 companyAge); [| destruct (PrimFloat.ltb 8 companyAge);
      [| destruct (PrimFloat.ltb 3 companyAge); [| destruct (PrimFloat.ltb companyAge 2)]]]);
    head_counts n Hn; evaluate_valuation.
Qed.

Lemma revenue_witness :
  exists r r' : Z,
    estimateRevenue (Num.of_Z 2) ["43910"] "UK" = Num.of_Z r /\
    estimateRevenue (Num.of_Z 6) ["43910"] "UK" = Num.of_Z r' /\
    (26250 * 2 <= r /\ r <= r' /\ r' <= 75000 * 6).
Proof. apply (revenue_grows_with_head_count 2 6 ["43910"] "UK"); lia. Defined.

Lemma valuation_witness :
  exists r v : Z,
    estimateRevenue (Num.of_Z 3) ["43910"] "UK" = Num.of_Z r /\
    estimateValuation (estimateRevenue (Num.of_Z 3) ["43910"] "UK") (Num.of_Z 3)
      ["43910"] (Num.of_Z 9) = Num.of_Z v /\
    (31 * r <= 100 * v /\ 100 * v <= 125 * r).
Proof. apply (valuation_is_a_fraction_of_revenue 3 ["43910"] "UK" (Num.of_Z 9)). lia. Defined.

End EstimateFacts.

(** ** The filing history *)

Section HistoryFacts.
Context `{Host}.
Import CompaniesHouseService Filings History Requests.

Lemma categorizeFilingType_names filingType :
  In (categorizeFilingType filingType) categoryNames.
Proof.
  unfold categorizeFilingType, categoryNames.
  destruct (List.find _ categories) as [entry |] eqn:Hfind.
  - apply List.find_some in Hfind as (Hin & _).
    apply in_or_app. left. apply in_map, Hin.
  - apply in_or_app. right. left. reflexivity.
Qed.

Lemma daysSince_dated now filing :
  dated filing ->
  exists fs days, filing = JObj fs /\ daysSince now (Js.obj_get "date" fs) = inr days.
Proof.
  intros (fs & -> & Hdate). exists fs. unfold daysSince.
  destruct Hdate as [Hfalsy | (filed & Hfiled)].
  - rewrite Hfalsy. eexists. split; reflexivity.
  - rewrite Hfiled. destruct (Js.truthy _); eexists; split; reflexivity.
Qed.

Lemma enhanceFiling_object now filing :
  dated filing ->
  exists enhanced,
    enhanceFiling now filing = inr enhanced /\ annotated now filing enhanced.
Proof.
  intros Hdated. destruct (daysSince_dated now filing Hdated) as (fs & days & -> & Hdays).
  unfold enhanceFiling. cbn [Js.get spread]. rewrite Hdays.
  eexists. split; [reflexivity |].
  eexists. eexists. split; [reflexivity |]. split; [reflexivity |].
  split; [| split].
  - intros k Hc Hd. rewrite !obj_get_set_ne by assumption. reflexivity.
  - eexists. split; [| split; [| reflexivity]].
    + rewrite obj_get_set_ne by discriminate. apply obj_get_set_eq.
    + apply categorizeFilingType_names.
  - rewrite obj_get_set_eq. exact Hdays.
Qed.

Lemma mapFilings_objects now filings :
  Forall dated filings ->
  exists enhanced,
    mapFilings now filings = inr enhanced /\ Forall2 (annotated now) filings enhanced.
Proof.
  induction 1 as [| f rest Hdated _ (others & Hrest & Hall)]; cbn [mapFilings].
  - exists []. split; [reflexivity | constructor].
  - destruct (enhanceFiling_object now f Hdated) as (enhanced & Hone & Hann).
    rewrite Hone, Hrest. exists (enhanced :: others).
    split; [reflexivity | constructor; assumption].
Qed.

Lemma mapFilings_null now filings :
  In JNull filings -> exists e, mapFilings now filings = inl e.
Proof.
  induction filings as [| f rest IH]; intros Hin; [destruct Hin |].
  cbn [mapFilings]. destruct Hin as [-> | Hin].
  - eexists. reflexivity.
  - destruct (enhanceFiling now f) as [e | enhanced]; [eexists; reflexivity |].
    destruct (IH Hin) as (e & ->). eexists. reflexivity.
Qed.

(** The part of [getFilingHistory] inside the [try]. *)
Lemma getFilingHistory_items number w d w1 fs filings :
  makeRequest ("/company/" +:+ number +:+ "/filing-history") (Some filingParams) w
    = (Ok d, w1) ->
  heap w1 !! d = Some (JObj fs) ->
  Js.obj_get "items" fs = JArr filings ->
  getFilingHistory number w =
    match mapFilings (clock w1) filings with
    | inr enhanced => (Ok (JArr enhanced), w1)
    | inl _ => (Ok (JArr []), w1)
    end.
Proof.
  intros Hreq Hd Hitems. unfold getFilingHistory, try_catch.
  unfold bind at 1. rewrite Hreq.
  unfold bind at 1. rewrite (get_prop_obj _ _ _ _ Hd), Hitems.
  cbn [Js.or_else Js.truthy]. unfold bind, Date_now, reads, lift.
  destruct (mapFilings (clock w1) filings); reflexivity.
Qed.

(** X16. [getFilingHistory] never throws and always returns an array: when
    the request fails, whatever the reason, the array is empty. *)
Theorem filing_history_never_throws number w :
  exists filings w',
    getFilingHistory number w = (Ok (JArr filings), w') /\
    (forall e,
       fst (makeRequest ("/company/" +:+ number +:+ "/filing-history")
              (Some filingParams) w) = Throw e ->
       filings = []).
Proof.
  unfold getFilingHistory, try_catch.
  match goal with
  | |- context [match ?m w with _ => _ end] => destruct (m w) as [[r | e] w1] eqn:Hinner
  end.
  - apply bind_ok in Hinner as (d & wa & Hreq & Hinner).
    apply bind_ok in Hinner as (items & wb & _ & Hinner).
    destruct (Js.or_else items (JArr [])) as [| | b | f | s | filings | fs | name];
      try discriminate Hinner.
    apply bind_ok in Hinner as (now & wc & _ & Hinner).
    apply bind_ok in Hinner as (enhanced & wd & _ & Hinner).
    unfold ret in Hinner. injection Hinner as <- <-.
    exists enhanced, wd. split; [reflexivity |].
    intros e He. rewrite Hreq in He. discriminate He.
  - exists [], w1. split; reflexivity.
Qed.

(** X17. The filings of a history whose items are objects, each with a
    date that a date can be made of or with none, come back one for one and
    in order, each a copy with two properties set: its category, which is
    one of ten names, and its age in days, [null] without a date.  The
    payload itself, which the cache holds, is left as it was. *)
Theorem filings_are_annotated_copies number w d w1 fs filings :
  makeRequest ("/company/" +:+ number +:+ "/filing-history") (Some filingParams) w
    = (Ok d, w1) ->
  heap w1 !! d = Some (JObj fs) ->
  Js.obj_get "items" fs = JArr filings ->
  Forall dated filings ->
  exists enhanced,
    getFilingHistory number w = (Ok (JArr enhanced), w1) /\
    Forall2 (annotated (clock w1)) filings enhanced.
Proof.
  intros Hreq Hd Hitems Hobjects.
  rewrite (getFilingHistory_items _ _ _ _ _ _ Hreq Hd Hitems).
  destruct (mapFilings_objects (clock w1) filings Hobjects) as (enhanced & -> & Hall).
  exists enhanced. split; [reflexivity | exact Hall].
Qed.

(** X18. One [null] among the items of a history empties it: the whole
    history is returned as the empty array, the filings before and after the
    [null] included. *)
Theorem null_filing_empties_the_history number w d w1 fs filings :
  makeRequest ("/company/" +:+ number +:+ "/filing-history") (Some filingParams) w
    = (Ok d, w1) ->
  heap w1 !! d = Some (JObj fs) ->
  Js.obj_get "items" fs = JArr filings ->
  In JNull filings ->
  getFilingHistory number w = (Ok (JArr []), w1).
Proof.
  intros Hreq Hd Hitems Hnull.
  rewrite (getFilingHistory_items _ _ _ _ _ _ Hreq Hd Hitems).
  destruct (mapFilings_null (clock w1) filings Hnull) as (e & ->). reflexivity.
Qed.

End HistoryFacts.

Section HistoryWitnesses.
Import CompaniesHouseService Filings History.

Lemma filings_witness :
  let w := set_upstream [Sample.historyExchange Sample.history]
             (Sample.start Sample.may2024 0) in
  exists enhanced w1,
    @getFilingHistory Sample.host "01234567" w = (Ok (JArr enhanced), w1) /\
    List.length enhanced = 2%nat.
Proof.
  cbv zeta.
  destruct (@filings_are_annotated_copies Sample.host "01234567"
              (set_upstream [Sample.historyExchange Sample.history]
                 (Sample.start Sample.may2024 0))
              0%nat
              (snd (@makeRequest Sample.host "/company/01234567/filing-history"
                      (Some filingParams)
                      (set_upstream [Sample.historyExchange Sample.history]
                         (Sample.start Sample.may2024 0))))
              [("items",
                JArr [JObj [("type", JStr "AA"); ("date", JStr "2024-01-15");
                            ("description", JStr "accounts-with-accounts-type-micro-entity")];
                      JObj [("type", JStr "CS01"); ("barcode", JStr "X1234567")]])]
              [JObj [("type", JStr "AA"); ("date", JStr "2024-01-15");
                     ("description", JStr "accounts-with-accounts-type-micro-entity")];
               JObj [("type", JStr "CS01"); ("barcode", JStr "X1234567")]])
    as (enhanced & Hrun & Hall).
  - vm_compute. reflexivity.
  - vm_compute. reflexivity.
  - reflexivity.
  - repeat constructor; eexists; (split; [reflexivity |]);
      [right; eexists; vm_compute; reflexivity | left; reflexivity].
  - exists enhanced. eexists. split; [exact Hrun |].
    apply Forall2_length in Hall. symmetry. exact Hall.
Defined.

Lemma null_filing_witness :
  let w := set_upstream [Sample.historyExchange Sample.brokenHistory]
             (Sample.start Sample.may2024 0) in
  exists w1, @getFilingHistory Sample.host "01234567" w = (Ok (JArr []), w1).
Proof.
  cbv zeta. eexists.
  apply (@null_filing_empties_the_history Sample.host "01234567"
           (set_upstream [Sample.historyExchange Sample.brokenHistory]
              (Sample.start Sample.may2024 0))
           0%nat _
           [("items", JArr [JObj [("type", JStr "AA")]; JNull])]
           [JObj [("type", JStr "AA")]; JNull]).
  - vm_compute. reflexivity.
  - vm_compute. reflexivity.
  - reflexivity.
  - right. left. reflexivity.
Defined.

End HistoryWitnesses.

(** ** The cache controls *)

Section CacheFacts.
Context `{Host}.
Import CompaniesHouseService CacheControl Requests.

(** The loop of [getCacheStats] computes the least timestamp. *)
Lemma fold_older (l : list CacheEntry) (acc : option Z) :
  match fold_left older l acc with
  | None => acc = None /\ l = []
  | Some m =>
      (acc = Some m \/ exists e, In e l /\ timestamp e = m) /\
      (forall a, acc = Some a -> m <= a) /\
      (forall e, In e l -> m <= timestamp e)
  end.
Proof.
  revert acc. induction l as [| e r IH]; intros acc; cbn [fold_left].
  - destruct acc as [m |]; [| split; reflexivity].
    split; [left; reflexivity |]. split; [| intros e []].
    intros a Ha. injection Ha as <-. lia.
  - specialize (IH (older acc e)).
    destruct (fold_left older r (older acc e)) as [m |].
    + destruct IH as (Hfrom & Hacc & Hall).
      assert (Hstep : (acc = Some m \/ timestamp e = m) /\
                      (forall a, acc = Some a -> m <= a) /\ m <= timestamp e
                      \/ older acc e <> Some m /\
                          (forall a, acc = Some a -> m <= a) /\ m <= timestamp e).
      { unfold older in *. destruct acc as [o |].
        - destruct (Z.ltb_spec (timestamp e) o).
          + specialize (Hacc _ eq_refl).
            destruct (Z.eq_dec (timestamp e) m) as [Heq | Hne].
            * left. split; [right; exact Heq |]. split; [| lia].
              intros a Ha. injection Ha as <-. lia.
            * right. split; [congruence |]. split; [| lia].
              intros a Ha. injection Ha as <-. lia.
          + specialize (Hacc _ eq_refl).
            destruct (Z.eq_dec o m) as [Heq | Hne].
            * left. split; [left; congruence |]. split; [| lia].
              intros a Ha. injection Ha as <-. lia.
            * right. split; [congruence |]. split; [| lia].
              intros a Ha. injection Ha as <-. lia.
        - specialize (Hacc _ eq_refl).
          destruct (Z.eq_dec (timestamp e) m) as [Heq | Hne].
          + left. split; [right; exact Heq |]. split; [discriminate | lia].
          + right. split; [congruence |]. split; [discriminate | lia]. }
      destruct Hstep as [([Ha | He] & Hle & Hte) | (Hne & Hle & Hte)].
      * split; [left; exact Ha |]. split; [exact Hle |].
        intros e' [<- | Hin]; [exact Hte | apply Hall, Hin].
      * split; [right; exists e; split; [left; reflexivity | exact He] |].
        split; [exact Hle |]. intros e' [<- | Hin]; [exact Hte | apply Hall, Hin].
      * destruct Hfrom as [Hfrom | (e' & Hin & He')]; [contradiction |].
        split; [right; exists e'; split; [right; exact Hin | exact He'] |].
        split; [exact Hle |]. intros e'' [<- | Hin']; [exact Hte | apply Hall, Hin'].
    + destruct IH as (Hnone & _). unfold older in Hnone.
      destruct acc as [o |]; [destruct (timestamp e <? o) |]; discriminate Hnone.
Qed.

(** The loop gives the same result in whatever order it goes through the
    values. *)
Lemma oldest_any_order (l l' : list CacheEntry) :
  Permutation l l' -> fold_left older l None = fold_left older l' None.
Proof.
  intros Hperm.
  pose proof (fold_older l None) as Hl. pose proof (fold_older l' None) as Hl'.
  destruct (fold_left older l None) as [m |], (fold_left older l' None) as [m' |].
  - destruct Hl as ([Hn | (e & Hin & He)] & _ & Hall); [discriminate |].
    destruct Hl' as ([Hn | (e' & Hin' & He')] & _ & Hall'); [discriminate |].
    apply (Permutation_in _ Hperm) in Hin.
    apply (Permutation_in _ (Permutation_sym Hperm)) in Hin'.
    specialize (Hall _ Hin'). specialize (Hall' _ Hin). f_equal. lia.
  - destruct Hl as ([Hn | (e & Hin & _)] & _); [discriminate |].
    destruct Hl' as (_ & ->). apply (Permutation_in _ Hperm) in Hin. destruct Hin.
  - destruct Hl' as ([Hn | (e & Hin & _)] & _); [discriminate |].
    destruct Hl as (_ & ->). apply (Permutation_in _ (Permutation_sym Hperm)) in Hin.
    destruct Hin.
  - reflexivity.
Qed.

Lemma cached_values (w : World) (entry : CacheEntry) :
  In entry (snd <$> map_to_list (cache w)) <-> exists key, cache w !! key = Some entry.
Proof.
  rewrite <- list_elem_of_In, list_elem_of_fmap. split.
  - intros ([key e] & -> & Hin). apply elem_of_map_to_list in Hin. exists key. exact Hin.
  - intros (key & Hkey). exists (key, entry). split; [reflexivity |].
    apply elem_of_map_to_list. exact Hkey.
Qed.

(** X19. [getCacheStats] changes nothing and reports the number of entries
    and the age of the oldest one: no entry is older, and when that age is
    below the expiry window every cached request is still served from the
    cache.  The age is missing when the cache is empty, and also when the
    oldest entry carries the timestamp 0. *)
Theorem cache_stats_report_the_oldest_entry w :
  exists stats,
    getCacheStats w = (Ok stats, w) /\
    entries stats = Z.of_nat (size (cache w)) /\
    match oldestEntry stats with
    | Some age =>
        (exists key entry, cache w !! key = Some entry /\ age = clock w - timestamp entry) /\
        (forall key entry, cache w !! key = Some entry -> clock w - timestamp entry <= age) /\
        (age < cacheExpiry -> forall key, is_Some (cache w !! key) -> fresh w key = true)
    | None =>
        cache w = ∅ \/
        (exists key entry, cache w !! key = Some entry /\ timestamp entry = 0) /\
        (forall key entry, cache w !! key = Some entry -> 0 <= timestamp entry)
    end.
Proof.
  unfold getCacheStats, bind, Date_now, reads, ret. eexists. split; [reflexivity |].
  split; [reflexivity |]. cbn [oldestEntry].
  pose proof (fold_older (snd <$> map_to_list (cache w)) None) as Hfold.
  destruct (fold_left older (snd <$> map_to_list (cache w)) None) as [m |].
  - destruct Hfold as ([Hnone | (e & Hin & He)] & _ & Hall); [discriminate |].
    apply cached_values in Hin as (key & Hkey).
    assert (Hall' : forall key' entry, cache w !! key' = Some entry -> m <= timestamp entry).
    { intros key' entry Hentry. apply Hall, cached_values. exists key'. exact Hentry. }
    destruct (Z.eqb_spec m 0) as [-> | Hne].
    + right. split; [exists key, e; split; assumption | exact Hall'].
    + split; [exists key, e; split; [exact Hkey | lia] |].
      split; [intros key' entry Hentry; specialize (Hall' _ _ Hentry); lia |].
      intros Hage key' (entry & Hentry). unfold fresh. rewrite Hentry.
      apply Z.ltb_lt. specialize (Hall' _ _ Hentry). lia.
  - destruct Hfold as (_ & Hnil). left.
    apply fmap_nil_inv in Hnil. apply map_to_list_empty_iff in Hnil. exact Hnil.
Qed.

(** X20. After [clearCache] the cache has no entry, and the next request
    goes to the registry whatever was cached before. *)
Theorem clearing_the_cache_forces_a_request endpoint params w x rest :
  String.eqb apiKey "" = false ->
  upstream w = x :: rest ->
  let w0 := snd (clearCache w) in
  fst (getCacheStats w0) = Ok {| entries := 0; oldestEntry := None |} /\
  exists more,
    fetched (snd (makeRequest endpoint params w0))
      = fetched w ++ request_for endpoint params :: more.
Proof.
  intros Hkey Hup. cbv zeta. unfold clearCache, modify. cbn [snd]. split.
  - unfold getCacheStats, bind, Date_now, reads, ret. cbn [fst cache set_cache].
    rewrite map_to_list_empty, map_size_empty. reflexivity.
  - unfold makeRequest. cbn [upstream set_cache]. rewrite Hup.
    apply (makeRequest_on_sends endpoint params (set_cache ∅ w) x rest Hkey).
    unfold fresh. cbn [cache set_cache]. rewrite lookup_empty. reflexivity.
Qed.

End CacheFacts.

Section CacheWitnesses.
Import CompaniesHouseService CacheControl Requests.

(** The record 01234567 is cached, the cache is cleared, and the record is
    asked for again a second later. *)
Lemma clearing_the_cache_witness :
  let w := set_clock (Sample.may2024 + 1040)
             (snd (@makeRequest Sample.host "/company/01234567" None
                     (Sample.start Sample.may2024 2))) in
  fresh w (getCacheKey "/company/01234567" None) = true /\
  exists more,
    fetched (snd (@makeRequest Sample.host "/company/01234567" None (snd (clearCache w))))
      = fetched w ++ request_for "/company/01234567" None :: more.
Proof.
  cbv zeta. split; [vm_compute; reflexivity |].
  destruct (@clearing_the_cache_forces_a_request Sample.host "/company/01234567" None
              (set_clock (Sample.may2024 + 1040)
                 (snd (@makeRequest Sample.host "/company/01234567" None
                         (Sample.start Sample.may2024 2))))
              Sample.exchange [])
    as (_ & Hsent).
  - reflexivity.
  - vm_compute. reflexivity.
  - exact Hsent.
Defined.

End CacheWitnesses.

(** ** The times of a job *)

#[local] Instance later_preorder : PreOrder Timing.later.
Proof.
  split.
  - intros w. unfold Timing.later. lia.
  - intros a b c. unfold Timing.later. lia.
Qed.

#[local] Instance stamped_preorder : PreOrder Timing.stamped.
Proof.
  split.
  - intros w. split; [lia |]. exists []. rewrite app_nil_r. split; [reflexivity | constructor].
  - intros a b c (Hab & m1 & H1 & F1) (Hbc & m2 & H2 & F2). split; [lia |].
    exists (m1 ++ m2). rewrite H2, H1, <- app_assoc. split; [reflexivity |].
    apply Forall_app. split.
    + eapply Forall_impl; [exact F1 |]. cbn. intros job (? & ?). split; lia.
    + eapply Forall_impl; [exact F2 |]. cbn. intros job (? & ?). split; lia.
Qed.

Section TimingFacts.
Context `{Host}.
Import CompaniesHouseService EnhancementService MemStorage Routes Run Timing.

Lemma sleep_later d : respects later (sleep d).
Proof.
  intros w. unfold sleep, modify, later. cbn. pose proof (timer_delay_positive d). lia.
Qed.

Lemma set_prop_later l k v : respects later (set_prop l k v).
Proof.
  intros w. unfold set_prop, modify, later. cbn. repeat case_match; cbn; lia.
Qed.

Lemma get_prop_later l k : respects later (get_prop l k).
Proof. intros w. rewrite get_prop_reads. unfold later. cbn. lia. Qed.

Lemma deref_later l : respects later (deref l).
Proof. intros w. unfold later. cbn. lia. Qed.

Lemma makeRequest_later endpoint params : respects later (makeRequest endpoint params).
Proof.
  intros w. unfold makeRequest.
  apply (makeRequest_on_continues (upstream w) endpoint params w).
Qed.

Lemma requireFields_later data fields : respects later (requireFields data fields).
Proof. intros w. rewrite requireFields_reads. unfold later. cbn. lia. Qed.

Hint Resolve sleep_later set_prop_later get_prop_later deref_later makeRequest_later
  requireFields_later : frame.

Lemma validateAndEnhanceCompanyData_later data :
  respects later (validateAndEnhanceCompanyData data).
Proof. unfold validateAndEnhanceCompanyData. frame. Qed.

Lemma observed_later {A} entry (m : JS A) :
  respects later m -> respects later (observed entry m).
Proof.
  intros Hm w. unfold observed. specialize (Hm w). destruct (m w) as [o w1]. exact Hm.
Qed.

Hint Resolve validateAndEnhanceCompanyData_later : frame.

Lemma searchCompany_later query : respects later (searchCompany query).
Proof. unfold searchCompany. apply observed_later. frame. Qed.

Lemma getCompanyDetailsOf_later number : respects later (getCompanyDetailsOf number).
Proof. unfold getCompanyDetailsOf. apply observed_later. frame. Qed.

Lemma getCompanyDetails_later number : respects later (getCompanyDetails number).
Proof. apply getCompanyDetailsOf_later. Qed.

Hint Resolve searchCompany_later getCompanyDetailsOf_later getCompanyDetails_later : frame.

Lemma searchVariations_later remaining searchResults :
  respects later (searchVariations remaining searchResults).
Proof.
  revert searchResults.
  induction remaining as [| v rest IH]; intros; cbn [searchVariations]; frame.
Qed.

Hint Resolve searchVariations_later : frame.

Lemma resolveCompany_later companyQuery : respects later (resolveCompany companyQuery).
Proof. unfold resolveCompany. frame. Qed.

Lemma estimateEmployeeCount_later companyData sicCodes :
  respects later (estimateEmployeeCount companyData sicCodes).
Proof. intros w. rewrite estimateEmployeeCount_unchanged. reflexivity. Qed.

Lemma createCompany_later insertCompany : respects later (createCompany insertCompany).
Proof. intros w. unfold later. cbn. lia. Qed.

Hint Resolve resolveCompany_later estimateEmployeeCount_later createCompany_later : frame.

Lemma enrichAndSave_later companyData : respects later (enrichAndSave companyData).
Proof. unfold enrichAndSave. frame. Qed.

Hint Resolve enrichAndSave_later : frame.

Lemma processItem_later companyQuery : respects later (processItem companyQuery).
Proof. unfold processItem. frame. Qed.

Lemma stamped_quiet w w' : clock w <= clock w' -> written w' = written w -> stamped w w'.
Proof.
  intros Hc Hw. split; [exact Hc |]. exists []. rewrite app_nil_r.
  split; [exact Hw | constructor].
Qed.

Lemma attempted_stamped q : respects stamped (attempted q (processItem q)).
Proof.
  intros w. unfold attempted.
  pose proof (processItem_later q w) as Hl. pose proof (processItem_item q w) as (_ & _ & Hw).
  destruct (processItem q w) as [o w1]. apply stamped_quiet; [exact Hl | exact Hw].
Qed.

Lemma updateProcessingJob_stamped jobId updates :
  respects stamped (updateProcessingJob jobId updates).
Proof.
  intros w. destruct (processingJobs w !! jobId) as [job |] eqn:Hjob.
  - rewrite (updateProcessingJob_found _ _ _ _ Hjob).
    split; [cbn; lia |]. eexists. split; [reflexivity |].
    constructor; [| constructor]. cbn. lia.
  - rewrite (updateProcessingJob_missing _ _ _ Hjob). reflexivity.
Qed.

Lemma createProcessingJob_stamped insertJob :
  respects stamped (createProcessingJob insertJob).
Proof.
  intros w. split; [cbn; lia |]. eexists. split; [reflexivity |].
  constructor; [| constructor]. cbn. lia.
Qed.

Hint Resolve attempted_stamped updateProcessingJob_stamped createProcessingJob_stamped
  : frame.

Lemma processOne_stamped jobId q t : respects stamped (processOne jobId q t).
Proof. unfold processOne. frame. Qed.

Hint Resolve processOne_stamped : frame.

Lemma processAll_stamped jobId names t : respects stamped (processAll jobId names t).
Proof. revert t. induction names as [| q rest IH]; intros t; cbn [processAll]; frame. Qed.

Hint Resolve processAll_stamped : frame.

Lemma bulkProcess_stamped names options : respects stamped (bulkProcess names options).
Proof. unfold bulkProcess, processBulkCompanies. destruct names; frame. Qed.

(** The progress updates leave the times of creation and the estimate as
    they are. *)
Lemma snapshots_keep job t outcomes times :
  let final := List.last (snapshots job t outcomes times) job in
  createdAt final = createdAt job /\ estimatedDuration final = estimatedDuration job.
Proof.
  revert job t times. induction outcomes as [| a rest IH]; intros job t [| now times];
    cbn [snapshots]; try (split; reflexivity).
  cbv zeta. rewrite last_cons.
  set (t' := tallyAfter t a). set (job' := applyUpdates job (progressUpdates t') now).
  destruct (IH job' t' times) as (Hc & He). cbv zeta in Hc, He. rewrite Hc, He.
  split; reflexivity.
Qed.

(** X21. The times of a finished bulk job are in order: it was created
    when the request came in or after, it was last updated no earlier, and
    completed no earlier than that and not after the end of the run; its
    actual duration is a whole number of seconds, never negative and no
    longer than the time from its creation to its completion, and its
    estimated duration is two seconds for each identifier. *)
Theorem job_times_are_ordered names options w :
  names <> [] ->
  exists jobId final finished duration w',
    bulkProcess names options w = (Ok (Started jobId (Z.of_nat (List.length names))), w') /\
    processingJobs w' !! jobId = Some final /\
    completedAt final = Some finished /\
    clock w <= createdAt final /\ createdAt final <= updatedAt final /\
    updatedAt final <= finished /\ finished <= clock w' /\
    estimatedDuration final = Some (Z.of_nat (List.length names) * 2) /\
    actualDuration final = Some duration /\
    0 <= duration /\ duration * 1000 <= finished - createdAt final.
Proof.
  intros Hne.
  destruct (bulkProcess_spec names options w Hne)
    as (outcomes & times & finished & w' & Hrun & _ & _ & _ & Hwr & Hfinal).
  cbv zeta in *.
  pose proof (bulkProcess_stamped names options w) as (_ & more & Hmore & Hall).
  rewrite Hrun in Hmore, Hall. cbn [snd] in Hmore, Hall. rewrite Hwr in Hmore.
  apply app_inv_head in Hmore. subst more.
  set (started := applyUpdates (createdJob names options w) (startUpdates names) (clock w))
    in *.
  set (snaps := snapshots started (tallyAll [] emptyTally) outcomes times) in *.
  destruct (snapshots_keep started emptyTally outcomes times) as (Hc & He).
  cbv zeta in Hc, He. fold snaps in Hc, He.
  apply Forall_cons in Hall as (_ & Hall). apply Forall_cons in Hall as (_ & Hall).
  apply Forall_app in Hall as (_ & Hall). apply Forall_cons in Hall as ((Hlo & Hhi) & _).
  cbn [updatedAt applyUpdates] in Hlo, Hhi.
  eexists. eexists. exists finished, ((finished - clock w) / 1000), w'.
  split; [exact Hrun |]. split; [exact Hfinal |].
  cbn [createdAt updatedAt completedAt estimatedDuration actualDuration applyUpdates
       finalUpdates setStatus setEstimatedDuration setActualDuration].
  rewrite Hc, He. cbn [createdAt started applyUpdates createdJob].
  split; [destruct (0 <? _); reflexivity |].
  split; [lia |]. split; [exact Hlo |]. split; [lia |]. split; [exact Hhi |].
  split; [reflexivity |]. split; [reflexivity |].
  split; [apply Z.div_pos; lia |].
  pose proof (Z.mul_div_le (finished - clock w) 1000). lia.
Qed.

End TimingFacts.

Lemma job_times_witness :
  exists jobId final finished w',
    @Routes.bulkProcess Sample.host ["01234567"; "Zeta"] None (Sample.start Sample.may2024 8)
      = (Ok (Routes.Started jobId 2), w') /\
    processingJobs w' !! jobId = Some final /\
    completedAt final = Some finished /\
    Sample.may2024 <= finished /\
    estimatedDuration final = Some 4.
Proof.
  destruct (@job_times_are_ordered Sample.host ["01234567"; "Zeta"] None
              (Sample.start Sample.may2024 8))
    as (jobId & final & finished & duration & w' & Hrun & Hjob & Hdone & Hlo & Hup & Hfin
        & _ & Hest & _).
  - discriminate.
  - exists jobId, final, finished, w'.
    split; [exact Hrun |]. split; [exact Hjob |]. split; [exact Hdone |].
    split; [| exact Hest]. cbn [clock Sample.start] in Hlo. lia.
Defined.
